(** * BlindOracle: a confidential prediction market

    A shallow embedding of the Solidity contracts [BlindOracle] and
    [PriceOracle], together with the proofs of the properties that the
    specification states about them.

    Modelling conventions.
    - [uint256] values are integers of [Z]; every arithmetic operation
      of the contract that Solidity 0.8 checks is written with its check
      spelled out (a failed check is a revert with a panic code).
    - A reverting call yields [Revert msg] and no state: the caller keeps
      the state it had, as the EVM rolls the call back.
    - Storage mappings are finite maps read with the Solidity default.
    - A ciphertext of the FHE library is represented by the plaintext it
      encrypts.  Confidentiality is not an object of study here, only the
      functional behaviour of the homomorphic operations, which wrap
      around at the width of the type.
    - Access-control grants ([FHE.allow], [FHE.allowThis]) and event logs
      do not influence any state read by the contract and are left out.
    - [call{value: v}("")] is a plain transfer: it succeeds when the
      balance covers [v] and the recipient accepts it. *)

From Stdlib Require Import ZArith List Bool Lia String.
From stdpp Require Import base option list gmap.

Local Open Scope Z_scope.

Abbreviation address := N (only parsing).
Abbreviation bytes := (list Byte.byte) (only parsing).

(** ** Reverting computations *)

Inductive result (A : Type) : Type :=
| Ok (a : A)
| Revert (msg : string).
Arguments Ok {A} a.
Arguments Revert {A} msg.

#[global] Instance result_ret : MRet result := fun _ a => Ok a.
#[global] Instance result_bind : MBind result := fun _ _ f m =>
  match m with
  | Ok a => f a
  | Revert msg => Revert msg
  end.

Definition require (cond : bool) (msg : string) : result unit :=
  if cond then Ok tt else Revert msg.

Definition is_ok {A} (r : result A) : bool :=
  match r with Ok _ => true | Revert _ => false end.

(** Checked [uint256] arithmetic of Solidity 0.8. *)
Definition UINT256_MAX : Z := 2 ^ 256 - 1.

Definition checked_add (a b : Z) : result Z :=
  if a + b <=? UINT256_MAX then Ok (a + b) else Revert "Panic(0x11)".

Definition checked_sub (a b : Z) : result Z :=
  if b <=? a then Ok (a - b) else Revert "Panic(0x11)".

Definition checked_mul (a b : Z) : result Z :=
  if a * b <=? UINT256_MAX then Ok (a * b) else Revert "Panic(0x11)".

Definition checked_div (a b : Z) : result Z :=
  if b =? 0 then Revert "Panic(0x12)" else Ok (a / b).

(** ** The call environment *)

Module PriceOracle.

Inductive Asset := ETH | BTC | SOL.

Record PriceData := mkPriceData {
  price : Z;
  timestamp : Z;
  updater : address
}.

Definition MAX_PRICE_AGE : Z := 24 * 3600.

(** Storage of the oracle contract: [prices]. *)
Definition Storage := Asset -> PriceData.

Definition getPrice (prices : Storage) (now : Z) (asset : Asset) : result (Z * Z) :=
  let data := prices asset in
  _ ← require (0 <? timestamp data) "Price not available";
  age ← checked_sub now (timestamp data);
  _ ← require (age <=? MAX_PRICE_AGE) "Price too old";
  Ok (price data, timestamp data).

(** The rest of the oracle contract: its whole storage, the constructor,
    the administration of updaters, the price updates and the other
    queries.  [sender] is [msg.sender] and [now] is [block.timestamp]. *)

#[global] Instance Asset_eq_dec : EqDecision Asset.
Proof. solve_decision. Defined.

Record Contract := mkContract {
  prices : Storage;
  isUpdater : gmap N bool;
  owner : address
}.

Definition isUpdaterOf (c : Contract) (a : address) : bool :=
  default false (isUpdater c !! a).

(** [prices[asset] = data]. *)
Definition store (prices : Storage) (asset : Asset) (data : PriceData) : Storage :=
  fun a => if decide (a = asset) then data else prices a.

Definition constructor (sender : address) (now : Z) : Contract :=
  {| prices := fun a =>
       match a with
       | ETH => mkPriceData 350000000000 now sender
       | BTC => mkPriceData 9500000000000 now sender
       | SOL => mkPriceData 18000000000 now sender
       end;
     isUpdater := {[ sender := true ]};
     owner := sender |}.

Definition onlyOwner (sender : address) (c : Contract) : result unit :=
  require (bool_decide (sender = owner c)) "Not owner".

Definition onlyUpdater (sender : address) (c : Contract) : result unit :=
  require (isUpdaterOf c sender) "Not authorized updater".

Definition addUpdater (sender updater : address) (c : Contract) : result Contract :=
  _ ← onlyOwner sender c;
  _ ← require (negb (bool_decide (updater = 0%N))) "Invalid address";
  Ok (mkContract (prices c) (<[updater := true]> (isUpdater c)) (owner c)).

Definition removeUpdater (sender updater : address) (c : Contract) : result Contract :=
  _ ← onlyOwner sender c;
  Ok (mkContract (prices c) (<[updater := false]> (isUpdater c)) (owner c)).

Definition updatePrice (sender : address) (now : Z) (asset : Asset) (newPrice : Z)
    (c : Contract) : result Contract :=
  _ ← onlyUpdater sender c;
  _ ← require (0 <? newPrice) "Invalid price";
  Ok (mkContract (store (prices c) asset (mkPriceData newPrice now sender))
        (isUpdater c) (owner c)).

(** The loop of [updatePrices], over the two arrays side by side; the
    length check made before the loop keeps the index in bounds. *)
Fixpoint updateEach (sender : address) (now : Z) (assets : list Asset)
    (newPrices : list Z) (c : Contract) : result Contract :=
  match assets, newPrices with
  | [], _ => Ok c
  | _ :: _, [] => Revert "Panic(0x32)"
  | asset :: assets, newPrice :: newPrices =>
      _ ← require (0 <? newPrice) "Invalid price";
      updateEach sender now assets newPrices
        (mkContract (store (prices c) asset (mkPriceData newPrice now sender))
           (isUpdater c) (owner c))
  end.

Definition updatePrices (sender : address) (now : Z) (assets : list Asset)
    (newPrices : list Z) (c : Contract) : result Contract :=
  _ ← onlyUpdater sender c;
  _ ← require (bool_decide (length assets = length newPrices)) "Length mismatch";
  updateEach sender now assets newPrices c.

Definition getPriceUnsafe (prices : Storage) (asset : Asset) : result (Z * Z) :=
  let data := prices asset in
  _ ← require (0 <? timestamp data) "Price not available";
  Ok (price data, timestamp data).

Definition isPriceFresh (prices : Storage) (now : Z) (asset : Asset) : result bool :=
  let data := prices asset in
  if timestamp data =? 0 then Ok false
  else age ← checked_sub now (timestamp data); Ok (age <=? MAX_PRICE_AGE).

Definition isPriceAboveTarget (prices : Storage) (now : Z) (asset : Asset)
    (targetPrice : Z) : result bool :=
  let data := prices asset in
  _ ← require (0 <? timestamp data) "Price not available";
  age ← checked_sub now (timestamp data);
  _ ← require (age <=? MAX_PRICE_AGE) "Price too old";
  Ok (targetPrice <=? price data).

End PriceOracle.

(** What a call sees of the outside world: the transaction fields, the
    storage of the price oracle at that moment, and which addresses accept
    a plain transfer of ether. *)
Record Env := mkEnv {
  msg_sender : address;
  msg_value : Z;
  block_timestamp : Z;
  oracle : PriceOracle.Storage;
  accepts_ether : address -> bool
}.

(** ** Confidential integers *)

Record euint8 := Euint8 { plain8 : Z }.
Record euint64 := Euint64 { plain64 : Z }.
Record externalEuint8 := ExternalEuint8 { ext8 : Z }.
Record externalEuint64 := ExternalEuint64 { ext64 : Z }.

(** A ciphertext handle ([bytes32]) as handed to the decryption oracle. *)
Inductive handle :=
| Handle8 (c : euint8)
| Handle64 (c : euint64).

Definition decrypt (h : handle) : Z :=
  match h with
  | Handle8 c => plain8 c
  | Handle64 c => plain64 c
  end.

#[global] Instance euint8_eq_dec : EqDecision euint8.
Proof. solve_decision. Defined.
#[global] Instance euint64_eq_dec : EqDecision euint64.
Proof. solve_decision. Defined.
#[global] Instance handle_eq_dec : EqDecision handle.
Proof. solve_decision. Defined.

(** The two checks that the FHE library delegates to the coprocessor and
    to the key-management service.  [verifyCiphertext h sender proof bits]
    is the zero-knowledge check of an input ciphertext;
    [verifySignatures handles cleartexts proof] is the check of the
    signatures on a decryption result. *)
Record Coprocessor := mkCoprocessor {
  verifyCiphertext : Z -> address -> bytes -> Z -> bool;
  verifySignatures : list handle -> list Z -> bytes -> bool
}.

(** The key-management service signs genuine decryptions only: accepted
    cleartexts are the ABI encoding (one word per handle) of the
    plaintexts of the requested handles. *)
Definition kms_sound (cp : Coprocessor) : Prop :=
  forall handles cleartexts proof,
    verifySignatures cp handles cleartexts proof = true ->
    cleartexts = map decrypt handles.

(** The operations of the FHE library (an external dependency of the
    contract) by their documented behaviour: arithmetic wraps around at the
    width of the type, a cast from 8 to 64 bits keeps the value, and an
    external input is turned into a ciphertext only if its proof verifies. *)
Module FHE.

Definition asEuint8 (v : Z) : euint8 := Euint8 (v mod 2 ^ 8).
Definition asEuint64 (v : Z) : euint64 := Euint64 (v mod 2 ^ 64).

(** [FHE.asEuint64(euint8)]: widening cast. *)
Definition castEuint64 (a : euint8) : euint64 := Euint64 (plain8 a).

Definition sub8 (a b : euint8) : euint8 :=
  Euint8 ((plain8 a - plain8 b) mod 2 ^ 8).
Definition add64 (a b : euint64) : euint64 :=
  Euint64 ((plain64 a + plain64 b) mod 2 ^ 64).
Definition mul64 (a b : euint64) : euint64 :=
  Euint64 ((plain64 a * plain64 b) mod 2 ^ 64).

Definition fromExternal8 (cp : Coprocessor) (sender : address)
    (input : externalEuint8) (inputProof : bytes) : result euint8 :=
  if verifyCiphertext cp (ext8 input) sender inputProof 8
     && (0 <=? ext8 input) && (ext8 input <? 2 ^ 8)
  then Ok (Euint8 (ext8 input))
  else Revert "InvalidInputProof()".

Definition fromExternal64 (cp : Coprocessor) (sender : address)
    (input : externalEuint64) (inputProof : bytes) : result euint64 :=
  if verifyCiphertext cp (ext64 input) sender inputProof 64
     && (0 <=? ext64 input) && (ext64 input <? 2 ^ 64)
  then Ok (Euint64 (ext64 input))
  else Revert "InvalidInputProof()".

End FHE.

(** [abi.decode(cleartexts, (uint64, uint64))] and
    [abi.decode(cleartexts, (uint8, uint64))].  The byte string is read as
    its sequence of 32-byte words; decoding needs two words and reverts on
    a word outside the range of its type. *)
Definition abi_decode2 (bits0 bits1 : Z) (cleartexts : list Z) : result (Z * Z) :=
  match cleartexts with
  | w0 :: w1 :: _ =>
      if (0 <=? w0) && (w0 <? 2 ^ bits0) && (0 <=? w1) && (w1 <? 2 ^ bits1)
      then Ok (w0, w1)
      else Revert "abi.decode"
  | _ => Revert "abi.decode"
  end.

(** ** The Chainlink price oracle and the mock price feed *)

Module MockChainlinkAggregator.

Record State := mkState {
  _price : Z;
  _decimals : Z;
  _roundId : Z;
  _updatedAt : Z
}.

(** What [latestRoundData] and [getRoundData] return:
    [(roundId, answer, startedAt, updatedAt, answeredInRound)]. *)
Record RoundData := mkRoundData {
  roundId : Z;
  answer : Z;
  startedAt : Z;
  updatedAt : Z;
  answeredInRound : Z
}.

Definition UINT80_MAX : Z := 2 ^ 80 - 1.

Definition constructor (now : Z) (initialPrice decimals_ : Z) : State :=
  mkState initialPrice decimals_ 1 now.

Definition decimals (st : State) : Z := _decimals st.

Definition getRoundData (st : State) (_roundId_ : Z) : RoundData :=
  mkRoundData _roundId_ (_price st) (_updatedAt st) (_updatedAt st) _roundId_.

Definition latestRoundData (st : State) : RoundData :=
  mkRoundData (_roundId st) (_price st) (_updatedAt st) (_updatedAt st) (_roundId st).

Definition setPrice (now : Z) (newPrice : Z) (st : State) : result State :=
  _ ← require (_roundId st + 1 <=? UINT80_MAX) "Panic(0x11)";
  Ok (mkState newPrice (_decimals st) (_roundId st + 1) now).

Definition setUpdatedAt (timestamp : Z) (st : State) : State :=
  mkState (_price st) (_decimals st) (_roundId st) timestamp.

End MockChainlinkAggregator.

Module ChainlinkPriceOracle.

Import MockChainlinkAggregator.

Inductive Asset := ETH | BTC | SOL.

#[global] Instance Asset_eq_dec : EqDecision Asset.
Proof. solve_decision. Defined.

Record Contract := mkContract {
  priceFeeds : Asset -> address;
  owner : address
}.

Definition MAX_PRICE_AGE : Z := 24 * 3600.

(** The price feeds of the chain: what [latestRoundData()] of the contract
    at an address answers, and [None] where the call reverts. *)
Definition Feeds : Type := address -> option RoundData.

Definition constructor (sender : address) (_ethUsdFeed _btcUsdFeed _solUsdFeed : address)
    : result Contract :=
  _ ← require (negb (bool_decide (_ethUsdFeed = 0%N))) "InvalidPriceFeed()";
  _ ← require (negb (bool_decide (_btcUsdFeed = 0%N))) "InvalidPriceFeed()";
  Ok (mkContract
        (fun a => match a with
                  | ETH => _ethUsdFeed
                  | BTC => _btcUsdFeed
                  | SOL => _solUsdFeed
                  end)
        sender).

Definition getPrice (feeds : Feeds) (now : Z) (c : Contract) (asset : Asset)
    : result (Z * Z) :=
  let feedAddress := priceFeeds c asset in
  _ ← require (negb (bool_decide (feedAddress = 0%N))) "InvalidPriceFeed()";
  match feeds feedAddress with
  | None => Revert "latestRoundData"
  | Some round =>
      _ ← require (negb (answer round <=? 0)) "InvalidPrice()";
      _ ← require (negb (updatedAt round =? 0)) "InvalidPrice()";
      _ ← require (negb (answeredInRound round <? roundId round)) "StalePrice()";
      age ← checked_sub now (updatedAt round);
      _ ← require (negb (MAX_PRICE_AGE <? age)) "StalePrice()";
      Ok (answer round, updatedAt round)
  end.

Definition isPriceAboveTarget (feeds : Feeds) (now : Z) (c : Contract) (asset : Asset)
    (targetPrice : Z) : result bool :=
  '(currentPrice, _) ← getPrice feeds now c asset;
  Ok (targetPrice <=? currentPrice).

Definition onlyOwner (sender : address) (c : Contract) : result unit :=
  require (bool_decide (sender = owner c)) "NotOwner()".

Definition updatePriceFeed (sender : address) (asset : Asset) (feedAddress : address)
    (c : Contract) : result Contract :=
  _ ← onlyOwner sender c;
  _ ← require (negb (bool_decide (feedAddress = 0%N))) "InvalidPriceFeed()";
  Ok (mkContract (fun a => if decide (a = asset) then feedAddress else priceFeeds c a)
        (owner c)).

Definition transferOwnership (sender newOwner : address) (c : Contract)
    : result Contract :=
  _ ← onlyOwner sender c;
  _ ← require (negb (bool_decide (newOwner = 0%N))) "InvalidPriceFeed()";
  Ok (mkContract (priceFeeds c) newOwner).

Definition getPriceFeed (c : Contract) (asset : Asset) : address := priceFeeds c asset.

Definition isPriceFeedAvailable (c : Contract) (asset : Asset) : bool :=
  negb (bool_decide (priceFeeds c asset = 0%N)).

End ChainlinkPriceOracle.

Module BlindOracle.

Inductive Phase :=
| BlindCommitment
| Aggregating
| AwaitingDecryption
| Settled.

Inductive MarketType :=
| Event
| Price.

#[global] Instance Phase_eq_dec : EqDecision Phase.
Proof. solve_decision. Defined.
#[global] Instance MarketType_eq_dec : EqDecision MarketType.
Proof. solve_decision. Defined.

Definition phase_index (p : Phase) : Z :=
  match p with
  | BlindCommitment => 0
  | Aggregating => 1
  | AwaitingDecryption => 2
  | Settled => 3
  end.

Record Commitment := mkCommitment {
  encryptedPrediction : euint8;
  encryptedAmount : euint64;
  hasCommitted : bool
}.

Definition CHALLENGE_PERIOD : Z := 24 * 3600.

(** Contract storage, the ether balance of the contract, and the storage
    slots that the FHE library keeps inside the calling contract
    ([counterRequest], [requestedHandles]). *)
Record Market : Type := mkMarket {
  currentPhase : Phase;
  marketType : MarketType;
  owner : address;
  eventDescription : string;
  commitmentDeadline : Z;
  eventDeadline : Z;
  priceOracle : address;
  targetAsset : PriceOracle.Asset;
  targetPrice : Z;
  commitments : gmap N Commitment;
  participants : list address;
  encryptedTotalYes : euint64;
  encryptedTotalNo : euint64;
  aggregateDecryptionRequestId : Z;
  isAggregated : bool;
  totalYesAmount : Z;
  totalNoAmount : Z;
  isSettled : bool;
  finalOutcome : bool;
  settlementProposedTime : Z;
  proposedOutcome : bool;
  isSettlementProposed : bool;
  ownerStake : Z;
  hasClaimed : gmap N bool;
  claimRequestIds : gmap N Z;
  balance : Z;
  counterRequest : Z;
  requestedHandles : gmap Z (list handle)
}.

Definition set_currentPhase (s : Market) (v : Phase) : Market :=
  {| currentPhase := v; marketType := marketType s; owner := owner s; eventDescription
     := eventDescription s; commitmentDeadline := commitmentDeadline s; eventDeadline :=
     eventDeadline s; priceOracle := priceOracle s; targetAsset := targetAsset s;
     targetPrice := targetPrice s; commitments := commitments s; participants :=
     participants s; encryptedTotalYes := encryptedTotalYes s; encryptedTotalNo :=
     encryptedTotalNo s; aggregateDecryptionRequestId := aggregateDecryptionRequestId s;
     isAggregated := isAggregated s; totalYesAmount := totalYesAmount s; totalNoAmount
     := totalNoAmount s; isSettled := isSettled s; finalOutcome := finalOutcome s;
     settlementProposedTime := settlementProposedTime s; proposedOutcome :=
     proposedOutcome s; isSettlementProposed := isSettlementProposed s; ownerStake :=
     ownerStake s; hasClaimed := hasClaimed s; claimRequestIds := claimRequestIds s;
     balance := balance s; counterRequest := counterRequest s; requestedHandles :=
     requestedHandles s |}.

Definition set_commitments (s : Market) (v : gmap N Commitment) : Market :=
  {| currentPhase := currentPhase s; marketType := marketType s; owner := owner s;
     eventDescription := eventDescription s; commitmentDeadline := commitmentDeadline s;
     eventDeadline := eventDeadline s; priceOracle := priceOracle s; targetAsset :=
     targetAsset s; targetPrice := targetPrice s; commitments := v; participants :=
     participants s; encryptedTotalYes := encryptedTotalYes s; encryptedTotalNo :=
     encryptedTotalNo s; aggregateDecryptionRequestId := aggregateDecryptionRequestId s;
     isAggregated := isAggregated s; totalYesAmount := totalYesAmount s; totalNoAmount
     := totalNoAmount s; isSettled := isSettled s; finalOutcome := finalOutcome s;
     settlementProposedTime := settlementProposedTime s; proposedOutcome :=
     proposedOutcome s; isSettlementProposed := isSettlementProposed s; ownerStake :=
     ownerStake s; hasClaimed := hasClaimed s; claimRequestIds := claimRequestIds s;
     balance := balance s; counterRequest := counterRequest s; requestedHandles :=
     requestedHandles s |}.

Definition set_participants (s : Market) (v : list address) : Market :=
  {| currentPhase := currentPhase s; marketType := marketType s; owner := owner s;
     eventDescription := eventDescription s; commitmentDeadline := commitmentDeadline s;
     eventDeadline := eventDeadline s; priceOracle := priceOracle s; targetAsset :=
     targetAsset s; targetPrice := targetPrice s; commitments := commitments s;
     participants := v; encryptedTotalYes := encryptedTotalYes s; encryptedTotalNo :=
     encryptedTotalNo s; aggregateDecryptionRequestId := aggregateDecryptionRequestId s;
     isAggregated := isAggregated s; totalYesAmount := totalYesAmount s; totalNoAmount
     := totalNoAmount s; isSettled := isSettled s; finalOutcome := finalOutcome s;
     settlementProposedTime := settlementProposedTime s; proposedOutcome :=
     proposedOutcome s; isSettlementProposed := isSettlementProposed s; ownerStake :=
     ownerStake s; hasClaimed := hasClaimed s; claimRequestIds := claimRequestIds s;
     balance := balance s; counterRequest := counterRequest s; requestedHandles :=
     requestedHandles s |}.

Definition set_encryptedTotalYes (s : Market) (v : euint64) : Market :=
  {| currentPhase := currentPhase s; marketType := marketType s; owner := owner s;
     eventDescription := eventDescription s; commitmentDeadline := commitmentDeadline s;
     eventDeadline := eventDeadline s; priceOracle := priceOracle s; targetAsset :=
     targetAsset s; targetPrice := targetPrice s; commitments := commitments s;
     participants := participants s; encryptedTotalYes := v; encryptedTotalNo :=
     encryptedTotalNo s; aggregateDecryptionRequestId := aggregateDecryptionRequestId s;
     isAggregated := isAggregated s; totalYesAmount := totalYesAmount s; totalNoAmount
     := totalNoAmount s; isSettled := isSettled s; finalOutcome := finalOutcome s;
     settlementProposedTime := settlementProposedTime s; proposedOutcome :=
     proposedOutcome s; isSettlementProposed := isSettlementProposed s; ownerStake :=
     ownerStake s; hasClaimed := hasClaimed s; claimRequestIds := claimRequestIds s;
     balance := balance s; counterRequest := counterRequest s; requestedHandles :=
     requestedHandles s |}.

Definition set_encryptedTotalNo (s : Market) (v : euint64) : Market :=
  {| currentPhase := currentPhase s; marketType := marketType s; owner := owner s;
     eventDescription := eventDescription s; commitmentDeadline := commitmentDeadline s;
     eventDeadline := eventDeadline s; priceOracle := priceOracle s; targetAsset :=
     targetAsset s; targetPrice := targetPrice s; commitments := commitments s;
     participants := participants s; encryptedTotalYes := encryptedTotalYes s;
     encryptedTotalNo := v; aggregateDecryptionRequestId := aggregateDecryptionRequestId
     s; isAggregated := isAggregated s; totalYesAmount := totalYesAmount s;
     totalNoAmount := totalNoAmount s; isSettled := isSettled s; finalOutcome :=
     finalOutcome s; settlementProposedTime := settlementProposedTime s; proposedOutcome
     := proposedOutcome s; isSettlementProposed := isSettlementProposed s; ownerStake :=
     ownerStake s; hasClaimed := hasClaimed s; claimRequestIds := claimRequestIds s;
     balance := balance s; counterRequest := counterRequest s; requestedHandles :=
     requestedHandles s |}.

Definition set_aggregateDecryptionRequestId (s : Market) (v : Z) : Market :=
  {| currentPhase := currentPhase s; marketType := marketType s; owner := owner s;
     eventDescription := eventDescription s; commitmentDeadline := commitmentDeadline s;
     eventDeadline := eventDeadline s; priceOracle := priceOracle s; targetAsset :=
     targetAsset s; targetPrice := targetPrice s; commitments := commitments s;
     participants := participants s; encryptedTotalYes := encryptedTotalYes s;
     encryptedTotalNo := encryptedTotalNo s; aggregateDecryptionRequestId := v;
     isAggregated := isAggregated s; totalYesAmount := totalYesAmount s; totalNoAmount
     := totalNoAmount s; isSettled := isSettled s; finalOutcome := finalOutcome s;
     settlementProposedTime := settlementProposedTime s; proposedOutcome :=
     proposedOutcome s; isSettlementProposed := isSettlementProposed s; ownerStake :=
     ownerStake s; hasClaimed := hasClaimed s; claimRequestIds := claimRequestIds s;
     balance := balance s; counterRequest := counterRequest s; requestedHandles :=
     requestedHandles s |}.

Definition set_isAggregated (s : Market) (v : bool) : Market :=
  {| currentPhase := currentPhase s; marketType := marketType s; owner := owner s;
     eventDescription := eventDescription s; commitmentDeadline := commitmentDeadline s;
     eventDeadline := eventDeadline s; priceOracle := priceOracle s; targetAsset :=
     targetAsset s; targetPrice := targetPrice s; commitments := commitments s;
     participants := participants s; encryptedTotalYes := encryptedTotalYes s;
     encryptedTotalNo := encryptedTotalNo s; aggregateDecryptionRequestId :=
     aggregateDecryptionRequestId s; isAggregated := v; totalYesAmount := totalYesAmount
     s; totalNoAmount := totalNoAmount s; isSettled := isSettled s; finalOutcome :=
     finalOutcome s; settlementProposedTime := settlementProposedTime s; proposedOutcome
     := proposedOutcome s; isSettlementProposed := isSettlementProposed s; ownerStake :=
     ownerStake s; hasClaimed := hasClaimed s; claimRequestIds := claimRequestIds s;
     balance := balance s; counterRequest := counterRequest s; requestedHandles :=
     requestedHandles s |}.

Definition set_totalYesAmount (s : Market) (v : Z) : Market :=
  {| currentPhase := currentPhase s; marketType := marketType s; owner := owner s;
     eventDescription := eventDescription s; commitmentDeadline := commitmentDeadline s;
     eventDeadline := eventDeadline s; priceOracle := priceOracle s; targetAsset :=
     targetAsset s; targetPrice := targetPrice s; commitments := commitments s;
     participants := participants s; encryptedTotalYes := encryptedTotalYes s;
     encryptedTotalNo := encryptedTotalNo s; aggregateDecryptionRequestId :=
     aggregateDecryptionRequestId s; isAggregated := isAggregated s; totalYesAmount :=
     v; totalNoAmount := totalNoAmount s; isSettled := isSettled s; finalOutcome :=
     finalOutcome s; settlementProposedTime := settlementProposedTime s; proposedOutcome
     := proposedOutcome s; isSettlementProposed := isSettlementProposed s; ownerStake :=
     ownerStake s; hasClaimed := hasClaimed s; claimRequestIds := claimRequestIds s;
     balance := balance s; counterRequest := counterRequest s; requestedHandles :=
     requestedHandles s |}.

Definition set_totalNoAmount (s : Market) (v : Z) : Market :=
  {| currentPhase := currentPhase s; marketType := marketType s; owner := owner s;
     eventDescription := eventDescription s; commitmentDeadline := commitmentDeadline s;
     eventDeadline := eventDeadline s; priceOracle := priceOracle s; targetAsset :=
     targetAsset s; targetPrice := targetPrice s; commitments := commitments s;
     participants := participants s; encryptedTotalYes := encryptedTotalYes s;
     encryptedTotalNo := encryptedTotalNo s; aggregateDecryptionRequestId :=
     aggregateDecryptionRequestId s; isAggregated := isAggregated s; totalYesAmount :=
     totalYesAmount s; totalNoAmount := v; isSettled := isSettled s; finalOutcome :=
     finalOutcome s; settlementProposedTime := settlementProposedTime s; proposedOutcome
     := proposedOutcome s; isSettlementProposed := isSettlementProposed s; ownerStake :=
     ownerStake s; hasClaimed := hasClaimed s; claimRequestIds := claimRequestIds s;
     balance := balance s; counterRequest := counterRequest s; requestedHandles :=
     requestedHandles s |}.

Definition set_isSettled (s : Market) (v : bool) : Market :=
  {| currentPhase := currentPhase s; marketType := marketType s; owner := owner s;
     eventDescription := eventDescription s; commitmentDeadline := commitmentDeadline s;
     eventDeadline := eventDeadline s; priceOracle := priceOracle s; targetAsset :=
     targetAsset s; targetPrice := targetPrice s; commitments := commitments s;
     participants := participants s; encryptedTotalYes := encryptedTotalYes s;
     encryptedTotalNo := encryptedTotalNo s; aggregateDecryptionRequestId :=
     aggregateDecryptionRequestId s; isAggregated := isAggregated s; totalYesAmount :=
     totalYesAmount s; totalNoAmount := totalNoAmount s; isSettled := v; finalOutcome :=
     finalOutcome s; settlementProposedTime := settlementProposedTime s; proposedOutcome
     := proposedOutcome s; isSettlementProposed := isSettlementProposed s; ownerStake :=
     ownerStake s; hasClaimed := hasClaimed s; claimRequestIds := claimRequestIds s;
     balance := balance s; counterRequest := counterRequest s; requestedHandles :=
     requestedHandles s |}.

Definition set_finalOutcome (s : Market) (v : bool) : Market :=
  {| currentPhase := currentPhase s; marketType := marketType s; owner := owner s;
     eventDescription := eventDescription s; commitmentDeadline := commitmentDeadline s;
     eventDeadline := eventDeadline s; priceOracle := priceOracle s; targetAsset :=
     targetAsset s; targetPrice := targetPrice s; commitments := commitments s;
     participants := participants s; encryptedTotalYes := encryptedTotalYes s;
     encryptedTotalNo := encryptedTotalNo s; aggregateDecryptionRequestId :=
     aggregateDecryptionRequestId s; isAggregated := isAggregated s; totalYesAmount :=
     totalYesAmount s; totalNoAmount := totalNoAmount s; isSettled := isSettled s;
     finalOutcome := v; settlementProposedTime := settlementProposedTime s;
     proposedOutcome := proposedOutcome s; isSettlementProposed := isSettlementProposed
     s; ownerStake := ownerStake s; hasClaimed := hasClaimed s; claimRequestIds :=
     claimRequestIds s; balance := balance s; counterRequest := counterRequest s;
     requestedHandles := requestedHandles s |}.

Definition set_settlementProposedTime (s : Market) (v : Z) : Market :=
  {| currentPhase := currentPhase s; marketType := marketType s; owner := owner s;
     eventDescription := eventDescription s; commitmentDeadline := commitmentDeadline s;
     eventDeadline := eventDeadline s; priceOracle := priceOracle s; targetAsset :=
     targetAsset s; targetPrice := targetPrice s; commitments := commitments s;
     participants := participants s; encryptedTotalYes := encryptedTotalYes s;
     encryptedTotalNo := encryptedTotalNo s; aggregateDecryptionRequestId :=
     aggregateDecryptionRequestId s; isAggregated := isAggregated s; totalYesAmount :=
     totalYesAmount s; totalNoAmount := totalNoAmount s; isSettled := isSettled s;
     finalOutcome := finalOutcome s; settlementProposedTime := v; proposedOutcome :=
     proposedOutcome s; isSettlementProposed := isSettlementProposed s; ownerStake :=
     ownerStake s; hasClaimed := hasClaimed s; claimRequestIds := claimRequestIds s;
     balance := balance s; counterRequest := counterRequest s; requestedHandles :=
     requestedHandles s |}.

Definition set_proposedOutcome (s : Market) (v : bool) : Market :=
  {| currentPhase := currentPhase s; marketType := marketType s; owner := owner s;
     eventDescription := eventDescription s; commitmentDeadline := commitmentDeadline s;
     eventDeadline := eventDeadline s; priceOracle := priceOracle s; targetAsset :=
     targetAsset s; targetPrice := targetPrice s; commitments := commitments s;
     participants := participants s; encryptedTotalYes := encryptedTotalYes s;
     encryptedTotalNo := encryptedTotalNo s; aggregateDecryptionRequestId :=
     aggregateDecryptionRequestId s; isAggregated := isAggregated s; totalYesAmount :=
     totalYesAmount s; totalNoAmount := totalNoAmount s; isSettled := isSettled s;
     finalOutcome := finalOutcome s; settlementProposedTime := settlementProposedTime s;
     proposedOutcome := v; isSettlementProposed := isSettlementProposed s; ownerStake :=
     ownerStake s; hasClaimed := hasClaimed s; claimRequestIds := claimRequestIds s;
     balance := balance s; counterRequest := counterRequest s; requestedHandles :=
     requestedHandles s |}.

Definition set_isSettlementProposed (s : Market) (v : bool) : Market :=
  {| currentPhase := currentPhase s; marketType := marketType s; owner := owner s;
     eventDescription := eventDescription s; commitmentDeadline := commitmentDeadline s;
     eventDeadline := eventDeadline s; priceOracle := priceOracle s; targetAsset :=
     targetAsset s; targetPrice := targetPrice s; commitments := commitments s;
     participants := participants s; encryptedTotalYes := encryptedTotalYes s;
     encryptedTotalNo := encryptedTotalNo s; aggregateDecryptionRequestId :=
     aggregateDecryptionRequestId s; isAggregated := isAggregated s; totalYesAmount :=
     totalYesAmount s; totalNoAmount := totalNoAmount s; isSettled := isSettled s;
     finalOutcome := finalOutcome s; settlementProposedTime := settlementProposedTime s;
     proposedOutcome := proposedOutcome s; isSettlementProposed := v; ownerStake :=
     ownerStake s; hasClaimed := hasClaimed s; claimRequestIds := claimRequestIds s;
     balance := balance s; counterRequest := counterRequest s; requestedHandles :=
     requestedHandles s |}.

Definition set_ownerStake (s : Market) (v : Z) : Market :=
  {| currentPhase := currentPhase s; marketType := marketType s; owner := owner s;
     eventDescription := eventDescription s; commitmentDeadline := commitmentDeadline s;
     eventDeadline := eventDeadline s; priceOracle := priceOracle s; targetAsset :=
     targetAsset s; targetPrice := targetPrice s; commitments := commitments s;
     participants := participants s; encryptedTotalYes := encryptedTotalYes s;
     encryptedTotalNo := encryptedTotalNo s; aggregateDecryptionRequestId :=
     aggregateDecryptionRequestId s; isAggregated := isAggregated s; totalYesAmount :=
     totalYesAmount s; totalNoAmount := totalNoAmount s; isSettled := isSettled s;
     finalOutcome := finalOutcome s; settlementProposedTime := settlementProposedTime s;
     proposedOutcome := proposedOutcome s; isSettlementProposed := isSettlementProposed
     s; ownerStake := v; hasClaimed := hasClaimed s; claimRequestIds := claimRequestIds
     s; balance := balance s; counterRequest := counterRequest s; requestedHandles :=
     requestedHandles s |}.

Definition set_hasClaimed (s : Market) (v : gmap N bool) : Market :=
  {| currentPhase := currentPhase s; marketType := marketType s; owner := owner s;
     eventDescription := eventDescription s; commitmentDeadline := commitmentDeadline s;
     eventDeadline := eventDeadline s; priceOracle := priceOracle s; targetAsset :=
     targetAsset s; targetPrice := targetPrice s; commitments := commitments s;
     participants := participants s; encryptedTotalYes := encryptedTotalYes s;
     encryptedTotalNo := encryptedTotalNo s; aggregateDecryptionRequestId :=
     aggregateDecryptionRequestId s; isAggregated := isAggregated s; totalYesAmount :=
     totalYesAmount s; totalNoAmount := totalNoAmount s; isSettled := isSettled s;
     finalOutcome := finalOutcome s; settlementProposedTime := settlementProposedTime s;
     proposedOutcome := proposedOutcome s; isSettlementProposed := isSettlementProposed
     s; ownerStake := ownerStake s; hasClaimed := v; claimRequestIds := claimRequestIds
     s; balance := balance s; counterRequest := counterRequest s; requestedHandles :=
     requestedHandles s |}.

Definition set_claimRequestIds (s : Market) (v : gmap N Z) : Market :=
  {| currentPhase := currentPhase s; marketType := marketType s; owner := owner s;
     eventDescription := eventDescription s; commitmentDeadline := commitmentDeadline s;
     eventDeadline := eventDeadline s; priceOracle := priceOracle s; targetAsset :=
     targetAsset s; targetPrice := targetPrice s; commitments := commitments s;
     participants := participants s; encryptedTotalYes := encryptedTotalYes s;
     encryptedTotalNo := encryptedTotalNo s; aggregateDecryptionRequestId :=
     aggregateDecryptionRequestId s; isAggregated := isAggregated s; totalYesAmount :=
     totalYesAmount s; totalNoAmount := totalNoAmount s; isSettled := isSettled s;
     finalOutcome := finalOutcome s; settlementProposedTime := settlementProposedTime s;
     proposedOutcome := proposedOutcome s; isSettlementProposed := isSettlementProposed
     s; ownerStake := ownerStake s; hasClaimed := hasClaimed s; claimRequestIds := v;
     balance := balance s; counterRequest := counterRequest s; requestedHandles :=
     requestedHandles s |}.

Definition set_balance (s : Market) (v : Z) : Market :=
  {| currentPhase := currentPhase s; marketType := marketType s; owner := owner s;
     eventDescription := eventDescription s; commitmentDeadline := commitmentDeadline s;
     eventDeadline := eventDeadline s; priceOracle := priceOracle s; targetAsset :=
     targetAsset s; targetPrice := targetPrice s; commitments := commitments s;
     participants := participants s; encryptedTotalYes := encryptedTotalYes s;
     encryptedTotalNo := encryptedTotalNo s; aggregateDecryptionRequestId :=
     aggregateDecryptionRequestId s; isAggregated := isAggregated s; totalYesAmount :=
     totalYesAmount s; totalNoAmount := totalNoAmount s; isSettled := isSettled s;
     finalOutcome := finalOutcome s; settlementProposedTime := settlementProposedTime s;
     proposedOutcome := proposedOutcome s; isSettlementProposed := isSettlementProposed
     s; ownerStake := ownerStake s; hasClaimed := hasClaimed s; claimRequestIds :=
     claimRequestIds s; balance := v; counterRequest := counterRequest s;
     requestedHandles := requestedHandles s |}.

Definition set_counterRequest (s : Market) (v : Z) : Market :=
  {| currentPhase := currentPhase s; marketType := marketType s; owner := owner s;
     eventDescription := eventDescription s; commitmentDeadline := commitmentDeadline s;
     eventDeadline := eventDeadline s; priceOracle := priceOracle s; targetAsset :=
     targetAsset s; targetPrice := targetPrice s; commitments := commitments s;
     participants := participants s; encryptedTotalYes := encryptedTotalYes s;
     encryptedTotalNo := encryptedTotalNo s; aggregateDecryptionRequestId :=
     aggregateDecryptionRequestId s; isAggregated := isAggregated s; totalYesAmount :=
     totalYesAmount s; totalNoAmount := totalNoAmount s; isSettled := isSettled s;
     finalOutcome := finalOutcome s; settlementProposedTime := settlementProposedTime s;
     proposedOutcome := proposedOutcome s; isSettlementProposed := isSettlementProposed
     s; ownerStake := ownerStake s; hasClaimed := hasClaimed s; claimRequestIds :=
     claimRequestIds s; balance := balance s; counterRequest := v; requestedHandles :=
     requestedHandles s |}.

Definition set_requestedHandles (s : Market) (v : gmap Z (list handle)) : Market :=
  {| currentPhase := currentPhase s; marketType := marketType s; owner := owner s;
     eventDescription := eventDescription s; commitmentDeadline := commitmentDeadline s;
     eventDeadline := eventDeadline s; priceOracle := priceOracle s; targetAsset :=
     targetAsset s; targetPrice := targetPrice s; commitments := commitments s;
     participants := participants s; encryptedTotalYes := encryptedTotalYes s;
     encryptedTotalNo := encryptedTotalNo s; aggregateDecryptionRequestId :=
     aggregateDecryptionRequestId s; isAggregated := isAggregated s; totalYesAmount :=
     totalYesAmount s; totalNoAmount := totalNoAmount s; isSettled := isSettled s;
     finalOutcome := finalOutcome s; settlementProposedTime := settlementProposedTime s;
     proposedOutcome := proposedOutcome s; isSettlementProposed := isSettlementProposed
     s; ownerStake := ownerStake s; hasClaimed := hasClaimed s; claimRequestIds :=
     claimRequestIds s; balance := balance s; counterRequest := counterRequest s;
     requestedHandles := v |}.

(** Reads of the storage mappings, with the Solidity default for a key
    that was never written. *)
Definition commitmentOf (s : Market) (a : address) : Commitment :=
  default (mkCommitment (Euint8 0) (Euint64 0) false) (commitments s !! a).

Definition hasClaimedOf (s : Market) (a : address) : bool :=
  default false (hasClaimed s !! a).

Definition claimRequestIdOf (s : Market) (a : address) : Z :=
  default 0 (claimRequestIds s !! a).

Definition requestedHandlesOf (s : Market) (requestID : Z) : list handle :=
  default [] (requestedHandles s !! requestID).

(** A transfer of ether made by a call: recipient and amount. *)
Definition Transfer : Type := address * Z.

Section Contract.

Context (cp : Coprocessor).

(** *** Function kinds and modifiers *)

(** A [payable] function starts with the attached value already credited.
    A call that carries value to any other function is rejected before the
    body of the function runs (see [dispatch]). *)
Definition payable (e : Env) (s : Market) : Market :=
  set_balance s (balance s + msg_value e).

Definition onlyOwner (e : Env) (s : Market) : result unit :=
  require (bool_decide (msg_sender e = owner s)) "Only owner can call this".

Definition onlyInPhase (p : Phase) (s : Market) : result unit :=
  require (bool_decide (currentPhase s = p)) "Invalid phase for this operation".

(** *** The decryption-request part of the FHE library

    [FHE.requestDecryption] numbers the requests of the calling contract
    from a counter kept in the storage of that contract, starting at zero,
    and records the handles of each request; [FHE.checkSignatures] looks the
    handles of the request up again and has the signatures on the
    cleartexts verified against them. *)

Definition requestDecryption (cts : list handle) (s : Market) : result (Z * Market) :=
  let requestID := counterRequest s in
  _ ← require (bool_decide (requestedHandlesOf s requestID = []))
        "HandlesAlreadySavedForRequestID()";
  next ← checked_add requestID 1;
  Ok (requestID,
      set_counterRequest
        (set_requestedHandles s (<[requestID := cts]> (requestedHandles s))) next).

Definition checkSignatures (requestID : Z) (cleartexts : list Z)
    (decryptionProof : bytes) (s : Market) : result unit :=
  let handlesList := requestedHandlesOf s requestID in
  _ ← require (negb (bool_decide (handlesList = []))) "NoHandleFoundForRequestID()";
  require (verifySignatures cp handlesList cleartexts decryptionProof)
    "InvalidKMSSignatures()".

(** *** Constructor *)

(** The storage right after deployment: the fields set by the constructor,
    every other slot at its zero value. *)
Definition deployed (sender : address) (_marketType : MarketType)
    (_eventDescription : string) (_commitmentDeadline _eventDeadline : Z)
    (_priceOracle : address) (_targetAsset : PriceOracle.Asset)
    (_targetPrice : Z) : Market :=
  {| currentPhase := BlindCommitment;
     marketType := _marketType;
     owner := sender;
     eventDescription := _eventDescription;
     commitmentDeadline := _commitmentDeadline;
     eventDeadline := _eventDeadline;
     priceOracle := _priceOracle;
     targetAsset := _targetAsset;
     targetPrice := _targetPrice;
     commitments := ∅;
     participants := [];
     encryptedTotalYes := Euint64 0;
     encryptedTotalNo := Euint64 0;
     aggregateDecryptionRequestId := 0;
     isAggregated := false;
     totalYesAmount := 0;
     totalNoAmount := 0;
     isSettled := false;
     finalOutcome := false;
     settlementProposedTime := 0;
     proposedOutcome := false;
     isSettlementProposed := false;
     ownerStake := 0;
     hasClaimed := ∅;
     claimRequestIds := ∅;
     balance := 0;
     counterRequest := 0;
     requestedHandles := ∅ |}.

Definition constructor (e : Env) (_marketType : MarketType)
    (_eventDescription : string) (_commitmentDuration _eventDuration : Z)
    (_priceOracle : address) (_targetAsset : PriceOracle.Asset)
    (_targetPrice : Z) : result Market :=
  _ ← require (msg_value e =? 0) "non-payable";
  cd ← checked_add (block_timestamp e) _commitmentDuration;
  ed ← checked_add cd _eventDuration;
  _ ← (if bool_decide (_marketType = Price) then
         _ ← require (negb (bool_decide (_priceOracle = 0%N))) "Invalid oracle address";
         require (0 <? _targetPrice) "Invalid target price"
       else Ok tt);
  Ok (deployed (msg_sender e) _marketType _eventDescription cd ed
        (if bool_decide (_marketType = Price) then _priceOracle else 0%N)
        (if bool_decide (_marketType = Price) then _targetAsset else PriceOracle.ETH)
        (if bool_decide (_marketType = Price) then _targetPrice else 0)).

(** *** Phase 1: blind commitment *)

Definition commitPrediction (e : Env) (encPrediction : externalEuint8)
    (encAmount : externalEuint64) (predictionProof amountProof : bytes)
    (s0 : Market) : result Market :=
  let s := payable e s0 in
  _ ← onlyInPhase BlindCommitment s;
  _ ← require (block_timestamp e <? commitmentDeadline s) "Commitment period has ended";
  _ ← require (negb (hasCommitted (commitmentOf s (msg_sender e)))) "Already committed";
  _ ← require (0 <? msg_value e) "Must send ETH with commitment";
  _ ← (if bool_decide (marketType s = Event) then
         require (negb (bool_decide (msg_sender e = owner s)))
           "Owner cannot participate in event markets"
       else Ok tt);
  prediction ← FHE.fromExternal8 cp (msg_sender e) encPrediction predictionProof;
  amount ← FHE.fromExternal64 cp (msg_sender e) encAmount amountProof;
  let s := set_commitments s
             (<[msg_sender e := mkCommitment prediction amount true]> (commitments s)) in
  Ok (set_participants s (participants s ++ [msg_sender e])).

Definition getMyCommitment (e : Env) (s : Market) : result (euint8 * euint64) :=
  _ ← require (hasCommitted (commitmentOf s (msg_sender e))) "No commitment found";
  let commitment := commitmentOf s (msg_sender e) in
  Ok (encryptedPrediction commitment, encryptedAmount commitment).

(** *** Phase 2: aggregation and decryption of the totals *)

(** One iteration of the loop of [aggregateBets]; the accumulator is the
    pair [(encryptedTotalYes, encryptedTotalNo)]. *)
Definition aggregateOne (s : Market) (totals : euint64 * euint64)
    (participant : address) : euint64 * euint64 :=
  let commitment := commitmentOf s participant in
  let prediction := encryptedPrediction commitment in
  let amount := encryptedAmount commitment in
  let isYes := prediction in
  let isNo := FHE.sub8 (FHE.asEuint8 1) prediction in
  let isYes64 := FHE.castEuint64 isYes in
  let isNo64 := FHE.castEuint64 isNo in
  let yesContribution := FHE.mul64 amount isYes64 in
  let noContribution := FHE.mul64 amount isNo64 in
  (FHE.add64 (fst totals) yesContribution, FHE.add64 (snd totals) noContribution).

Definition aggregateBets (e : Env) (s : Market) : result Market :=
  _ ← onlyInPhase BlindCommitment s;
  _ ← require (commitmentDeadline s <=? block_timestamp e) "Commitment period not ended";
  _ ← require (0 <? Z.of_nat (length (participants s))) "No participants";
  let totals := fold_left (aggregateOne s) (participants s)
                  (FHE.asEuint64 0, FHE.asEuint64 0) in
  let s := set_encryptedTotalYes s (fst totals) in
  let s := set_encryptedTotalNo s (snd totals) in
  let s := set_isAggregated s true in
  Ok (set_currentPhase s Aggregating).

Definition requestAggregateDecryption (e : Env) (s : Market) : result Market :=
  _ ← onlyInPhase Aggregating s;
  _ ← require (isAggregated s) "Bets not aggregated yet";
  let cts := [Handle64 (encryptedTotalYes s); Handle64 (encryptedTotalNo s)] in
  '(requestId, s) ← requestDecryption cts s;
  let s := set_aggregateDecryptionRequestId s requestId in
  Ok (set_currentPhase s AwaitingDecryption).

Definition callbackAggregateDecryption (e : Env) (requestId : Z)
    (cleartexts : list Z) (decryptionProof : bytes) (s : Market) : result Market :=
  _ ← require (requestId =? aggregateDecryptionRequestId s) "Invalid request ID";
  _ ← require (bool_decide (currentPhase s = AwaitingDecryption)) "Invalid phase";
  _ ← checkSignatures requestId cleartexts decryptionProof s;
  '(yesAmount, noAmount) ← abi_decode2 64 64 cleartexts;
  let s := set_totalYesAmount s yesAmount in
  let s := set_totalNoAmount s noAmount in
  Ok (set_currentPhase s Settled).

(** *** Phase 3: settlement *)

Definition depositOwnerStake (e : Env) (s0 : Market) : result Market :=
  let s := payable e s0 in
  _ ← onlyOwner e s;
  _ ← onlyInPhase Settled s;
  _ ← require (bool_decide (marketType s = Event)) "Only for event markets";
  _ ← require (negb (isSettlementProposed s)) "Settlement already proposed";
  _ ← require (ownerStake s =? 0) "Stake already deposited";
  totalPool ← checked_add (totalYesAmount s) (totalNoAmount s);
  let requiredStake := totalPool / 10 in
  _ ← require (requiredStake <=? msg_value e) "Insufficient stake";
  Ok (set_ownerStake s (msg_value e)).

Definition proposeSettlement (e : Env) (outcome : bool) (s : Market) : result Market :=
  _ ← onlyOwner e s;
  _ ← onlyInPhase Settled s;
  _ ← require (bool_decide (marketType s = Event)) "Only for event markets";
  _ ← require (negb (isSettled s)) "Already settled";
  _ ← require (negb (isSettlementProposed s)) "Settlement already proposed";
  _ ← require (eventDeadline s <=? block_timestamp e) "Event not ended yet";
  _ ← require (0 <? ownerStake s) "Must deposit stake first";
  let s := set_proposedOutcome s outcome in
  let s := set_isSettlementProposed s true in
  Ok (set_settlementProposedTime s (block_timestamp e)).

Definition finalizeSettlement (e : Env) (s : Market) : result (Market * Transfer) :=
  _ ← onlyInPhase Settled s;
  _ ← require (bool_decide (marketType s = Event)) "Only for event markets";
  _ ← require (isSettlementProposed s) "Settlement not proposed";
  _ ← require (negb (isSettled s)) "Already settled";
  challengeEnd ← checked_add (settlementProposedTime s) CHALLENGE_PERIOD;
  _ ← require (challengeEnd <=? block_timestamp e) "Challenge period not ended";
  let s := set_finalOutcome s (proposedOutcome s) in
  let s := set_isSettled s true in
  let stakeToReturn := ownerStake s in
  let s := set_ownerStake s 0 in
  let success := (stakeToReturn <=? balance s) && accepts_ether e (owner s) in
  _ ← require success "Stake return failed";
  Ok (set_balance s (balance s - stakeToReturn), (owner s, stakeToReturn)).

Definition challengeSettlement (e : Env) (s : Market) : result Market :=
  _ ← onlyInPhase Settled s;
  _ ← require (isSettlementProposed s) "No settlement to challenge";
  _ ← require (negb (isSettled s)) "Already settled";
  challengeEnd ← checked_add (settlementProposedTime s) CHALLENGE_PERIOD;
  _ ← require (block_timestamp e <? challengeEnd) "Challenge period ended";
  _ ← require (hasCommitted (commitmentOf s (msg_sender e))) "Must be a participant";
  Ok s.

Definition settlePriceMarket (e : Env) (s : Market) : result Market :=
  _ ← require (bool_decide (marketType s = Price)) "Only for price markets";
  _ ← require (negb (isSettled s)) "Already settled";
  _ ← require (eventDeadline s <=? block_timestamp e) "Event not ended yet";
  _ ← require (negb (bool_decide (priceOracle s = 0%N))) "Oracle not set";
  _ ← require (bool_decide (currentPhase s = Settled))
        "Must complete aggregation and decryption first";
  _ ← require ((0 <? totalYesAmount s) || (0 <? totalNoAmount s)) "No bets to settle";
  '(currentPrice, _) ← PriceOracle.getPrice (oracle e) (block_timestamp e) (targetAsset s);
  let s := set_finalOutcome s (targetPrice s <=? currentPrice) in
  Ok (set_isSettled s true).

(** *** Claims *)

Definition claimRewards (e : Env) (s : Market) : result Market :=
  _ ← onlyInPhase Settled s;
  _ ← require (isSettled s) "Market not settled yet";
  _ ← require (negb (hasClaimedOf s (msg_sender e))) "Already claimed rewards";
  _ ← require (hasCommitted (commitmentOf s (msg_sender e))) "Did not participate";
  let cts := [Handle8 (encryptedPrediction (commitmentOf s (msg_sender e)));
              Handle64 (encryptedAmount (commitmentOf s (msg_sender e)))] in
  '(requestId, s) ← requestDecryption cts s;
  Ok (set_claimRequestIds s (<[msg_sender e := requestId]> (claimRequestIds s))).

(** The search loop of [callbackClaimRewards]: the first participant whose
    stored request id is [requestId], and [address(0)] when there is none. *)
Definition findUser (s : Market) (requestId : Z) : address :=
  match List.find (fun p => claimRequestIdOf s p =? requestId) (participants s) with
  | Some user => user
  | None => 0%N
  end.

Definition callbackClaimRewards (e : Env) (requestId : Z) (cleartexts : list Z)
    (decryptionProof : bytes) (s : Market) : result (Market * Transfer) :=
  _ ← require (bool_decide (currentPhase s = Settled)) "Invalid phase";
  _ ← require (isSettled s) "Market not settled";
  _ ← checkSignatures requestId cleartexts decryptionProof s;
  let user := findUser s requestId in
  _ ← require (negb (bool_decide (user = 0%N))) "User not found for request";
  _ ← require (negb (hasClaimedOf s user)) "Already claimed";
  '(prediction, amount) ← abi_decode2 8 64 cleartexts;
  let won := ((prediction =? 1) && finalOutcome s)
             || ((prediction =? 0) && negb (finalOutcome s)) in
  _ ← require won "You lost";
  let s := set_hasClaimed s (<[user := true]> (hasClaimed s)) in
  let userAmount := amount in
  let totalWinningAmount := if finalOutcome s then totalYesAmount s else totalNoAmount s in
  let totalPool := balance s in
  product ← checked_mul userAmount totalPool;
  payout ← checked_div product totalWinningAmount;
  let success := (payout <=? balance s) && accepts_ether e user in
  _ ← require success "ETH transfer failed";
  Ok (set_balance s (balance s - payout), (user, payout)).

(** ** Transactions *)

Inductive Call :=
| CommitPrediction (encPrediction : externalEuint8) (encAmount : externalEuint64)
    (predictionProof amountProof : bytes)
| AggregateBets
| RequestAggregateDecryption
| CallbackAggregateDecryption (requestId : Z) (cleartexts : list Z) (decryptionProof : bytes)
| DepositOwnerStake
| ProposeSettlement (outcome : bool)
| FinalizeSettlement
| ChallengeSettlement
| SettlePriceMarket
| ClaimRewards
| CallbackClaimRewards (requestId : Z) (cleartexts : list Z) (decryptionProof : bytes).

Definition no_transfer (r : result Market) : result (Market * list Transfer) :=
  s ← r; Ok (s, []).

Definition one_transfer (r : result (Market * Transfer)) : result (Market * list Transfer) :=
  '(s, t) ← r; Ok (s, [t]).

Definition is_payable (c : Call) : bool :=
  match c with
  | CommitPrediction _ _ _ _ | DepositOwnerStake => true
  | _ => false
  end.

Definition dispatch (e : Env) (c : Call) (s : Market) : result (Market * list Transfer) :=
  _ ← require (is_payable c || (msg_value e =? 0)) "non-payable";
  match c with
  | CommitPrediction p a pp ap => no_transfer (commitPrediction e p a pp ap s)
  | AggregateBets => no_transfer (aggregateBets e s)
  | RequestAggregateDecryption => no_transfer (requestAggregateDecryption e s)
  | CallbackAggregateDecryption r c p => no_transfer (callbackAggregateDecryption e r c p s)
  | DepositOwnerStake => no_transfer (depositOwnerStake e s)
  | ProposeSettlement o => no_transfer (proposeSettlement e o s)
  | FinalizeSettlement => one_transfer (finalizeSettlement e s)
  | ChallengeSettlement => no_transfer (challengeSettlement e s)
  | SettlePriceMarket => no_transfer (settlePriceMarket e s)
  | ClaimRewards => no_transfer (claimRewards e s)
  | CallbackClaimRewards r c p => one_transfer (callbackClaimRewards e r c p s)
  end.

(** The state after a transaction: a reverted call leaves the state as it was. *)
Definition exec (e : Env) (c : Call) (s : Market) : Market :=
  match dispatch e c s with
  | Ok (s', _) => s'
  | Revert _ => s
  end.

(** Transaction fields are [uint256] values. *)
Definition wf_env (e : Env) : Prop :=
  0 <= msg_value e <= UINT256_MAX /\ 0 <= block_timestamp e <= UINT256_MAX.

Inductive step (s : Market) : Market -> Prop :=
| step_call e c s' out :
    wf_env e -> dispatch e c s = Ok (s', out) -> step s s'.

Inductive reachable : Market -> Prop :=
| reachable_init e mt descr cdur edur po ta tp s :
    wf_env e -> constructor e mt descr cdur edur po ta tp = Ok s -> reachable s
| reachable_step s s' :
    reachable s -> step s s' -> reachable s'.

End Contract.

(** *** View functions *)

Definition getParticipantCount (s : Market) : Z :=
  Z.of_nat (length (participants s)).

Definition getUserCommitment (s : Market) (user : address) : euint8 * euint64 * bool :=
  let commitment := commitmentOf s user in
  (encryptedPrediction commitment, encryptedAmount commitment, hasCommitted commitment).

Definition getParticipant (s : Market) (index : Z) : result address :=
  _ ← require (index <? Z.of_nat (length (participants s))) "Index out of bounds";
  match participants s !! Z.to_nat index with
  | Some participant => Ok participant
  | None => Revert "Panic(0x32)"
  end.

Definition getBalance (s : Market) : Z := balance s.

Definition hasUserCommitted (s : Market) (user : address) : bool :=
  hasCommitted (commitmentOf s user).

(** [getSettlementInfo]; the result is
    [(isSettlementProposed, proposedOutcome, settlementProposedTime,
      challengeDeadline, ownerStake, canFinalize)]. *)
Definition getSettlementInfo (e : Env) (s : Market)
    : result (bool * bool * Z * Z * Z * bool) :=
  challengeDeadline ←
    (if isSettlementProposed s
     then checked_add (settlementProposedTime s) CHALLENGE_PERIOD
     else Ok 0);
  let canFinalize :=
    isSettlementProposed s && negb (isSettled s)
    && (challengeDeadline <=? block_timestamp e) in
  Ok (isSettlementProposed s, proposedOutcome s, settlementProposedTime s,
      challengeDeadline, ownerStake s, canFinalize).

(** *** The factory of markets *)

Module MarketFactory.

Record MarketInfo := mkMarketInfo {
  marketAddress : address;
  creator : address;
  description : string;
  commitmentDeadline : Z;
  eventDeadline : Z;
  createdAt : Z;
  isActive : bool;
  marketType : MarketType
}.

Record Factory := mkFactory {
  markets : list address;
  creatorMarkets : gmap N (list address);
  marketInfo : gmap N MarketInfo
}.

Definition empty : Factory := mkFactory [] ∅ ∅.

Definition creatorMarketsOf (f : Factory) (creator : address) : list address :=
  default [] (creatorMarkets f !! creator).

Definition marketInfoOf (f : Factory) (market : address) : MarketInfo :=
  default (mkMarketInfo 0%N 0%N "" 0 0 0 false Event) (marketInfo f !! market).

(** [createMarket], called on the factory deployed at [self]; [newMarket]
    is the address at which the chain deploys the market.  The constructor
    of the market runs with the factory as its [msg.sender]. *)
Definition createMarket (self newMarket : address) (e : Env) (_marketType : MarketType)
    (_description : string) (_commitmentDuration _eventDuration : Z)
    (_priceOracle : address) (_targetAsset : PriceOracle.Asset) (_targetPrice : Z)
    (f : Factory) : result (Factory * Market * address) :=
  _ ← require (0 <? Z.of_nat (String.length _description)) "Description cannot be empty";
  _ ← require (0 <? _commitmentDuration) "Commitment duration must be positive";
  _ ← require (0 <? _eventDuration) "Event duration must be positive";
  _ ← (if bool_decide (_marketType = Price) then
         _ ← require (negb (bool_decide (_priceOracle = 0%N)))
               "Price oracle required for price markets";
         require (0 <? _targetPrice) "Target price must be positive"
       else Ok tt);
  market ← constructor
             (mkEnv self 0 (block_timestamp e) (oracle e) (accepts_ether e))
             _marketType _description _commitmentDuration _eventDuration
             _priceOracle _targetAsset _targetPrice;
  let marketAddress := newMarket in
  recordedCommitment ← checked_add (block_timestamp e) _commitmentDuration;
  recordedEvent ← checked_add (block_timestamp e) _eventDuration;
  let info := mkMarketInfo marketAddress (msg_sender e) _description
                recordedCommitment recordedEvent (block_timestamp e) true _marketType in
  Ok (mkFactory (markets f ++ [marketAddress])
        (<[msg_sender e := creatorMarketsOf f (msg_sender e) ++ [marketAddress]]>
           (creatorMarkets f))
        (<[marketAddress := info]> (marketInfo f)),
      market, marketAddress).

Definition getMarketCount (f : Factory) : Z := Z.of_nat (length (markets f)).

Definition getMarket (f : Factory) (index : Z) : result address :=
  _ ← require (index <? Z.of_nat (length (markets f))) "Index out of bounds";
  match markets f !! Z.to_nat index with
  | Some market => Ok market
  | None => Revert "Panic(0x32)"
  end.



Definition getUserMarkets (f : Factory) (creator : address) : list address :=
  creatorMarketsOf f creator.

Definition getUserMarketCount (f : Factory) (creator : address) : Z :=
  Z.of_nat (length (creatorMarketsOf f creator)).

(** [(creator, description, commitmentDeadline, eventDeadline, createdAt,
      isActive)] of a market of the factory. *)
Definition getMarketInfo (f : Factory) (market : address)
    : result (address * string * Z * Z * Z * bool) :=
  let info := marketInfoOf f market in
  _ ← require (negb (bool_decide (marketAddress info = 0%N))) "Market not found";
  Ok (creator info, description info, commitmentDeadline info, eventDeadline info,
      createdAt info, isActive info).

Definition getMultipleMarketInfos (f : Factory) (marketAddresses : list address)
    : list MarketInfo :=
  map (marketInfoOf f) marketAddresses.

Definition isValidMarket (f : Factory) (market : address) : bool :=
  negb (bool_decide (marketAddress (marketInfoOf f market) = 0%N)).

End MarketFactory.

(** ** Vocabulary of the properties *)

Definition next_phase (p : Phase) : option Phase :=
  match p with
  | BlindCommitment => Some Aggregating
  | Aggregating => Some AwaitingDecryption
  | AwaitingDecryption => Some Settled
  | Settled => None
  end.

(** Any number of transactions, one after the other. *)
Definition steps (cp : Coprocessor) : Market -> Market -> Prop := rtc (step cp).

Definition run (cp : Coprocessor) (txs : list (Env * Call)) (s : Market) : Market :=
  fold_left (fun s tx => exec cp tx.1 tx.2 s) txs s.

Fixpoint sumZ (l : list Z) : Z :=
  match l with
  | [] => 0
  | x :: l => x + sumZ l
  end.

Definition amountOf (c : Commitment) : Z := plain64 (encryptedAmount c).
Definition predictionOf (c : Commitment) : Z := plain8 (encryptedPrediction c).

(** The commitments held in storage, in the order of the map. *)
Definition storedCommitments (s : Market) : list Commitment :=
  (map_to_list (commitments s)).*2.

(** Sum of the plaintext amounts inside all stored commitments. *)
Definition committedAmounts (s : Market) : Z :=
  sumZ (amountOf <$> storedCommitments s).

(** Sum of the plaintext amounts of the stored commitments that predict [side]. *)
Definition sideAmounts (side : Z) (s : Market) : Z :=
  sumZ ((fun c => if predictionOf c =? side then amountOf c else 0)
          <$> storedCommitments s).

(** The contribution of one commitment to each side, as the loop of
    [aggregateBets] computes it, before reduction modulo [2 ^ 64]. *)
Definition yesShare (c : Commitment) : Z := amountOf c * predictionOf c.
Definition noShare (c : Commitment) : Z :=
  amountOf c * ((1 mod 2 ^ 8 - predictionOf c) mod 2 ^ 8).

(** Every stored prediction is 0 or 1. *)
Definition binaryPredictions (s : Market) : Prop :=
  Forall (fun c => predictionOf c = 0 \/ predictionOf c = 1) (storedCommitments s).

(** The decrypted prediction wins against the final outcome. *)
Definition won (prediction : Z) (outcome : bool) : bool :=
  ((prediction =? 1) && outcome) || ((prediction =? 0) && negb outcome).

(** Claim requests made one after the other, each on the storage left by
    the one before. *)
Fixpoint claimMany (es : list Env) (s : Market) : result Market :=
  match es with
  | [] => Ok s
  | e :: es => s1 ← claimRewards e s; claimMany es s1
  end.

(** The total of the winning side. *)
Definition totalWinningAmount (s : Market) : Z :=
  if finalOutcome s then totalYesAmount s else totalNoAmount s.

(** ** Invariants of the storage *)

(** What holds of the storage in every reachable state. *)
Record wf_state (s : Market) : Prop := mk_wf_state {
  wf_participants :
    participants s ≡ₚ (map_to_list (commitments s)).*1;
  wf_commitments : forall a c,
    commitments s !! a = Some c ->
    hasCommitted c = true /\ 0 <= amountOf c < 2 ^ 64 /\ 0 <= predictionOf c < 2 ^ 8;
  wf_aggregated :
    currentPhase s <> BlindCommitment ->
    isAggregated s = true /\
    (encryptedTotalYes s, encryptedTotalNo s) =
      fold_left (aggregateOne s) (participants s) (FHE.asEuint64 0, FHE.asEuint64 0);
  wf_requested :
    2 <= phase_index (currentPhase s) ->
    0 <= aggregateDecryptionRequestId s < counterRequest s /\
    requestedHandlesOf s (aggregateDecryptionRequestId s) =
      [Handle64 (encryptedTotalYes s); Handle64 (encryptedTotalNo s)];
  wf_counter : 0 <= counterRequest s;
  wf_handles_fresh : forall r,
    counterRequest s <= r -> requestedHandles s !! r = None;
  wf_handles_saved : forall r,
    0 <= r < counterRequest s -> requestedHandlesOf s r <> [];
  wf_claim_ids : forall a,
    claimRequestIdOf s a = 0 \/ 0 < claimRequestIdOf s a < counterRequest s;
  wf_totals :
    0 <= totalYesAmount s < 2 ^ 64 /\ 0 <= totalNoAmount s < 2 ^ 64
}.

(** Once the totals are revealed they are the plaintexts of the two
    encrypted accumulators. *)
Definition totals_revealed (s : Market) : Prop :=
  currentPhase s = Settled ->
  totalYesAmount s = plain64 (encryptedTotalYes s) /\
  totalNoAmount s = plain64 (encryptedTotalNo s).

(** A request id that was issued and that no participant holds any more. *)
Definition retired (s : Market) (requestId : Z) : Prop :=
  0 < requestId < counterRequest s /\
  forall a, claimRequestIdOf s a <> requestId.

(** ** A worked market

    Three bets (10 on YES, 20 on NO, 15 on YES) placed through a
    coprocessor that accepts every input and signs genuine decryptions
    only; used to evaluate the contract on concrete transactions. *)

Definition honest : Coprocessor :=
  mkCoprocessor (fun _ _ _ _ => true)
    (fun handles cleartexts _ => bool_decide (cleartexts = map decrypt handles)).

Definition quote (price time : Z) : PriceOracle.Storage :=
  fun _ => PriceOracle.mkPriceData price time 1%N.

Definition tx (sender : address) (value now : Z) : Env :=
  mkEnv sender value now (quote 5200 190) (fun _ => true).

Definition demo_market (kind : MarketType) : Market :=
  deployed 1%N kind "demo" 100 200
    (if bool_decide (kind = Price) then 7%N else 0%N) PriceOracle.ETH
    (if bool_decide (kind = Price) then 5000 else 0).

Definition bet (prediction amount : Z) : Call :=
  CommitPrediction (ExternalEuint8 prediction) (ExternalEuint64 amount) [] [].

Definition bets : list (Env * Call) :=
  [ (tx 2%N 10 10, bet 1 10); (tx 3%N 20 20, bet 0 20); (tx 4%N 15 30, bet 1 15) ].

Definition reveal (yes no : Z) : list (Env * Call) :=
  [ (tx 9%N 0 100, AggregateBets);
    (tx 9%N 0 100, RequestAggregateDecryption);
    (tx 9%N 0 110, CallbackAggregateDecryption 0 [yes; no] []) ].

Definition settle : list (Env * Call) :=
  [ (tx 1%N 5 150, DepositOwnerStake);
    (tx 1%N 0 200, ProposeSettlement true);
    (tx 9%N 0 86600, FinalizeSettlement) ].

Definition committed_market (kind : MarketType) : Market :=
  run honest bets (demo_market kind).

(** Aggregated, decryption requested, callback not yet delivered. *)
Definition awaiting_market : Market :=
  run honest [ (tx 9%N 0 100, AggregateBets); (tx 9%N 0 100, RequestAggregateDecryption) ]
    (committed_market Event).

Definition revealed_market (kind : MarketType) : Market :=
  run honest (reveal 25 20) (committed_market kind).

Definition settled_market : Market :=
  run honest settle (revealed_market Event).

(** The first participant asks for its reward twice. *)
Definition claiming_market : Market :=
  run honest [ (tx 2%N 0 86700, ClaimRewards); (tx 2%N 0 86700, ClaimRewards) ]
    settled_market.


(** Two bets of [2 ^ 63] on YES, aggregated and revealed. *)
Definition large_bets : list (Env * Call) :=
  [ (tx 2%N 1 10, bet 1 (2 ^ 63)); (tx 3%N 1 20, bet 1 (2 ^ 63)) ].

Definition overflowed_market : Market :=
  run honest (reveal 0 0) (run honest large_bets (demo_market Event)).

(** ** The statements of the specification that the contract does not meet *)

(** Conservation, as the specification words it: once the totals are
    revealed they add up to the sum of all committed amounts. *)
Definition conservation_as_stated : Prop :=
  forall cp s,
    kms_sound cp -> reachable cp s -> currentPhase s = Settled ->
    binaryPredictions s ->
    totalYesAmount s + totalNoAmount s = committedAmounts s.

(** A second commit fails with "Already committed" whatever the time of
    the call. *)
Definition second_commit_as_stated : Prop :=
  forall cp e p a pp ap s,
    reachable cp s ->
    hasCommitted (commitmentOf s (msg_sender e)) = true ->
    commitPrediction cp e p a pp ap s = Revert "Already committed".

(** After a successful callback, presenting the same request id again
    fails the request-id check. *)
Definition replay_fails_id_check_as_stated : Prop :=
  forall cp e requestId cleartexts proof s s' e' cleartexts' proof',
    reachable cp s ->
    callbackAggregateDecryption cp e requestId cleartexts proof s = Ok s' ->
    callbackAggregateDecryption cp e' requestId cleartexts' proof' s' =
      Revert "Invalid request ID".

(** The stake is accepted exactly when it is at least one tenth of the
    pool, the tenth taken as a rational number. *)
Definition stake_threshold_as_stated : Prop :=
  forall cp e s,
    reachable cp s ->
    msg_sender e = owner s -> marketType s = Event -> currentPhase s = Settled ->
    ownerStake s = 0 -> isSettlementProposed s = false ->
    (is_ok (depositOwnerStake e s) = true <->
     totalYesAmount s + totalNoAmount s <= 10 * msg_value e).

(** ** Invariants of settlement and custody *)

(** What holds, in every reachable state, of the stake, the balance, the
    settlement flags and the parameters fixed at construction. *)
Record settlement_inv (s : Market) : Prop := mk_settlement_inv {
  si_balance : 0 <= ownerStake s <= balance s;
  si_before :
    currentPhase s <> Settled ->
    ownerStake s = 0 /\ isSettlementProposed s = false /\ isSettled s = false;
  si_price :
    marketType s = Price ->
    isSettlementProposed s = false /\ ownerStake s = 0 /\
    priceOracle s <> 0%N /\ 0 < targetPrice s;
  si_event_settled :
    marketType s = Event -> isSettled s = true ->
    isSettlementProposed s = true /\ finalOutcome s = proposedOutcome s;
  si_settled_stake : isSettled s = true -> ownerStake s = 0;
  si_stake_level :
    ownerStake s = 0 \/ (totalYesAmount s + totalNoAmount s) / 10 <= ownerStake s;
  si_proposed_stake :
    isSettlementProposed s = true -> isSettled s = false -> 0 < ownerStake s;
  si_unclaimed : isSettled s = false -> forall a, hasClaimedOf s a = false;
  si_owner_out :
    marketType s = Event -> hasCommitted (commitmentOf s (owner s)) = false
}.

(** The parameters of a market that no call assigns. *)
Definition same_parameters (s s' : Market) : Prop :=
  owner s' = owner s /\ marketType s' = marketType s /\
  eventDescription s' = eventDescription s /\
  commitmentDeadline s' = commitmentDeadline s /\
  eventDeadline s' = eventDeadline s /\
  priceOracle s' = priceOracle s /\ targetAsset s' = targetAsset s /\
  targetPrice s' = targetPrice s.

(** ** Runs of the price oracle *)

(** The states of the oracle contract: as deployed, or after a
    successful call, each at a positive block time. *)
Inductive oracle_reachable : PriceOracle.Contract -> Prop :=
| oracle_deployed sender now :
    0 < now -> oracle_reachable (PriceOracle.constructor sender now)
| oracle_addUpdater sender updater c c' :
    oracle_reachable c -> PriceOracle.addUpdater sender updater c = Ok c' ->
    oracle_reachable c'
| oracle_removeUpdater sender updater c c' :
    oracle_reachable c -> PriceOracle.removeUpdater sender updater c = Ok c' ->
    oracle_reachable c'
| oracle_updatePrice sender now asset newPrice c c' :
    oracle_reachable c -> 0 < now ->
    PriceOracle.updatePrice sender now asset newPrice c = Ok c' ->
    oracle_reachable c'
| oracle_updatePrices sender now assets newPrices c c' :
    oracle_reachable c -> 0 < now ->
    PriceOracle.updatePrices sender now assets newPrices c = Ok c' ->
    oracle_reachable c'.

(** One [updatePrice] per pair, each on the storage left by the one before. *)
Fixpoint updateInTurn (sender : address) (now : Z)
    (updates : list (PriceOracle.Asset * Z)) (c : PriceOracle.Contract)
    : result PriceOracle.Contract :=
  match updates with
  | [] => Ok c
  | (asset, newPrice) :: updates =>
      c1 ← PriceOracle.updatePrice sender now asset newPrice c;
      updateInTurn sender now updates c1
  end.


(** ** Runs of the Chainlink oracle *)

(** The states of the Chainlink oracle contract: as constructed, or after
    a successful call of one of its two administration functions. *)
Inductive chainlink_reachable : ChainlinkPriceOracle.Contract -> Prop :=
| chainlink_deployed sender ethUsdFeed btcUsdFeed solUsdFeed c :
    ChainlinkPriceOracle.constructor sender ethUsdFeed btcUsdFeed solUsdFeed = Ok c ->
    chainlink_reachable c
| chainlink_updatePriceFeed sender asset feedAddress c c' :
    chainlink_reachable c ->
    ChainlinkPriceOracle.updatePriceFeed sender asset feedAddress c = Ok c' ->
    chainlink_reachable c'
| chainlink_transferOwnership sender newOwner c c' :
    chainlink_reachable c ->
    ChainlinkPriceOracle.transferOwnership sender newOwner c = Ok c' ->
    chainlink_reachable c'.

(** ** More of the worked market *)

(** The owner has deposited a stake of 5 against a pool of 45. *)
Definition staked_market : Market :=
  run honest [ (tx 1%N 5 150, DepositOwnerStake) ] (revealed_market Event).

(** The owner has proposed the outcome YES at time 200. *)
Definition proposed_market : Market :=
  run honest [ (tx 1%N 0 200, ProposeSettlement true) ] staked_market.


(** A price oracle deployed by address 1 at time 50. *)
Definition demo_oracle : PriceOracle.Contract := PriceOracle.constructor 1%N 50.

(** A mock feed deployed at time 10 with the price 3000. *)
Definition demo_feed : MockChainlinkAggregator.State :=
  MockChainlinkAggregator.constructor 10 3000 8.

(** A chain on which the mock in state [st] is deployed at [feed]. *)
Definition feeds_at (feed : address) (st : MockChainlinkAggregator.State)
    : ChainlinkPriceOracle.Feeds :=
  fun a => if bool_decide (a = feed)
           then Some (MockChainlinkAggregator.latestRoundData st) else None.

(** A factory with three markets on record. *)
Definition demo_factory : MarketFactory.Factory :=
  MarketFactory.mkFactory [21%N; 22%N; 23%N] ∅ ∅.
(** * Proofs *)

(** ** Inversion of successful calls *)

Lemma bind_Ok {A B} (m : result A) (f : A -> result B) (b : B) :
  m ≫= f = Ok b -> exists a, m = Ok a /\ f a = Ok b.
Proof. destruct m as [a|msg]; [eauto | discriminate]. Qed.

Lemma no_transfer_Ok r s' out :
  no_transfer r = Ok (s', out) -> r = Ok s' /\ out = [].
Proof. destruct r; simpl; [intros [= -> <-]; auto | discriminate]. Qed.

Lemma one_transfer_Ok r s' out :
  one_transfer r = Ok (s', out) -> exists t, r = Ok (s', t) /\ out = [t].
Proof. destruct r as [[s t]|]; simpl; [intros [= -> <-]; eauto | discriminate]. Qed.

(** Peels the guards off a hypothesis [H : body = Ok _], leaving one
    hypothesis per guard that passed. *)
Ltac inv_ok H :=
  repeat match type of H with
  | mbind _ (require ?c _) = Ok _ =>
      let G := fresh "G" in
      destruct c eqn:G;
      [ change (mbind ?f (require true ?m)) with (f tt) in H; cbv beta in H
      | discriminate H ]
  | mbind _ (if ?c then _ else _) = Ok _ =>
      let G := fresh "G" in destruct c eqn:G
  | mbind _ (Ok ?a) = Ok _ =>
      change (mbind ?f (Ok a)) with (f a) in H; cbv beta in H
  | mbind _ ?m = Ok _ =>
      let a := fresh "a" in let E := fresh "E" in
      apply bind_Ok in H; destruct H as (a & E & H); inv_ok E
  | require ?c _ = Ok _ =>
      let G := fresh "G" in
      destruct c eqn:G; [ clear H | discriminate H ]
  | (let '(_, _) := ?p in _) = Ok _ => destruct p
  | checked_add ?a ?b = Ok _ =>
      let G := fresh "G" in
      unfold checked_add in H; destruct (a + b <=? UINT256_MAX) eqn:G;
      [ injection H as H | discriminate H ]
  | checked_sub ?a ?b = Ok _ =>
      let G := fresh "G" in
      unfold checked_sub in H; destruct (b <=? a) eqn:G;
      [ injection H as H | discriminate H ]
  | checked_mul ?a ?b = Ok _ =>
      let G := fresh "G" in
      unfold checked_mul in H; destruct (a * b <=? UINT256_MAX) eqn:G;
      [ injection H as H | discriminate H ]
  | checked_div ?a ?b = Ok _ =>
      let G := fresh "G" in
      unfold checked_div in H; destruct (b =? 0) eqn:G;
      [ discriminate H | injection H as H ]
  | Ok _ = Ok _ => injection H as H
  | Revert _ = Ok _ => discriminate H
  end.

Ltac unfold_calls H :=
  unfold commitPrediction, aggregateBets,
    requestAggregateDecryption, callbackAggregateDecryption, depositOwnerStake,
    proposeSettlement, finalizeSettlement, challengeSettlement, settlePriceMarket,
    claimRewards, callbackClaimRewards, onlyOwner, onlyInPhase, requestDecryption in H.

(** One case per entry point of the contract, from [H : dispatch .. = Ok _]. *)
Ltac call_cases H :=
  unfold dispatch in H; inv_ok H;
  match type of H with
  | match ?c with _ => _ end = Ok _ => destruct c
  end;
  [ apply no_transfer_Ok in H; destruct H as [H ->]
  | apply no_transfer_Ok in H; destruct H as [H ->]
  | apply no_transfer_Ok in H; destruct H as [H ->]
  | apply no_transfer_Ok in H; destruct H as [H ->]
  | apply no_transfer_Ok in H; destruct H as [H ->]
  | apply no_transfer_Ok in H; destruct H as [H ->]
  | apply one_transfer_Ok in H; destruct H as (? & H & ->)
  | apply no_transfer_Ok in H; destruct H as [H ->]
  | apply no_transfer_Ok in H; destruct H as [H ->]
  | apply no_transfer_Ok in H; destruct H as [H ->]
  | apply one_transfer_Ok in H; destruct H as (? & H & ->) ].

Ltac decide_hyps :=
  repeat match goal with
  | H : bool_decide _ = true |- _ => apply bool_decide_eq_true_1 in H
  | H : bool_decide _ = false |- _ => apply bool_decide_eq_false_1 in H
  | H : negb _ = true |- _ => apply negb_true_iff in H
  | H : negb _ = false |- _ => apply negb_false_iff in H
  end.

Ltac call_inv H := call_cases H; unfold_calls H; inv_ok H; decide_hyps; simplify_eq.

Section Properties.

Context (cp : Coprocessor).

(** ** Phases *)

Lemma dispatch_phase e c s s' out :
  dispatch cp e c s = Ok (s', out) ->
  currentPhase s' = currentPhase s \/
  next_phase (currentPhase s) = Some (currentPhase s').
Proof.
  intros H. call_inv H; simpl in *.
  all: try (left; reflexivity).
  all: match goal with H : currentPhase _ = _ |- _ => rewrite H end; right; reflexivity.
Qed.

(** C2. Whatever the transaction, the phase after it is the phase before
    it or the one that follows it in the order BlindCommitment, Aggregating,
    AwaitingDecryption, Settled: no call moves the phase back, none skips
    a phase. *)
Theorem phase_monotonicity e c s :
  currentPhase (exec cp e c s) = currentPhase s \/
  next_phase (currentPhase s) = Some (currentPhase (exec cp e c s)).
Proof.
  unfold exec. destruct (dispatch cp e c s) as [[s' out]|] eqn:H; [|auto].
  eapply dispatch_phase; eauto.
Qed.

(** ** Preservation of the storage invariants *)

Lemma commitmentOf_Some s a c :
  commitments s !! a = Some c -> commitmentOf s a = c.
Proof. unfold commitmentOf. intros ->. reflexivity. Qed.

Lemma not_committed_None s a :
  wf_state s -> hasCommitted (commitmentOf s a) = false -> commitments s !! a = None.
Proof.
  intros Hwf H. destruct (commitments s !! a) as [c|] eqn:E; [|reflexivity].
  rewrite (commitmentOf_Some _ _ _ E) in H.
  destruct (wf_commitments _ Hwf _ _ E) as [Hc _]. congruence.
Qed.

Lemma fromExternal8_Ok sender input proof c :
  FHE.fromExternal8 cp sender input proof = Ok c ->
  c = Euint8 (ext8 input) /\ 0 <= ext8 input < 2 ^ 8 /\
  verifyCiphertext cp (ext8 input) sender proof 8 = true.
Proof.
  unfold FHE.fromExternal8.
  destruct (verifyCiphertext _ _ _ _ _); simpl; [|discriminate].
  destruct (0 <=? ext8 input) eqn:L; simpl; [|discriminate].
  destruct (ext8 input <? 2 ^ 8) eqn:U; [|discriminate].
  intros [= <-]. split; [reflexivity|]. split; [lia | reflexivity].
Qed.

Lemma fromExternal64_Ok sender input proof c :
  FHE.fromExternal64 cp sender input proof = Ok c ->
  c = Euint64 (ext64 input) /\ 0 <= ext64 input < 2 ^ 64 /\
  verifyCiphertext cp (ext64 input) sender proof 64 = true.
Proof.
  unfold FHE.fromExternal64.
  destruct (verifyCiphertext _ _ _ _ _); simpl; [|discriminate].
  destruct (0 <=? ext64 input) eqn:L; simpl; [|discriminate].
  destruct (ext64 input <? 2 ^ 64) eqn:U; [|discriminate].
  intros [= <-]. split; [reflexivity|]. split; [lia | reflexivity].
Qed.

Lemma abi_decode2_Ok bits0 bits1 cleartexts v0 v1 :
  abi_decode2 bits0 bits1 cleartexts = Ok (v0, v1) ->
  (exists rest, cleartexts = v0 :: v1 :: rest) /\
  0 <= v0 < 2 ^ bits0 /\ 0 <= v1 < 2 ^ bits1.
Proof.
  unfold abi_decode2. destruct cleartexts as [|w0 [|w1 rest]]; try discriminate.
  destruct (0 <=? w0) eqn:A; simpl; [|discriminate].
  destruct (w0 <? 2 ^ bits0) eqn:B; simpl; [|discriminate].
  destruct (0 <=? w1) eqn:C; simpl; [|discriminate].
  destruct (w1 <? 2 ^ bits1) eqn:D; simpl; [|discriminate].
  intros [= <- <-]. split; [eauto | lia].
Qed.

Lemma aggregateOne_ext s s' :
  commitments s' = commitments s -> aggregateOne s' = aggregateOne s.
Proof. unfold aggregateOne, commitmentOf. intros ->. reflexivity. Qed.

Lemma wf_deployed sender mt descr cd ed po ta tp :
  wf_state (deployed sender mt descr cd ed po ta tp).
Proof.
  constructor; simpl; try done; try lia.
  intros a. left. reflexivity.
Qed.

(** A call that leaves the commitment ledger, the phase, the encrypted and
    the revealed totals and the decryption requests alone keeps the
    invariants. *)
Lemma wf_frame s s' :
  wf_state s ->
  commitments s' = commitments s ->
  participants s' = participants s ->
  currentPhase s' = currentPhase s ->
  isAggregated s' = isAggregated s ->
  encryptedTotalYes s' = encryptedTotalYes s ->
  encryptedTotalNo s' = encryptedTotalNo s ->
  aggregateDecryptionRequestId s' = aggregateDecryptionRequestId s ->
  counterRequest s' = counterRequest s ->
  requestedHandles s' = requestedHandles s ->
  claimRequestIds s' = claimRequestIds s ->
  totalYesAmount s' = totalYesAmount s ->
  totalNoAmount s' = totalNoAmount s ->
  wf_state s'.
Proof.
  intros [] Hc Hp Hph Hag Hy Hn Hid Hcnt Hrh Hci Hty Htn.
  constructor; unfold requestedHandlesOf, claimRequestIdOf in *;
    rewrite ?(aggregateOne_ext s s' Hc), ?Hc, ?Hp, ?Hph, ?Hag, ?Hy, ?Hn, ?Hid, ?Hcnt,
      ?Hrh, ?Hci, ?Hty, ?Htn; assumption.
Qed.

Lemma wf_commit e s p v :
  wf_state s ->
  currentPhase s = BlindCommitment ->
  hasCommitted (commitmentOf s (msg_sender e)) = false ->
  0 <= p < 2 ^ 8 -> 0 <= v < 2 ^ 64 ->
  wf_state
    (set_participants
       (set_commitments (payable e s)
          (<[msg_sender e := mkCommitment (Euint8 p) (Euint64 v) true]> (commitments s)))
       (participants s ++ [msg_sender e])).
Proof.
  intros Hwf Hph Hnew Hp Hv.
  pose proof (not_committed_None _ _ Hwf Hnew) as Hnone.
  destruct Hwf. constructor; simpl; try assumption; try congruence.
  - rewrite map_to_list_insert by exact Hnone. rewrite fmap_cons. simpl.
    rewrite <- wf_participants0. symmetry. apply Permutation_cons_append.
  - intros a c. rewrite lookup_insert. case_decide.
    + intros [= <-]. unfold amountOf, predictionOf. simpl. auto.
    + apply wf_commitments0.
Qed.

Lemma wf_aggregate s :
  wf_state s ->
  currentPhase s = BlindCommitment ->
  let totals := fold_left (aggregateOne s) (participants s)
                  (FHE.asEuint64 0, FHE.asEuint64 0) in
  wf_state
    (set_currentPhase
       (set_isAggregated
          (set_encryptedTotalNo (set_encryptedTotalYes s totals.1) totals.2) true)
       Aggregating).
Proof.
  intros [] Hph totals. subst totals. constructor; simpl; try assumption.
  - intros _. split; [reflexivity|].
    exact (eq_sym (surjective_pairing
             (fold_left (aggregateOne s) (participants s)
                (FHE.asEuint64 0, FHE.asEuint64 0)))).
  - lia.
Qed.

Lemma wf_request_aggregate s :
  wf_state s ->
  currentPhase s = Aggregating ->
  let cts := [Handle64 (encryptedTotalYes s); Handle64 (encryptedTotalNo s)] in
  wf_state
    (set_currentPhase
       (set_aggregateDecryptionRequestId
          (set_counterRequest
             (set_requestedHandles s (<[counterRequest s := cts]> (requestedHandles s)))
             (counterRequest s + 1))
          (counterRequest s))
       AwaitingDecryption).
Proof.
  intros Hwf Hph cts. pose proof Hwf as [].
  constructor; unfold requestedHandlesOf, claimRequestIdOf; simpl; try assumption.
  - intros _. apply wf_aggregated0. congruence.
  - intros _. rewrite lookup_insert_eq. simpl. split; [lia | reflexivity].
  - lia.
  - intros r Hr. rewrite lookup_insert_ne by lia. apply wf_handles_fresh0. lia.
  - intros r Hr. destruct (decide (r = counterRequest s)) as [->|Hne].
    + rewrite lookup_insert_eq. discriminate.
    + rewrite lookup_insert_ne by congruence. apply wf_handles_saved0. lia.
  - intros a. destruct (wf_claim_ids0 a) as [H0|Hlt]; [left; exact H0 | right].
    unfold claimRequestIdOf in Hlt. lia.
Qed.

Lemma wf_callback_aggregate s yesAmount noAmount :
  wf_state s ->
  currentPhase s = AwaitingDecryption ->
  0 <= yesAmount < 2 ^ 64 -> 0 <= noAmount < 2 ^ 64 ->
  wf_state
    (set_currentPhase (set_totalNoAmount (set_totalYesAmount s yesAmount) noAmount)
       Settled).
Proof.
  intros [] Hph Hy Hn.
  constructor; unfold requestedHandlesOf, claimRequestIdOf in *; simpl; try assumption.
  - intros _. apply wf_aggregated0. congruence.
  - intros _. apply wf_requested0. rewrite Hph. simpl. lia.
  - auto.
Qed.

Lemma wf_claim s a cts :
  wf_state s ->
  currentPhase s = Settled ->
  cts <> [] ->
  wf_state
    (set_claimRequestIds
       (set_counterRequest
          (set_requestedHandles s (<[counterRequest s := cts]> (requestedHandles s)))
          (counterRequest s + 1))
       (<[a := counterRequest s]> (claimRequestIds s))).
Proof.
  intros Hwf Hph Hcts. pose proof Hwf as [].
  assert (0 <= aggregateDecryptionRequestId s < counterRequest s) as Hagg
    by (apply wf_requested0; rewrite Hph; simpl; lia).
  constructor; unfold requestedHandlesOf, claimRequestIdOf in *; simpl; try assumption.
  - intros Hp. rewrite lookup_insert_ne by lia.
    destruct (wf_requested0 Hp) as [_ ->]. split; [lia | reflexivity].
  - lia.
  - intros r Hr. rewrite lookup_insert_ne by lia. apply wf_handles_fresh0. lia.
  - intros r Hr. destruct (decide (r = counterRequest s)) as [->|Hne].
    + rewrite lookup_insert_eq. exact Hcts.
    + rewrite lookup_insert_ne by congruence. apply wf_handles_saved0. lia.
  - intros b. rewrite lookup_insert. case_decide.
    + simpl. right. lia.
    + destruct (wf_claim_ids0 b) as [H0|Hlt]; [left; exact H0 | right; lia].
Qed.

Lemma wf_dispatch e c s s' out :
  wf_state s -> wf_env e -> dispatch cp e c s = Ok (s', out) -> wf_state s'.
Proof.
  intros Hwf He H. call_inv H.
  all: try (eapply wf_frame; [exact Hwf | reflexivity ..]).
  - apply fromExternal8_Ok in E as (-> & ? & _).
    apply fromExternal64_Ok in E0 as (-> & ? & _).
    apply wf_commit; assumption.
  - apply fromExternal8_Ok in E as (-> & ? & _).
    apply fromExternal64_Ok in E0 as (-> & ? & _).
    apply wf_commit; assumption.
  - apply wf_aggregate; assumption.
  - apply wf_request_aggregate; assumption.
  - apply abi_decode2_Ok in E0 as (_ & ? & ?).
    apply wf_callback_aggregate; assumption.
  - apply (wf_claim s (msg_sender e)); [assumption .. | discriminate].
Qed.

Lemma wf_reachable s : reachable cp s -> wf_state s.
Proof.
  induction 1 as [e mt descr cdur edur po ta tp s He H | s s' _ IH Hstep].
  - unfold constructor in H. inv_ok H; subst; apply wf_deployed.
  - destruct Hstep as [e c s' out He H]. eapply wf_dispatch; eauto.
Qed.

Lemma reachable_exec e c s : wf_env e -> reachable cp s -> reachable cp (exec cp e c s).
Proof.
  intros He Hr. unfold exec.
  destruct (dispatch cp e c s) as [[s' out]|] eqn:H; [|exact Hr].
  eapply reachable_step; [exact Hr | econstructor; eauto].
Qed.
(** ** Commitments *)

Lemma commit_result e p a pp ap s :
  hasCommitted (commitmentOf s (msg_sender e)) = true ->
  commitPrediction cp e p a pp ap s =
    Revert (if bool_decide (currentPhase s = BlindCommitment) then
              if block_timestamp e <? commitmentDeadline s then "Already committed"
              else "Commitment period has ended"
            else "Invalid phase for this operation").
Proof.
  intros Hc. unfold commitPrediction, onlyInPhase. simpl.
  change (commitmentOf (payable e s) (msg_sender e)) with (commitmentOf s (msg_sender e)).
  rewrite Hc.
  destruct (bool_decide (currentPhase s = BlindCommitment)); [|reflexivity].
  destruct (block_timestamp e <? commitmentDeadline s); reflexivity.
Qed.

(** C5, amended. A commit by an address that already holds a commitment
    always reverts and leaves the storage as it was.  The error is
    "Already committed" while the market is in the blind-commitment phase
    and the deadline has not passed; otherwise it is the error of the phase
    guard or of the deadline guard, which are checked first. *)
Theorem second_commit_rejected e p a pp ap s :
  hasCommitted (commitmentOf s (msg_sender e)) = true ->
  commitPrediction cp e p a pp ap s =
    Revert (if bool_decide (currentPhase s = BlindCommitment) then
              if block_timestamp e <? commitmentDeadline s then "Already committed"
              else "Commitment period has ended"
            else "Invalid phase for this operation")
  /\ exec cp e (CommitPrediction p a pp ap) s = s.
Proof.
  intros Hc. pose proof (commit_result e p a pp ap s Hc) as H.
  split; [exact H|].
  unfold exec, dispatch. simpl. rewrite H. reflexivity.
Qed.

(** C10. A commit that passes the guards on phase, deadline, duplicate
    and owner succeeds for every positive attached value and every
    well-formed pair of ciphertexts: the ciphertexts are stored as
    supplied, the attached value is added to the balance, and nothing
    compares the two, so an encrypted amount that differs from the
    attached value is stored all the same. *)
Theorem commit_ignores_attached_value e p a pp ap s :
  currentPhase s = BlindCommitment ->
  block_timestamp e < commitmentDeadline s ->
  hasCommitted (commitmentOf s (msg_sender e)) = false ->
  (marketType s = Event -> msg_sender e <> owner s) ->
  0 < msg_value e ->
  verifyCiphertext cp (ext8 p) (msg_sender e) pp 8 = true -> 0 <= ext8 p < 2 ^ 8 ->
  verifyCiphertext cp (ext64 a) (msg_sender e) ap 64 = true -> 0 <= ext64 a < 2 ^ 64 ->
  exists s',
    commitPrediction cp e p a pp ap s = Ok s' /\
    commitmentOf s' (msg_sender e) =
      mkCommitment (Euint8 (ext8 p)) (Euint64 (ext64 a)) true /\
    balance s' = balance s + msg_value e /\
    (ext64 a <> msg_value e ->
     amountOf (commitmentOf s' (msg_sender e)) <> balance s' - balance s).
Proof.
  intros Hph Ht Hnew Hown Hv Hp Hpr Ha Har.
  unfold commitPrediction, onlyInPhase. simpl.
  change (commitmentOf (payable e s) (msg_sender e)) with (commitmentOf s (msg_sender e)).
  rewrite Hnew, Hph.
  rewrite (bool_decide_eq_true_2 (BlindCommitment = BlindCommitment)) by reflexivity.
  replace (block_timestamp e <? commitmentDeadline s) with true by (symmetry; lia).
  replace (0 <? msg_value e) with true by (symmetry; lia).
  simpl.
  assert ((if bool_decide (marketType s = Event)
           then require (negb (bool_decide (msg_sender e = owner s)))
                  "Owner cannot participate in event markets"
           else Ok ()) = Ok ()) as ->.
  { case_bool_decide as Hk; [|reflexivity].
    rewrite bool_decide_eq_false_2 by auto. reflexivity. }
  unfold FHE.fromExternal8, FHE.fromExternal64. rewrite Hp, Ha.
  replace (0 <=? ext8 p) with true by (symmetry; lia).
  replace (ext8 p <? 2 ^ 8) with true by (symmetry; lia).
  replace (0 <=? ext64 a) with true by (symmetry; lia).
  replace (ext64 a <? 2 ^ 64) with true by (symmetry; lia).
  simpl. eexists. split; [reflexivity|].
  unfold commitmentOf, amountOf. simpl. rewrite lookup_insert_eq. simpl.
  split; [reflexivity|]. split; [reflexivity|]. intros Hne. lia.
Qed.

(** ** Settlement *)

(** C7. [settlePriceMarket] succeeds only on a price market that is not
    settled, after the event deadline, in phase Settled and with a nonzero
    total on one side at least; it then stores the outcome "the oracle price
    is at least the target price" and marks the market settled in the same
    call, every other slot untouched. *)
Theorem settlePriceMarket_sound e s s' :
  settlePriceMarket e s = Ok s' ->
  marketType s = Price /\ isSettled s = false /\
  eventDeadline s <= block_timestamp e /\
  currentPhase s = Settled /\
  (totalYesAmount s <> 0 \/ totalNoAmount s <> 0) /\
  exists price time,
    PriceOracle.getPrice (oracle e) (block_timestamp e) (targetAsset s) = Ok (price, time) /\
    s' = set_isSettled (set_finalOutcome s (targetPrice s <=? price)) true /\
    (finalOutcome s' = true <-> targetPrice s <= price) /\
    isSettled s' = true.
Proof.
  intros H. unfold settlePriceMarket in H. inv_ok H. decide_hyps.
  split; [assumption|]. split; [assumption|]. split; [lia|]. split; [assumption|].
  split.
  { apply orb_true_iff in G4 as [?|?]; [left | right]; lia. }
  exists z, z0. subst s'. simpl.
  split; [assumption|]. split; [reflexivity|]. split; [lia | reflexivity].
Qed.

Lemma depositOwnerStake_result e s :
  wf_state s ->
  msg_sender e = owner s -> marketType s = Event -> currentPhase s = Settled ->
  ownerStake s = 0 -> isSettlementProposed s = false ->
  depositOwnerStake e s =
    if (totalYesAmount s + totalNoAmount s) / 10 <=? msg_value e
    then Ok (set_ownerStake (payable e s) (msg_value e))
    else Revert "Insufficient stake".
Proof.
  intros Hwf Hs Hk Hph Hst Hpr.
  destruct (wf_totals _ Hwf) as [Hy Hn].
  unfold depositOwnerStake, onlyOwner, onlyInPhase, checked_add. simpl.
  rewrite Hs, Hk, Hph, Hst, Hpr.
  rewrite !bool_decide_eq_true_2 by reflexivity. simpl.
  replace (totalYesAmount s + totalNoAmount s <=? UINT256_MAX) with true
    by (symmetry; unfold UINT256_MAX; lia).
  simpl. destruct (_ <=? msg_value e); reflexivity.
Qed.

(** C8, amended. Called by the owner of an event market in phase Settled
    with no stake and no proposal yet, [depositOwnerStake] succeeds exactly
    when the attached value is at least the integer quotient of the pool by
    ten, that is one tenth of the pool rounded down. *)
Theorem stake_threshold e s :
  reachable cp s ->
  msg_sender e = owner s -> marketType s = Event -> currentPhase s = Settled ->
  ownerStake s = 0 -> isSettlementProposed s = false ->
  (is_ok (depositOwnerStake e s) = true <->
   (totalYesAmount s + totalNoAmount s) / 10 <= msg_value e).
Proof.
  intros Hr Hs Hk Hph Hst Hpr.
  rewrite (depositOwnerStake_result e s (wf_reachable s Hr) Hs Hk Hph Hst Hpr).
  destruct (_ <=? msg_value e) eqn:L; simpl; split; intros; try lia; discriminate.
Qed.

(** ** Payout *)



(** ** Runs *)

Lemma reachable_run txs s :
  Forall (fun t => wf_env t.1) txs -> reachable cp s -> reachable cp (run cp txs s).
Proof.
  unfold run. intros Htxs. revert s.
  induction Htxs as [|t txs Ht _ IH]; intros s Hr; simpl; [exact Hr|].
  apply IH. apply reachable_exec; assumption.
Qed.

Lemma steps_run txs s :
  Forall (fun t => wf_env t.1) txs -> steps cp s (run cp txs s).
Proof.
  unfold run. intros Htxs. revert s.
  induction Htxs as [|t txs Ht _ IH]; intros s; simpl; [apply rtc_refl|].
  unfold exec at 2. destruct (dispatch cp t.1 t.2 s) as [[s' out]|] eqn:H; [|apply IH].
  eapply rtc_l; [econstructor; eauto | apply IH].
Qed.

(** ** What no later transaction undoes *)

(** In phase Settled a transaction keeps the phase, the revealed totals,
    the stored request id and the commitment ledger; a settled market
    stays settled and a participant marked as paid stays marked. *)
Lemma dispatch_settled e c s s' out :
  dispatch cp e c s = Ok (s', out) ->
  currentPhase s = Settled ->
  currentPhase s' = Settled /\
  totalYesAmount s' = totalYesAmount s /\
  totalNoAmount s' = totalNoAmount s /\
  aggregateDecryptionRequestId s' = aggregateDecryptionRequestId s /\
  commitments s' = commitments s /\
  participants s' = participants s /\
  (isSettled s = true -> isSettled s' = true) /\
  (forall a, hasClaimedOf s a = true -> hasClaimedOf s' a = true).
Proof.
  intros H Hph. call_inv H; simpl in *; try congruence.
  all: try (repeat split; auto; fail).
  repeat split; auto. intros who Hwho. unfold hasClaimedOf in *. simpl.
  rewrite lookup_insert. case_decide; [reflexivity | exact Hwho].
Qed.

Lemma steps_settled s s' :
  steps cp s s' ->
  currentPhase s = Settled ->
  currentPhase s' = Settled /\
  totalYesAmount s' = totalYesAmount s /\
  totalNoAmount s' = totalNoAmount s /\
  aggregateDecryptionRequestId s' = aggregateDecryptionRequestId s /\
  commitments s' = commitments s /\
  participants s' = participants s /\
  (isSettled s = true -> isSettled s' = true) /\
  (forall a, hasClaimedOf s a = true -> hasClaimedOf s' a = true).
Proof.
  induction 1 as [s|s s1 s2 Hstep _ IH]; intros Hph.
  - repeat split; auto.
  - destruct Hstep as [e c s1 out _ H].
    destruct (dispatch_settled _ _ _ _ _ H Hph) as (P1 & Y1 & N1 & I1 & C1 & L1 & S1 & K1).
    destruct (IH P1) as (P2 & Y2 & N2 & I2 & C2 & L2 & S2 & K2).
    repeat split; try congruence; auto.
Qed.

(** ** The callback of the aggregate decryption *)

Lemma callbackAggregate_other_id e requestId cleartexts proof s :
  requestId <> aggregateDecryptionRequestId s ->
  callbackAggregateDecryption cp e requestId cleartexts proof s =
    Revert "Invalid request ID".
Proof.
  intros Hne. unfold callbackAggregateDecryption.
  replace (requestId =? aggregateDecryptionRequestId s) with false by (symmetry; lia).
  reflexivity.
Qed.

Lemma callbackAggregate_settled e requestId cleartexts proof s :
  currentPhase s = Settled ->
  callbackAggregateDecryption cp e requestId cleartexts proof s =
    Revert (if requestId =? aggregateDecryptionRequestId s then "Invalid phase"
            else "Invalid request ID").
Proof.
  intros Hph. unfold callbackAggregateDecryption.
  destruct (requestId =? aggregateDecryptionRequestId s); [|reflexivity].
  rewrite Hph. reflexivity.
Qed.

Lemma callbackAggregate_Ok e requestId cleartexts proof s s' :
  callbackAggregateDecryption cp e requestId cleartexts proof s = Ok s' ->
  requestId = aggregateDecryptionRequestId s /\
  currentPhase s = AwaitingDecryption /\
  checkSignatures cp requestId cleartexts proof s = Ok tt /\
  exists yesAmount noAmount,
    abi_decode2 64 64 cleartexts = Ok (yesAmount, noAmount) /\
    s' = set_currentPhase
           (set_totalNoAmount (set_totalYesAmount s yesAmount) noAmount) Settled.
Proof.
  intros H. unfold callbackAggregateDecryption in H. inv_ok H. decide_hyps.
  destruct a. split; [lia|]. split; [assumption|]. split; [assumption|].
  exists z, z0. split; [assumption | congruence].
Qed.

(** C3, amended. A callback is accepted only with the stored request id:
    with any other id it reverts with "Invalid request ID", whatever the
    cleartexts and the proof.  After an accepted callback the stored id is
    kept, so presenting the same id again passes the request-id check and
    is stopped by the phase check ("Invalid phase"), the phase being
    Settled for good; any other id still fails the request-id check.  No
    later transaction changes the two totals: they are written once. *)
Theorem aggregate_callback_binding e requestId cleartexts proof s s1 s2 :
  callbackAggregateDecryption cp e requestId cleartexts proof s = Ok s1 ->
  steps cp s1 s2 ->
  requestId = aggregateDecryptionRequestId s /\
  (forall e' r' c' p',
     r' <> aggregateDecryptionRequestId s ->
     callbackAggregateDecryption cp e' r' c' p' s = Revert "Invalid request ID") /\
  (forall e' r' c' p',
     callbackAggregateDecryption cp e' r' c' p' s2 =
       Revert (if r' =? requestId then "Invalid phase" else "Invalid request ID")) /\
  totalYesAmount s2 = totalYesAmount s1 /\
  totalNoAmount s2 = totalNoAmount s1.
Proof.
  intros H Hsteps.
  destruct (callbackAggregate_Ok _ _ _ _ _ _ H) as (Hid & _ & _ & y & n & _ & ->).
  destruct (steps_settled _ _ Hsteps eq_refl) as (P & Y & N & I & _).
  split; [exact Hid|]. split.
  { intros e' r' c' p' Hne. apply callbackAggregate_other_id. exact Hne. }
  split; [|split; assumption].
  intros e' r' c' p'. rewrite (callbackAggregate_settled e' r' c' p' s2 P).
  rewrite I. simpl. rewrite <- Hid. reflexivity.
Qed.

(** ** Claims *)




(** ** Aggregation *)

Lemma sumZ_perm l1 l2 : l1 ≡ₚ l2 -> sumZ l1 = sumZ l2.
Proof. induction 1; simpl; lia. Qed.

Lemma sumZ_nonneg l : Forall (fun x => 0 <= x) l -> 0 <= sumZ l.
Proof. induction 1; simpl; lia. Qed.

Lemma add_mod_acc (M acc x rest : Z) :
  ((acc + x mod M) mod M + rest) mod M = (acc + (x + rest)) mod M.
Proof.
  rewrite Zplus_mod_idemp_l.
  replace (acc + x mod M + rest) with (x mod M + (acc + rest)) by ring.
  rewrite Zplus_mod_idemp_l. f_equal. ring.
Qed.

(** The loop of [aggregateBets]: each accumulator ends as its initial
    plaintext plus the shares of the participants, modulo [2 ^ 64]. *)
Lemma fold_aggregateOne s ps totals :
  0 <= plain64 totals.1 < 2 ^ 64 -> 0 <= plain64 totals.2 < 2 ^ 64 ->
  plain64 (fold_left (aggregateOne s) ps totals).1 =
    (plain64 totals.1 + sumZ (yesShare <$> (commitmentOf s <$> ps))) mod 2 ^ 64 /\
  plain64 (fold_left (aggregateOne s) ps totals).2 =
    (plain64 totals.2 + sumZ (noShare <$> (commitmentOf s <$> ps))) mod 2 ^ 64.
Proof.
  revert totals. induction ps as [|p ps IH]; intros totals Hy Hn; simpl.
  - rewrite !Z.add_0_r, !Z.mod_small by assumption. split; reflexivity.
  - destruct (IH (aggregateOne s totals p)) as [IHy IHn].
    + simpl. apply Z.mod_pos_bound. lia.
    + simpl. apply Z.mod_pos_bound. lia.
    + rewrite IHy, IHn. simpl. split; apply add_mod_acc.
Qed.

Lemma stored_of_participants s :
  wf_state s -> commitmentOf s <$> participants s ≡ₚ storedCommitments s.
Proof.
  intros Hwf. rewrite (wf_participants _ Hwf). unfold storedCommitments.
  rewrite <- list_fmap_compose.
  rewrite (Forall_fmap_ext_1 (commitmentOf s ∘ fst) snd); [reflexivity|].
  apply Forall_forall. intros [a c] Hin. simpl.
  apply commitmentOf_Some. apply elem_of_map_to_list. exact Hin.
Qed.

Lemma stored_wf s :
  wf_state s ->
  Forall (fun c => 0 <= amountOf c < 2 ^ 64 /\ 0 <= predictionOf c < 2 ^ 8)
    (storedCommitments s).
Proof.
  intros Hwf. unfold storedCommitments. apply Forall_fmap, Forall_forall.
  intros [a c] Hin. simpl. apply elem_of_map_to_list in Hin.
  apply (wf_commitments _ Hwf) in Hin. tauto.
Qed.

Lemma binary_shares l :
  Forall (fun c => predictionOf c = 0 \/ predictionOf c = 1) l ->
  sumZ (yesShare <$> l) =
    sumZ ((fun c => if predictionOf c =? 1 then amountOf c else 0) <$> l) /\
  sumZ (noShare <$> l) =
    sumZ ((fun c => if predictionOf c =? 0 then amountOf c else 0) <$> l) /\
  sumZ ((fun c => if predictionOf c =? 1 then amountOf c else 0) <$> l) +
  sumZ ((fun c => if predictionOf c =? 0 then amountOf c else 0) <$> l) =
    sumZ (amountOf <$> l).
Proof.
  induction 1 as [|c l Hc _ (IHy & IHn & IHs)]; [simpl; auto|].
  rewrite !fmap_cons. cbn [sumZ]. rewrite IHy, IHn, <- IHs.
  unfold yesShare, noShare. change (1 mod 2 ^ 8) with 1.
  destruct Hc as [-> | ->].
  - change ((1 - 0) mod 2 ^ 8) with 1. change (0 =? 1) with false.
    change (0 =? 0) with true. cbv iota. repeat split; lia.
  - change ((1 - 1) mod 2 ^ 8) with 0. change (1 =? 1) with true.
    change (1 =? 0) with false. cbv iota. repeat split; lia.
Qed.

Lemma side_nonneg side l :
  Forall (fun c => 0 <= amountOf c < 2 ^ 64 /\ 0 <= predictionOf c < 2 ^ 8) l ->
  0 <= sumZ ((fun c => if predictionOf c =? side then amountOf c else 0) <$> l).
Proof.
  intros H. apply sumZ_nonneg, Forall_fmap. eapply Forall_impl; [exact H|].
  intros c [Ha _]. simpl. destruct (_ =? _); lia.
Qed.

(** From the moment the bets are aggregated, the encrypted accumulators
    hold the two sums of shares modulo [2 ^ 64]. *)
Lemma encrypted_totals s :
  wf_state s -> currentPhase s <> BlindCommitment ->
  plain64 (encryptedTotalYes s) = sumZ (yesShare <$> storedCommitments s) mod 2 ^ 64 /\
  plain64 (encryptedTotalNo s) = sumZ (noShare <$> storedCommitments s) mod 2 ^ 64.
Proof.
  intros Hwf Hph.
  destruct (wf_aggregated _ Hwf Hph) as [_ Hfold].
  destruct (fold_aggregateOne s (participants s) (FHE.asEuint64 0, FHE.asEuint64 0))
    as [Hy Hn]; [change (0 <= 0 < 2 ^ 64); lia .. |].
  rewrite <- Hfold in Hy, Hn. cbn [fst snd] in Hy, Hn.
  change (plain64 (FHE.asEuint64 0)) with 0 in Hy, Hn.
  rewrite Z.add_0_l in Hy, Hn. rewrite Hy, Hn.
  pose proof (stored_of_participants s Hwf) as Hperm.
  rewrite (sumZ_perm _ _ (fmap_Permutation yesShare _ _ Hperm)).
  rewrite (sumZ_perm _ _ (fmap_Permutation noShare _ _ Hperm)).
  split; reflexivity.
Qed.

Section Sound.

Hypothesis sound : kms_sound cp.

Lemma totals_dispatch e c s s' out :
  wf_state s -> totals_revealed s ->
  dispatch cp e c s = Ok (s', out) -> totals_revealed s'.
Proof.
  intros Hwf Hrev H. unfold totals_revealed in *.
  call_inv H; simpl in *; try congruence; try (intros _; apply Hrev; assumption).
  intros _.
  destruct (wf_requested _ Hwf) as [_ Hh]; [rewrite G1; simpl; lia|].
  unfold checkSignatures in E. inv_ok E.
  apply Z.eqb_eq in G0. subst requestId.
  apply sound in G3. rewrite Hh in G3. subst cleartexts.
  apply abi_decode2_Ok in E0 as ((rest & Heq) & _).
  injection Heq as <- <- _. split; reflexivity.
Qed.

Lemma totals_reachable s : reachable cp s -> totals_revealed s.
Proof.
  induction 1 as [e mt descr cdur edur po ta tp s He H | s s' Hr IH Hstep].
  - unfold constructor in H. inv_ok H; subst; intros Hph; discriminate Hph.
  - destruct Hstep as [e c s' out He H].
    eapply totals_dispatch; eauto using wf_reachable.
Qed.

(** C1, amended. In every reachable state whose totals are revealed, with
    every stored prediction 0 or 1: [totalYesAmount] is the sum of the
    amounts committed to YES modulo [2 ^ 64], [totalNoAmount] the sum of
    the amounts committed to NO modulo [2 ^ 64], and the two side sums add
    up to the sum of all committed amounts.  Hence the two totals add up to
    the sum of all committed amounts exactly when neither side sum reaches
    [2 ^ 64], the width of the encrypted accumulators; in particular when
    the sum of all committed amounts is below [2 ^ 64]. *)
Theorem conservation s :
  reachable cp s -> currentPhase s = Settled -> binaryPredictions s ->
  totalYesAmount s = sideAmounts 1 s mod 2 ^ 64 /\
  totalNoAmount s = sideAmounts 0 s mod 2 ^ 64 /\
  sideAmounts 1 s + sideAmounts 0 s = committedAmounts s /\
  (totalYesAmount s + totalNoAmount s = committedAmounts s <->
   sideAmounts 1 s < 2 ^ 64 /\ sideAmounts 0 s < 2 ^ 64) /\
  (committedAmounts s < 2 ^ 64 ->
   totalYesAmount s + totalNoAmount s = committedAmounts s).
Proof.
  intros Hr Hph Hbin.
  pose proof (wf_reachable s Hr) as Hwf.
  destruct (totals_reachable s Hr Hph) as [Hy Hn].
  destruct (encrypted_totals s Hwf) as [Ey En]; [congruence|].
  destruct (binary_shares _ Hbin) as (By & Bn & Bs).
  pose proof (side_nonneg 1 _ (stored_wf s Hwf)) as Py.
  pose proof (side_nonneg 0 _ (stored_wf s Hwf)) as Pn.
  rewrite By in Ey. rewrite Bn in En.
  unfold sideAmounts, committedAmounts.
  rewrite Hy, Hn, Ey, En, <- Bs.
  set (Y := sumZ ((fun c => if predictionOf c =? 1 then amountOf c else 0)
                    <$> storedCommitments s)) in *.
  set (N := sumZ ((fun c => if predictionOf c =? 0 then amountOf c else 0)
                    <$> storedCommitments s)) in *.
  pose proof (Z.mod_pos_bound Y (2 ^ 64) ltac:(lia)) as HY.
  pose proof (Z.mod_pos_bound N (2 ^ 64) ltac:(lia)) as HN.
  pose proof (Z.mod_le Y (2 ^ 64) Py ltac:(lia)) as LY.
  pose proof (Z.mod_le N (2 ^ 64) Pn ltac:(lia)) as LN.
  split; [reflexivity|]. split; [reflexivity|]. split; [reflexivity|].
  split; [split|].
  - intros Heq. assert (Y mod 2 ^ 64 = Y /\ N mod 2 ^ 64 = N) as [Hy' Hn'] by lia.
    lia.
  - intros [? ?]. rewrite !Z.mod_small by lia. reflexivity.
  - intros Hsmall. rewrite !Z.mod_small by lia. reflexivity.
Qed.

End Sound.

(** ** Repeated claim requests *)

Lemma wf_steps s s' : wf_state s -> steps cp s s' -> wf_state s'.
Proof.
  intros Hwf Hs. induction Hs as [|s s1 s2 Hstep _ IH]; [exact Hwf|].
  apply IH. destruct Hstep as [e c s1 out He H]. eapply wf_dispatch; eauto.
Qed.

Lemma retired_dispatch e c s s' out requestId :
  wf_state s -> dispatch cp e c s = Ok (s', out) ->
  retired s requestId -> retired s' requestId.
Proof.
  intros Hwf H [Hr Hfree]. unfold retired, claimRequestIdOf in *.
  call_inv H; simpl in *; try (split; [lia | exact Hfree]).
  split; [lia|]. intros who. rewrite lookup_insert. case_decide; simpl.
  - lia.
  - apply Hfree.
Qed.

Lemma retired_steps s s' requestId :
  wf_state s -> steps cp s s' -> retired s requestId -> retired s' requestId.
Proof.
  intros Hwf Hs. induction Hs as [|s s1 s2 Hstep _ IH]; intros Hret; [exact Hret|].
  destruct Hstep as [e c s1 out He H].
  apply IH; [eapply wf_dispatch | eapply retired_dispatch]; eauto.
Qed.

Lemma findUser_retired s requestId : retired s requestId -> findUser s requestId = 0%N.
Proof.
  intros [_ Hfree]. unfold findUser.
  destruct (find _ _) as [user|] eqn:F; [|reflexivity].
  apply find_some in F as [_ Heq]. apply Z.eqb_eq in Heq.
  exfalso. exact (Hfree _ Heq).
Qed.

(** A callback that bears a retired request id stops at the user lookup,
    provided its signatures verify. *)
Lemma callbackClaimRewards_retired e requestId cleartexts proof s :
  wf_state s -> currentPhase s = Settled -> isSettled s = true ->
  retired s requestId ->
  callbackClaimRewards cp e requestId cleartexts proof s =
    Revert (if verifySignatures cp (requestedHandlesOf s requestId) cleartexts proof
            then "User not found for request" else "InvalidKMSSignatures()").
Proof.
  intros Hwf Hph Hset Hret. unfold callbackClaimRewards, checkSignatures.
  rewrite Hph, Hset, (findUser_retired _ _ Hret).
  rewrite (bool_decide_eq_true_2 (Settled = Settled)) by reflexivity.
  rewrite (bool_decide_eq_false_2 (requestedHandlesOf s requestId = [])).
  2: { apply (wf_handles_saved _ Hwf). destruct Hret as [? _]. lia. }
  simpl. destruct (verifySignatures _ _ _ _); reflexivity.
Qed.

Lemma claimRewards_result e s :
  wf_state s -> currentPhase s = Settled -> isSettled s = true ->
  hasCommitted (commitmentOf s (msg_sender e)) = true ->
  hasClaimedOf s (msg_sender e) = false ->
  counterRequest s + 1 <= UINT256_MAX ->
  claimRewards e s =
    Ok (set_claimRequestIds
          (set_counterRequest
             (set_requestedHandles s
                (<[counterRequest s :=
                     [Handle8 (encryptedPrediction (commitmentOf s (msg_sender e)));
                      Handle64 (encryptedAmount (commitmentOf s (msg_sender e)))]]>
                   (requestedHandles s)))
             (counterRequest s + 1))
          (<[msg_sender e := counterRequest s]> (claimRequestIds s))).
Proof.
  intros Hwf Hph Hset Hcom Hnot Hmax.
  unfold claimRewards, onlyInPhase, requestDecryption, checked_add, requestedHandlesOf.
  rewrite Hph, Hset, Hcom, Hnot.
  rewrite (bool_decide_eq_true_2 (Settled = Settled)) by reflexivity.
  rewrite (wf_handles_fresh _ Hwf) by lia. simpl.
  replace (counterRequest s + 1 <=? UINT256_MAX) with true by (symmetry; lia).
  reflexivity.
Qed.

Lemma claimMany_ok user es s :
  wf_state s -> currentPhase s = Settled -> isSettled s = true ->
  hasCommitted (commitmentOf s user) = true ->
  hasClaimedOf s user = false ->
  Forall (fun e => msg_sender e = user) es ->
  counterRequest s + Z.of_nat (length es) <= UINT256_MAX ->
  exists s',
    claimMany es s = Ok s' /\
    wf_state s' /\ currentPhase s' = Settled /\ isSettled s' = true /\
    counterRequest s' = counterRequest s + Z.of_nat (length es) /\
    (forall a, a <> user -> claimRequestIdOf s' a = claimRequestIdOf s a) /\
    (es <> [] -> claimRequestIdOf s' user = counterRequest s' - 1).
Proof.
  intros Hwf Hph Hset Hcom Hnot Hes. revert s Hwf Hph Hset Hcom Hnot.
  induction Hes as [|e es He _ IH]; intros s Hwf Hph Hset Hcom Hnot Hmax.
  - exists s. simpl. split; [reflexivity|]. split; [assumption|]. split; [assumption|].
    split; [assumption|]. split; [lia|]. split; [reflexivity|]. intros Hne. congruence.
  - simpl length in Hmax. subst user. simpl claimMany.
    rewrite (claimRewards_result e s Hwf Hph Hset Hcom Hnot) by lia.
    set (s1 := set_claimRequestIds _ _).
    change (mbind ?f (Ok s1)) with (f s1). cbv beta.
    destruct (IH s1) as (s' & Hok & Hwf' & Hph' & Hset' & Hcnt & Hother & Hlast).
    + apply (wf_claim s (msg_sender e)); [assumption .. | discriminate].
    + exact Hph.
    + exact Hset.
    + exact Hcom.
    + exact Hnot.
    + subst s1. simpl. lia.
    + exists s'. split; [exact Hok|]. split; [exact Hwf'|]. split; [exact Hph'|].
      split; [exact Hset'|]. subst s1. simpl in Hcnt.
      split; [simpl length; lia|]. split.
      * intros a Ha. rewrite (Hother a Ha). unfold claimRequestIdOf. simpl.
        rewrite lookup_insert_ne by congruence. reflexivity.
      * intros _. destruct es as [|e' es'].
        -- simpl in Hok. injection Hok as <-. unfold claimRequestIdOf. simpl.
           rewrite lookup_insert_eq. simpl. lia.
        -- apply Hlast. discriminate.
Qed.

(** C9. In a settled market a participant with a commitment and no
    payout yet can request its claim any number of times in a row (as long
    as the request counter does not run out of [uint256]): every request
    succeeds, whether or not an earlier one is outstanding, and leaves the
    participant with the id issued last.  Every id issued earlier in the
    row is held by nobody, then and after any later transactions: a
    callback that bears it reverts at the user lookup ("User not found for
    request") when its signatures verify, and at the signature check
    otherwise; it pays nothing. *)
Theorem claim_requests_overwrite user es s :
  reachable cp s -> currentPhase s = Settled -> isSettled s = true ->
  hasCommitted (commitmentOf s user) = true ->
  hasClaimedOf s user = false ->
  Forall (fun e => msg_sender e = user) es ->
  counterRequest s + Z.of_nat (length es) <= UINT256_MAX ->
  exists s',
    claimMany es s = Ok s' /\
    (es <> [] ->
     claimRequestIdOf s' user = counterRequest s + Z.of_nat (length es) - 1) /\
    forall requestId,
      counterRequest s <= requestId < counterRequest s + Z.of_nat (length es) - 1 ->
      forall s'', steps cp s' s'' ->
      forall e cleartexts proof,
        callbackClaimRewards cp e requestId cleartexts proof s'' =
          Revert (if verifySignatures cp (requestedHandlesOf s'' requestId)
                       cleartexts proof
                  then "User not found for request" else "InvalidKMSSignatures()").
Proof.
  intros Hr Hph Hset Hcom Hnot Hes Hmax.
  pose proof (wf_reachable s Hr) as Hwf.
  destruct (claimMany_ok user es s Hwf Hph Hset Hcom Hnot Hes Hmax)
    as (s' & Hok & Hwf' & Hph' & Hset' & Hcnt & Hother & Hlast).
  exists s'. split; [exact Hok|]. split.
  { intros Hne. rewrite (Hlast Hne). lia. }
  intros requestId Hid s'' Hsteps e cleartexts proof.
  assert (retired s' requestId) as Hret.
  { destruct (wf_requested _ Hwf) as [Hagg _]; [rewrite Hph; simpl; lia|].
    split; [lia|]. intros a. destruct (decide (a = user)) as [->|Hne].
    - rewrite Hlast; [lia|]. intros ->. simpl in Hid. lia.
    - rewrite (Hother a Hne).
      destruct (wf_claim_ids _ Hwf a) as [H0|Hlt]; lia. }
  destruct (steps_settled _ _ Hsteps Hph') as (Hph'' & _ & _ & _ & _ & _ & Hset'' & _).
  apply callbackClaimRewards_retired; auto.
  - eapply wf_steps; eauto.
  - eapply retired_steps; eauto.
Qed.

(** ** Parameters, custody and settlement *)

Lemma dispatch_parameters e c s s' out :
  dispatch cp e c s = Ok (s', out) -> same_parameters s s'.
Proof.
  intros H. unfold same_parameters. call_inv H; simpl; repeat split; reflexivity.
Qed.

Lemma si_constructor e mt descr cdur edur po ta tp s :
  constructor e mt descr cdur edur po ta tp = Ok s -> settlement_inv s.
Proof.
  intros H. unfold constructor in H. inv_ok H; decide_hyps; subst.
  all: constructor; simpl; try lia; try (intros; congruence); auto.
  all: try (intros _; repeat split; auto; lia).
Qed.

Lemma si_dispatch e c s s' out :
  wf_state s -> settlement_inv s -> wf_env e ->
  dispatch cp e c s = Ok (s', out) -> settlement_inv s'.
Proof.
  intros Hwf Hsi [Hval _] H. pose proof Hsi as [].
  call_inv H; constructor; simpl in *; try assumption.
  all: try lia.
  all: try (intuition (first [congruence | lia]); fail).
  intros Hk. unfold commitmentOf. simpl. rewrite lookup_insert_ne by congruence.
  exact (si_owner_out0 Hk).
Qed.

Lemma si_reachable s : reachable cp s -> settlement_inv s.
Proof.
  induction 1 as [e mt descr cdur edur po ta tp s He H | s s' Hr IH Hstep].
  - eapply si_constructor; eauto.
  - destruct Hstep as [e c s' out He H].
    eapply si_dispatch; eauto using wf_reachable.
Qed.


(** X1. No transaction assigns the owner, the kind, the description, the
    two deadlines, the oracle, the target asset or the target price of a
    market: after any run they are what they were. *)
Theorem immutable_parameters s s' :
  steps cp s s' ->
  owner s' = owner s /\ marketType s' = marketType s /\
  eventDescription s' = eventDescription s /\
  commitmentDeadline s' = commitmentDeadline s /\
  eventDeadline s' = eventDeadline s /\
  priceOracle s' = priceOracle s /\ targetAsset s' = targetAsset s /\
  targetPrice s' = targetPrice s.
Proof.
  induction 1 as [s|s s1 s2 Hstep _ IH].
  - repeat split; reflexivity.
  - destruct Hstep as [e c s1 out _ H].
    apply dispatch_parameters in H. unfold same_parameters in H.
    destruct H as (?&?&?&?&?&?&?&?), IH as (?&?&?&?&?&?&?&?).
    repeat split; congruence.
Qed.

Lemma settlePriceMarket_event e s :
  marketType s = Event -> settlePriceMarket e s = Revert "Only for price markets".
Proof. intros Hk. unfold settlePriceMarket. rewrite Hk. reflexivity. Qed.

Lemma manual_path_price e s :
  marketType s = Price ->
  is_ok (depositOwnerStake e s) = false /\
  (forall outcome, is_ok (proposeSettlement e outcome s) = false) /\
  is_ok (finalizeSettlement e s) = false.
Proof.
  intros Hk.
  unfold depositOwnerStake, proposeSettlement, finalizeSettlement, onlyOwner, onlyInPhase.
  simpl. rewrite Hk.
  repeat split; intros;
    destruct (bool_decide (msg_sender e = owner s));
    destruct (bool_decide (currentPhase s = Settled)); reflexivity.
Qed.

(** X2. The two settlement paths exclude each other.  On an event market
    [settlePriceMarket] always reverts, and once such a market is settled
    its outcome is the one that was proposed.  On a price market no stake
    is ever held, no settlement is ever proposed, and [depositOwnerStake],
    [proposeSettlement] and [finalizeSettlement] always revert. *)
Theorem settlement_paths_exclusive s :
  reachable cp s ->
  (marketType s = Event ->
   (forall e, settlePriceMarket e s = Revert "Only for price markets") /\
   (isSettled s = true ->
    isSettlementProposed s = true /\ finalOutcome s = proposedOutcome s)) /\
  (marketType s = Price ->
   isSettlementProposed s = false /\ ownerStake s = 0 /\
   forall e,
     is_ok (depositOwnerStake e s) = false /\
     (forall outcome, is_ok (proposeSettlement e outcome s) = false) /\
     is_ok (finalizeSettlement e s) = false).
Proof.
  intros Hr. pose proof (si_reachable s Hr) as Hsi. split.
  - intros Hk. split.
    + intros e. apply settlePriceMarket_event. exact Hk.
    + apply (si_event_settled _ Hsi Hk).
  - intros Hk. destruct (si_price _ Hsi Hk) as (Hp & Hst & _).
    split; [exact Hp|]. split; [exact Hst|].
    intros e. apply manual_path_price. exact Hk.
Qed.

(** X3. The contract always holds the stake it owes: in every reachable
    state the escrowed stake is at most the balance, and both are
    non-negative; once the market is settled no stake is held. *)
Theorem stake_is_covered s :
  reachable cp s ->
  0 <= ownerStake s <= balance s /\ (isSettled s = true -> ownerStake s = 0).
Proof.
  intros Hr. pose proof (si_reachable s Hr) as Hsi.
  split; [apply (si_balance _ Hsi) | apply (si_settled_stake _ Hsi)].
Qed.

Lemma proposed_is_event_settled_phase s :
  settlement_inv s -> isSettlementProposed s = true ->
  currentPhase s = Settled /\ marketType s = Event.
Proof.
  intros Hsi Hp. split.
  - destruct (decide (currentPhase s = Settled)) as [|Hne]; [assumption|].
    destruct (si_before _ Hsi Hne) as (_ & Hnp & _). congruence.
  - destruct (marketType s) eqn:Hk; [reflexivity|].
    destruct (si_price _ Hsi Hk) as (Hnp & _). congruence.
Qed.

Lemma finalizeSettlement_result e s :
  settlement_inv s -> wf_env e ->
  isSettlementProposed s = true -> isSettled s = false ->
  finalizeSettlement e s =
    if settlementProposedTime s + CHALLENGE_PERIOD <=? block_timestamp e then
      if accepts_ether e (owner s) then
        Ok (set_balance
              (set_ownerStake
                 (set_isSettled (set_finalOutcome s (proposedOutcome s)) true) 0)
              (balance s - ownerStake s),
            (owner s, ownerStake s))
      else Revert "Stake return failed"
    else if settlementProposedTime s + CHALLENGE_PERIOD <=? UINT256_MAX
         then Revert "Challenge period not ended" else Revert "Panic(0x11)".
Proof.
  intros Hsi [_ Hnow] Hp Hns.
  destruct (proposed_is_event_settled_phase s Hsi Hp) as [Hph Hk].
  pose proof (si_balance _ Hsi) as Hbal.
  unfold finalizeSettlement, onlyInPhase, checked_add. simpl.
  rewrite Hph, Hk, Hp, Hns.
  rewrite (bool_decide_eq_true_2 (Settled = Settled)) by reflexivity.
  rewrite (bool_decide_eq_true_2 (Event = Event)) by reflexivity.
  simpl.
  destruct (settlementProposedTime s + CHALLENGE_PERIOD <=? UINT256_MAX) eqn:Hmax; simpl.
  - destruct (_ <=? block_timestamp e); simpl; [|reflexivity].
    replace (ownerStake s <=? balance s) with true by (symmetry; lia).
    simpl. destruct (accepts_ether e (owner s)); reflexivity.
  - replace (settlementProposedTime s + CHALLENGE_PERIOD <=? block_timestamp e)
      with false by (symmetry; lia).
    reflexivity.
Qed.

Lemma finalizeSettlement_needs e s :
  is_ok (finalizeSettlement e s) = true ->
  isSettlementProposed s = true /\ isSettled s = false.
Proof.
  unfold finalizeSettlement, onlyInPhase.
  destruct (bool_decide (currentPhase s = Settled)); [|discriminate].
  destruct (bool_decide (marketType s = Event)); [|discriminate].
  destruct (isSettlementProposed s); [|discriminate].
  destruct (isSettled s); [discriminate|]. auto.
Qed.

(** X4. In a reachable state [finalizeSettlement] succeeds exactly when a
    settlement is proposed and not finalized, the 24-hour challenge period
    has elapsed, and the owner accepts the refund: the balance always
    covers the stake.  It then fixes the proposed outcome as final, marks
    the market settled and returns the whole stake to the owner. *)
Theorem finalizeSettlement_exact e s :
  reachable cp s -> wf_env e ->
  (is_ok (finalizeSettlement e s) = true <->
   isSettlementProposed s = true /\ isSettled s = false /\
   settlementProposedTime s + CHALLENGE_PERIOD <= block_timestamp e /\
   accepts_ether e (owner s) = true) /\
  (forall s' t,
     finalizeSettlement e s = Ok (s', t) ->
     t = (owner s, ownerStake s) /\
     finalOutcome s' = proposedOutcome s /\ isSettled s' = true /\
     ownerStake s' = 0 /\ balance s' = balance s - ownerStake s).
Proof.
  intros Hr He. pose proof (si_reachable s Hr) as Hsi. split.
  - split.
    + intros Hok. destruct (finalizeSettlement_needs e s Hok) as [Hp Hns].
      rewrite (finalizeSettlement_result e s Hsi He Hp Hns) in Hok.
      destruct (_ <=? block_timestamp e) eqn:Ht.
      * destruct (accepts_ether e (owner s)); [|discriminate].
        repeat split; auto. lia.
      * destruct (_ <=? UINT256_MAX); discriminate.
    + intros (Hp & Hns & Ht & Hacc).
      rewrite (finalizeSettlement_result e s Hsi He Hp Hns), Hacc.
      replace (_ <=? block_timestamp e) with true by (symmetry; lia).
      reflexivity.
  - intros s' t Hok.
    assert (is_ok (finalizeSettlement e s) = true) as Hok' by (rewrite Hok; reflexivity).
    destruct (finalizeSettlement_needs e s Hok') as [Hp Hns].
    rewrite (finalizeSettlement_result e s Hsi He Hp Hns) in Hok.
    destruct (_ <=? block_timestamp e).
    + destruct (accepts_ether e (owner s)); [|discriminate].
      injection Hok as <- <-. simpl. repeat split; reflexivity.
    + destruct (_ <=? UINT256_MAX); discriminate.
Qed.

(** X5. While a settlement is proposed and not yet finalized, the owner's
    stake is escrowed: it is positive, at least the integer tenth of the
    revealed pool, and covered by the balance. *)
Theorem proposal_is_backed s :
  reachable cp s ->
  isSettlementProposed s = true -> isSettled s = false ->
  0 < ownerStake s /\
  (totalYesAmount s + totalNoAmount s) / 10 <= ownerStake s /\
  ownerStake s <= balance s.
Proof.
  intros Hr Hp Hns. pose proof (si_reachable s Hr) as Hsi.
  pose proof (si_proposed_stake _ Hsi Hp Hns) as Hpos.
  pose proof (si_balance _ Hsi) as Hbal.
  destruct (si_stake_level _ Hsi) as [H0|Hlvl]; [lia|].
  repeat split; lia.
Qed.

Lemma dispatch_settled_outcome e c s s' out :
  dispatch cp e c s = Ok (s', out) -> isSettled s = true ->
  isSettled s' = true /\ finalOutcome s' = finalOutcome s.
Proof.
  intros H Hs. call_inv H; simpl in *; try congruence; split; auto.
Qed.

(** X6. A settled market stays settled and its final outcome never
    changes, whatever is sent to it afterwards. *)
Theorem outcome_is_final s s' :
  isSettled s = true -> steps cp s s' ->
  isSettled s' = true /\ finalOutcome s' = finalOutcome s.
Proof.
  intros Hs Hsteps. induction Hsteps as [s|s s1 s2 Hstep _ IH]; [auto|].
  destruct Hstep as [e c s1 out _ H].
  destruct (dispatch_settled_outcome _ _ _ _ _ H Hs) as [Hs1 Ho1].
  destruct (IH Hs1) as [Hs2 Ho2]. split; congruence.
Qed.

(** ** After the blind-commitment phase *)

Lemma dispatch_after_blind e c s s' out :
  dispatch cp e c s = Ok (s', out) -> currentPhase s <> BlindCommitment ->
  currentPhase s' <> BlindCommitment /\
  participants s' = participants s /\ commitments s' = commitments s /\
  encryptedTotalYes s' = encryptedTotalYes s /\
  encryptedTotalNo s' = encryptedTotalNo s.
Proof.
  intros H Hph. call_inv H; simpl in *; try congruence.
  all: repeat split; try reflexivity; congruence.
Qed.

Lemma steps_after_blind s s' :
  steps cp s s' -> currentPhase s <> BlindCommitment ->
  participants s' = participants s /\ commitments s' = commitments s.
Proof.
  induction 1 as [s|s s1 s2 Hstep _ IH]; intros Hph; [auto|].
  destruct Hstep as [e c s1 out _ H].
  destruct (dispatch_after_blind _ _ _ _ _ H Hph) as (Hph1 & Hp & Hc & _).
  destruct (IH Hph1) as [Hp2 Hc2]. split; congruence.
Qed.

Lemma steps_after_blind_totals s s' :
  steps cp s s' -> currentPhase s <> BlindCommitment ->
  currentPhase s' <> BlindCommitment /\
  encryptedTotalYes s' = encryptedTotalYes s /\
  encryptedTotalNo s' = encryptedTotalNo s.
Proof.
  induction 1 as [s|s s1 s2 Hstep _ IH]; intros Hph; [auto|].
  destruct Hstep as [e c s1 out _ H].
  destruct (dispatch_after_blind _ _ _ _ _ H Hph) as (Hph1 & _ & _ & Hy & Hn).
  destruct (IH Hph1) as (Hph2 & Hy2 & Hn2). repeat split; congruence.
Qed.

(** ** The commitment ledger *)

Lemma dispatch_ledger e c s s' out :
  dispatch cp e c s = Ok (s', out) ->
  (exists more, participants s' = participants s ++ more) /\
  (forall a, hasCommitted (commitmentOf s a) = true ->
             commitmentOf s' a = commitmentOf s a).
Proof.
  intros H. call_inv H; simpl.
  all: try (split; [exists []; rewrite app_nil_r; reflexivity | intros; reflexivity]).
  all: split; [eexists; reflexivity|];
    intros who Hwho; unfold commitmentOf in *; simpl in *;
    rewrite lookup_insert_ne; [reflexivity | congruence].
Qed.

Lemma ledger_steps_keep s s' :
  steps cp s s' ->
  (exists more, participants s' = participants s ++ more) /\
  (forall a, hasCommitted (commitmentOf s a) = true ->
             commitmentOf s' a = commitmentOf s a).
Proof.
  induction 1 as [s|s s1 s2 Hstep _ IH].
  - split; [exists []; rewrite app_nil_r; reflexivity | intros; reflexivity].
  - destruct Hstep as [e c s1 out _ H].
    destruct (dispatch_ledger _ _ _ _ _ H) as [[m1 Hp1] Hc1].
    destruct IH as [[m2 Hp2] Hc2]. split.
    + exists (m1 ++ m2). rewrite Hp2, Hp1, app_assoc. reflexivity.
    + intros a Ha. rewrite Hc2; [apply Hc1; exact Ha|].
      rewrite Hc1; assumption.
Qed.

(** X7. The ledger only grows: after any run the list of participants
    extends the earlier list at its end, and the commitment of every
    address that had committed is the one it stored, unchanged; from the
    moment the phase leaves BlindCommitment nothing is added either. *)
Theorem ledger_append_only s s' :
  steps cp s s' ->
  (exists more, participants s' = participants s ++ more) /\
  (forall a, hasCommitted (commitmentOf s a) = true ->
             commitmentOf s' a = commitmentOf s a) /\
  (currentPhase s <> BlindCommitment ->
   participants s' = participants s /\ commitments s' = commitments s).
Proof.
  intros Hsteps. destruct (ledger_steps_keep s s' Hsteps) as [Hgrow Hkeep].
  split; [exact Hgrow|]. split; [exact Hkeep|].
  intros Hph. apply (steps_after_blind s s' Hsteps Hph).
Qed.

Lemma participant_committed s a :
  wf_state s -> (a ∈ participants s <-> hasCommitted (commitmentOf s a) = true).
Proof.
  intros Hwf. rewrite (wf_participants _ Hwf). rewrite list_elem_of_fmap. split.
  - intros ([b c] & -> & Hin). simpl. apply elem_of_map_to_list in Hin.
    rewrite (commitmentOf_Some _ _ _ Hin). apply (wf_commitments _ Hwf _ _ Hin).
  - intros Hc. unfold commitmentOf in Hc.
    destruct (commitments s !! a) as [c|] eqn:E; [|discriminate].
    exists (a, c). split; [reflexivity|]. apply elem_of_map_to_list. exact E.
Qed.

(** X8. The list of participants and the map of commitments agree in
    every reachable state: no address is listed twice, an address is listed
    exactly when [hasUserCommitted] answers true for it, the count of
    participants is the number of stored commitments, and [getParticipant]
    answers a committed address at every index below the count. *)
Theorem ledger_consistent s :
  reachable cp s ->
  NoDup (participants s) /\
  (forall a, a ∈ participants s <-> hasUserCommitted s a = true) /\
  getParticipantCount s = Z.of_nat (size (commitments s)) /\
  (forall index, 0 <= index < getParticipantCount s ->
     exists a, getParticipant s index = Ok a /\ hasUserCommitted s a = true).
Proof.
  intros Hr. pose proof (wf_reachable s Hr) as Hwf.
  split; [|split; [|split]].
  - rewrite (wf_participants _ Hwf). apply NoDup_fst_map_to_list.
  - intros a. apply participant_committed. exact Hwf.
  - unfold getParticipantCount. rewrite (wf_participants _ Hwf).
    rewrite length_fmap, length_map_to_list. reflexivity.
  - unfold getParticipantCount, getParticipant. intros index Hi.
    replace (index <? Z.of_nat (length (participants s))) with true by (symmetry; lia).
    simpl.
    destruct (participants s !! Z.to_nat index) as [a|] eqn:E.
    + exists a. split; [reflexivity|]. apply participant_committed; [exact Hwf|].
      apply list_elem_of_lookup. eauto.
    + apply lookup_ge_None in E. lia.
Qed.

Lemma commitPrediction_stored e p a pp ap s s1 :
  commitPrediction cp e p a pp ap s = Ok s1 ->
  commitmentOf s1 (msg_sender e) =
    mkCommitment (Euint8 (ext8 p)) (Euint64 (ext64 a)) true.
Proof.
  intros H. unfold commitPrediction in H. inv_ok H.
  all: repeat match goal with
       | E : FHE.fromExternal8 _ _ _ _ = Ok _ |- _ =>
           apply fromExternal8_Ok in E as (-> & _)
       | E : FHE.fromExternal64 _ _ _ _ = Ok _ |- _ =>
           apply fromExternal64_Ok in E as (-> & _)
       end.
  all: subst s1; unfold commitmentOf; simpl; rewrite lookup_insert_eq; reflexivity.
Qed.

(** X9. What a participant committed is what it reads back: after a
    successful [commitPrediction], and after any later transactions,
    [getMyCommitment] called by the same address returns the two
    ciphertexts it supplied, and [getUserCommitment] returns them with the
    flag set. *)
Theorem commitment_reads_back e p a pp ap s s1 s2 :
  commitPrediction cp e p a pp ap s = Ok s1 ->
  steps cp s1 s2 ->
  (forall e', msg_sender e' = msg_sender e ->
     getMyCommitment e' s2 = Ok (Euint8 (ext8 p), Euint64 (ext64 a))) /\
  getUserCommitment s2 (msg_sender e) =
    (Euint8 (ext8 p), Euint64 (ext64 a), true).
Proof.
  intros H Hsteps.
  pose proof (commitPrediction_stored _ _ _ _ _ _ _ H) as Hc.
  destruct (ledger_steps_keep s1 s2 Hsteps) as [_ Hkeep].
  assert (commitmentOf s2 (msg_sender e) =
            mkCommitment (Euint8 (ext8 p)) (Euint64 (ext64 a)) true) as Hc2.
  { rewrite Hkeep; [exact Hc|]. rewrite Hc. reflexivity. }
  split.
  - intros e' He'. unfold getMyCommitment. rewrite He', Hc2. reflexivity.
  - unfold getUserCommitment. rewrite Hc2. reflexivity.
Qed.

(** ** Gates *)

(** X10. [aggregateBets] runs once.  When it succeeds the market was in
    the blind-commitment phase, the commitment deadline had passed and
    somebody had committed; after it, and after any later transactions, a
    further [aggregateBets] reverts on the phase guard, no commit is
    accepted any more, and the two encrypted totals stay as computed. *)
Theorem aggregation_runs_once e s s1 s2 :
  aggregateBets e s = Ok s1 -> steps cp s1 s2 ->
  (currentPhase s = BlindCommitment /\
   commitmentDeadline s <= block_timestamp e /\ participants s <> []) /\
  (forall e', aggregateBets e' s2 = Revert "Invalid phase for this operation") /\
  (forall e' p a pp ap, is_ok (commitPrediction cp e' p a pp ap s2) = false) /\
  encryptedTotalYes s2 = encryptedTotalYes s1 /\
  encryptedTotalNo s2 = encryptedTotalNo s1.
Proof.
  intros H Hsteps. unfold aggregateBets, onlyInPhase in H. inv_ok H. decide_hyps.
  assert (currentPhase s1 <> BlindCommitment) as Hph1 by (subst s1; discriminate).
  destruct (steps_after_blind_totals s1 s2 Hsteps Hph1) as (Hph2 & Hy & Hn).
  split.
  { split; [assumption|]. split; [lia|]. destruct (participants s); [discriminate|].
    discriminate. }
  split.
  { intros e'. unfold aggregateBets, onlyInPhase.
    rewrite bool_decide_eq_false_2 by exact Hph2. reflexivity. }
  split; [|split; assumption].
  intros e' p a pp ap. unfold commitPrediction, onlyInPhase. simpl.
  rewrite (bool_decide_eq_false_2 (currentPhase s2 = BlindCommitment)) by exact Hph2.
  reflexivity.
Qed.

Lemma dispatch_after_request e c s s' out :
  dispatch cp e c s = Ok (s', out) -> 2 <= phase_index (currentPhase s) ->
  2 <= phase_index (currentPhase s') /\
  aggregateDecryptionRequestId s' = aggregateDecryptionRequestId s.
Proof.
  intros H Hph. call_inv H; simpl in *;
    repeat match goal with
    | G : currentPhase _ = _ |- _ => rewrite G in *
    end; simpl in *; try lia; split; try reflexivity; lia.
Qed.

(** X11. The decryption of the totals is requested once.  A successful
    [requestAggregateDecryption] stores the id it was issued; after it, and
    after any later transactions, a further request reverts and the stored
    id is still that one. *)
Theorem decryption_requested_once e s s1 s2 :
  requestAggregateDecryption e s = Ok s1 -> steps cp s1 s2 ->
  aggregateDecryptionRequestId s1 = counterRequest s /\
  aggregateDecryptionRequestId s2 = aggregateDecryptionRequestId s1 /\
  forall e', is_ok (requestAggregateDecryption e' s2) = false.
Proof.
  intros H Hsteps.
  unfold requestAggregateDecryption, onlyInPhase, requestDecryption in H.
  inv_ok H. simplify_eq. simpl in Hsteps |- *.
  set (s1 := set_currentPhase _ AwaitingDecryption) in *.
  assert (2 <= phase_index (currentPhase s2) /\
          aggregateDecryptionRequestId s2 = aggregateDecryptionRequestId s1) as [Hph Hid].
  { assert (2 <= phase_index (currentPhase s1)) as Hph1 by (subst s1; simpl; lia).
    clearbody s1. clear - Hsteps Hph1.
    induction Hsteps as [s|s sa sb Hstep _ IH]; [auto|].
    destruct Hstep as [e c sa out _ H].
    destruct (dispatch_after_request _ _ _ _ _ H Hph1) as [Hpa Hia].
    destruct (IH Hpa) as [Hpb Hib]. split; [exact Hpb | congruence]. }
  split; [reflexivity|]. split; [exact Hid|].
  intros e'. unfold requestAggregateDecryption, onlyInPhase.
  rewrite bool_decide_eq_false_2; [reflexivity|].
  intros Heq. rewrite Heq in Hph. simpl in Hph. lia.
Qed.

(** X12. A challenge is recorded inside the challenge period and changes
    nothing.  When [challengeSettlement] succeeds, the caller is a
    participant, a proposal is pending, the storage is left exactly as it
    was, and [finalizeSettlement] cannot succeed at that time or earlier. *)
Theorem challenge_changes_nothing e s s' :
  challengeSettlement e s = Ok s' ->
  s' = s /\
  hasUserCommitted s (msg_sender e) = true /\
  isSettlementProposed s = true /\ isSettled s = false /\
  block_timestamp e < settlementProposedTime s + CHALLENGE_PERIOD /\
  forall e', block_timestamp e' <= block_timestamp e ->
             is_ok (finalizeSettlement e' s) = false.
Proof.
  intros H. unfold challengeSettlement, onlyInPhase in H. inv_ok H. decide_hyps.
  subst s'. split; [reflexivity|]. split; [assumption|]. split; [reflexivity|].
  split; [assumption|]. split; [lia|].
  intros e' He'. unfold finalizeSettlement, onlyInPhase, checked_add.
  destruct (bool_decide (currentPhase s = Settled)); [|reflexivity].
  destruct (bool_decide (marketType s = Event)); [|reflexivity].
  simpl. rewrite G0, G1. simpl. rewrite G2. simpl.
  replace (settlementProposedTime s + CHALLENGE_PERIOD <=? block_timestamp e')
    with false by (symmetry; lia).
  reflexivity.
Qed.

Lemma commit_by_owner e p a pp ap s :
  marketType s = Event -> msg_sender e = owner s ->
  is_ok (commitPrediction cp e p a pp ap s) = false.
Proof.
  intros Hk Hs. unfold commitPrediction, onlyInPhase. simpl.
  destruct (bool_decide (currentPhase s = BlindCommitment)); [|reflexivity].
  destruct (block_timestamp e <? commitmentDeadline s); [|reflexivity].
  destruct (negb (hasCommitted (commitmentOf (payable e s) (msg_sender e))));
    [|reflexivity].
  destruct (0 <? msg_value e); [|reflexivity].
  simpl. rewrite Hk, Hs.
  rewrite (bool_decide_eq_true_2 (Event = Event)) by reflexivity.
  rewrite (bool_decide_eq_true_2 (owner s = owner s)) by reflexivity.
  reflexivity.
Qed.

(** X13. The owner of an event market never holds a position in it: in
    every reachable state of an event market the owner has no commitment
    and is not a participant, and every [commitPrediction] it sends
    reverts. *)
Theorem owner_never_participates s :
  reachable cp s -> marketType s = Event ->
  hasUserCommitted s (owner s) = false /\
  (owner s ∉ participants s) /\
  forall e p a pp ap,
    msg_sender e = owner s -> is_ok (commitPrediction cp e p a pp ap s) = false.
Proof.
  intros Hr Hk. pose proof (si_reachable s Hr) as Hsi.
  pose proof (si_owner_out _ Hsi Hk) as Hout.
  split; [exact Hout|]. split.
  - intros Hin. apply (participant_committed s _ (wf_reachable s Hr)) in Hin. congruence.
  - intros e p a pp ap Hs. apply commit_by_owner; assumption.
Qed.

Lemma exec_without_owner e c s :
  marketType s = Event -> isSettlementProposed s = false -> isSettled s = false ->
  msg_sender e <> owner s ->
  marketType (exec cp e c s) = Event /\ owner (exec cp e c s) = owner s /\
  isSettlementProposed (exec cp e c s) = false /\ isSettled (exec cp e c s) = false.
Proof.
  intros Hk Hp Hs Hne. unfold exec.
  destruct (dispatch cp e c s) as [[s' out]|] eqn:H; [|auto].
  call_inv H; simpl in *; try congruence; auto.
Qed.

Lemma run_without_owner txs s :
  marketType s = Event -> isSettlementProposed s = false -> isSettled s = false ->
  Forall (fun t => msg_sender t.1 <> owner s) txs ->
  isSettlementProposed (run cp txs s) = false /\ isSettled (run cp txs s) = false.
Proof.
  intros Hk Hp Hs Htxs. revert s Hk Hp Hs Htxs.
  induction txs as [|t txs IH]; intros s Hk Hp Hs Htxs; [auto|].
  apply Forall_cons in Htxs as [Ht Htxs].
  destruct (exec_without_owner t.1 t.2 s Hk Hp Hs Ht) as (Hk1 & Ho1 & Hp1 & Hs1).
  unfold run. simpl. apply IH; auto. rewrite Ho1. exact Htxs.
Qed.

Lemma owner_only e s :
  msg_sender e <> owner s ->
  depositOwnerStake e s = Revert "Only owner can call this" /\
  forall outcome, proposeSettlement e outcome s = Revert "Only owner can call this".
Proof.
  intros Hne. unfold depositOwnerStake, proposeSettlement, onlyOwner.
  change (owner (payable e s)) with (owner s).
  rewrite (bool_decide_eq_false_2 (msg_sender e = owner s) Hne). split; reflexivity.
Qed.

(** X14. Only the owner can start the settlement of an event market.
    [depositOwnerStake] and [proposeSettlement] sent by any other address
    revert with "Only owner can call this"; and whatever transactions are
    sent by other addresses, in any number, an event market with no
    proposal stays without proposal and unsettled. *)
Theorem no_settlement_without_owner txs s :
  marketType s = Event -> isSettlementProposed s = false -> isSettled s = false ->
  Forall (fun t => msg_sender t.1 <> owner s) txs ->
  (forall e, msg_sender e <> owner s ->
     depositOwnerStake e s = Revert "Only owner can call this" /\
     forall outcome, proposeSettlement e outcome s = Revert "Only owner can call this") /\
  isSettlementProposed (run cp txs s) = false /\ isSettled (run cp txs s) = false.
Proof.
  intros Hk Hp Hs Htxs. split.
  - intros e Hne. apply owner_only. exact Hne.
  - apply run_without_owner; assumption.
Qed.

(** ** Funds *)

(** X15. No ether leaves an unsettled market: a transaction after which
    the market is still unsettled made no transfer and did not lower the
    balance. *)
Theorem no_outflow_before_settlement e c s s' out :
  wf_env e -> dispatch cp e c s = Ok (s', out) -> isSettled s' = false ->
  out = [] /\ balance s <= balance s'.
Proof.
  intros [Hv _] H Hs. call_inv H; simpl in *; try congruence; split; auto; lia.
Qed.


(** ** The price oracle *)

Lemma getPrice_result prices now asset :
  PriceOracle.getPrice prices now asset =
    if 0 <? PriceOracle.timestamp (prices asset) then
      if PriceOracle.timestamp (prices asset) <=? now then
        if now - PriceOracle.timestamp (prices asset) <=? PriceOracle.MAX_PRICE_AGE
        then Ok (PriceOracle.price (prices asset), PriceOracle.timestamp (prices asset))
        else Revert "Price too old"
      else Revert "Panic(0x11)"
    else Revert "Price not available".
Proof.
  unfold PriceOracle.getPrice, checked_sub.
  destruct (0 <? _); [|reflexivity]. simpl.
  destruct (_ <=? now); [|reflexivity]. simpl.
  destruct (_ <=? PriceOracle.MAX_PRICE_AGE); reflexivity.
Qed.

Lemma updatePrice_Ok sender now asset newPrice c c' :
  PriceOracle.updatePrice sender now asset newPrice c = Ok c' ->
  PriceOracle.isUpdaterOf c sender = true /\ 0 < newPrice /\
  c' = PriceOracle.mkContract
         (PriceOracle.store (PriceOracle.prices c) asset
            (PriceOracle.mkPriceData newPrice now sender))
         (PriceOracle.isUpdater c) (PriceOracle.owner c).
Proof.
  intros H. unfold PriceOracle.updatePrice, PriceOracle.onlyUpdater in H. inv_ok H.
  split; [first [assumption | reflexivity]|]. split; [lia | congruence].
Qed.

(** X17. A price written by [updatePrice] is read back by [getPrice] for
    24 hours and refused afterwards.  After a successful update of an asset
    at a positive block time [t] (which needs an authorized updater and a
    positive price), [getPrice] of that asset returns the new price and [t]
    at every time from [t] to [t + 24h], and reverts with "Price too old"
    later than that; the prices of the other assets are untouched. *)
Theorem updatePrice_getPrice sender t asset newPrice c c' :
  PriceOracle.updatePrice sender t asset newPrice c = Ok c' -> 0 < t ->
  PriceOracle.isUpdaterOf c sender = true /\ 0 < newPrice /\
  (forall now, t <= now <= t + PriceOracle.MAX_PRICE_AGE ->
     PriceOracle.getPrice (PriceOracle.prices c') now asset = Ok (newPrice, t)) /\
  (forall now, t + PriceOracle.MAX_PRICE_AGE < now ->
     PriceOracle.getPrice (PriceOracle.prices c') now asset = Revert "Price too old") /\
  (forall other, other <> asset ->
     PriceOracle.prices c' other = PriceOracle.prices c other).
Proof.
  intros H Ht. destruct (updatePrice_Ok _ _ _ _ _ _ H) as (Hu & Hp & ->).
  split; [exact Hu|]. split; [exact Hp|]. simpl.
  assert (PriceOracle.store (PriceOracle.prices c) asset
            (PriceOracle.mkPriceData newPrice t sender) asset =
          PriceOracle.mkPriceData newPrice t sender) as Hread.
  { unfold PriceOracle.store. rewrite decide_True by reflexivity. reflexivity. }
  split; [|split].
  - intros now Hnow. rewrite getPrice_result, Hread. simpl.
    replace (0 <? t) with true by (symmetry; lia).
    replace (t <=? now) with true by (symmetry; lia).
    replace (now - t <=? PriceOracle.MAX_PRICE_AGE) with true by (symmetry; lia).
    reflexivity.
  - intros now Hnow. rewrite getPrice_result, Hread. simpl.
    unfold PriceOracle.MAX_PRICE_AGE in *.
    replace (0 <? t) with true by (symmetry; lia).
    replace (t <=? now) with true by (symmetry; lia).
    replace (now - t <=? 24 * 3600) with false by (symmetry; lia).
    reflexivity.
  - intros other Hne. unfold PriceOracle.store. rewrite decide_False by exact Hne.
    reflexivity.
Qed.

(** X18. The queries of the oracle agree with each other.  For every
    storage, time, asset and target: [isPriceAboveTarget] is [getPrice]
    followed by the comparison "price at least target", failing where
    [getPrice] fails and with the same error; [isPriceFresh] answers true
    exactly when [getPrice] succeeds; and where [getPrice] succeeds,
    [getPriceUnsafe] returns the same pair.  (Timestamps are [uint256]
    values, hence not negative.) *)
Theorem oracle_queries_agree prices now asset targetPrice :
  0 <= PriceOracle.timestamp (prices asset) ->
  PriceOracle.isPriceAboveTarget prices now asset targetPrice =
    ('(currentPrice, _) ← PriceOracle.getPrice prices now asset;
     Ok (targetPrice <=? currentPrice)) /\
  (PriceOracle.isPriceFresh prices now asset = Ok true <->
   is_ok (PriceOracle.getPrice prices now asset) = true) /\
  (forall answer, PriceOracle.getPrice prices now asset = Ok answer ->
                  PriceOracle.getPriceUnsafe prices asset = Ok answer).
Proof.
  intros Hts. split; [|split].
  - rewrite getPrice_result.
    unfold PriceOracle.isPriceAboveTarget, checked_sub.
    destruct (0 <? _); [|reflexivity]. simpl.
    destruct (_ <=? now); [|reflexivity]. simpl.
    destruct (_ <=? PriceOracle.MAX_PRICE_AGE); reflexivity.
  - rewrite getPrice_result. unfold PriceOracle.isPriceFresh, checked_sub.
    destruct (PriceOracle.timestamp (prices asset) =? 0) eqn:Hz.
    + replace (0 <? PriceOracle.timestamp (prices asset)) with false by (symmetry; lia).
      split; discriminate.
    + destruct (0 <? PriceOracle.timestamp (prices asset)) eqn:Hp.
      * destruct (_ <=? now); simpl; [|split; discriminate].
        destruct (_ <=? PriceOracle.MAX_PRICE_AGE); simpl; split; congruence.
      * lia.
  - intros answer. rewrite getPrice_result. unfold PriceOracle.getPriceUnsafe.
    destruct (0 <? _); [|discriminate]. simpl.
    destruct (_ <=? now); [|discriminate].
    destruct (_ <=? PriceOracle.MAX_PRICE_AGE); [|discriminate].
    intros H. exact H.
Qed.

Lemma updateEach_in_turn sender now assets newPrices c :
  PriceOracle.isUpdaterOf c sender = true ->
  length assets = length newPrices ->
  PriceOracle.updateEach sender now assets newPrices c =
    updateInTurn sender now (zip assets newPrices) c.
Proof.
  revert newPrices c. induction assets as [|asset assets IH];
    intros [|newPrice newPrices] c Hu Hlen; try discriminate Hlen; [reflexivity|].
  simpl. unfold PriceOracle.updatePrice, PriceOracle.onlyUpdater. rewrite Hu. simpl.
  destruct (0 <? newPrice); [|reflexivity]. simpl.
  apply IH; [exact Hu | simpl in Hlen; lia].
Qed.

Lemma updateEach_bad_price sender now assets newPrices c :
  length assets = length newPrices ->
  Exists (fun newPrice => newPrice <= 0) newPrices ->
  PriceOracle.updateEach sender now assets newPrices c = Revert "Invalid price".
Proof.
  intros Hlen Hbad. revert assets c Hlen.
  induction Hbad as [newPrice newPrices Hbad | newPrice newPrices _ IH];
    intros [|asset assets] c Hlen; try discriminate Hlen; simpl.
  - replace (0 <? newPrice) with false by (symmetry; lia). reflexivity.
  - destruct (0 <? newPrice); [|reflexivity]. simpl.
    apply IH. simpl in Hlen. lia.
Qed.

(** X19. [updatePrices] is a batch of [updatePrice].  For an authorized
    updater and two arrays of the same length it does what the successive
    calls of [updatePrice] on the pairs would do, in order; it is all or
    nothing, reverting with "Invalid price" as soon as one price of the
    batch is zero; and with arrays of different lengths it reverts with
    "Length mismatch". *)
Theorem updatePrices_is_batch sender now assets newPrices c :
  PriceOracle.isUpdaterOf c sender = true ->
  (length assets = length newPrices ->
   PriceOracle.updatePrices sender now assets newPrices c =
     updateInTurn sender now (zip assets newPrices) c /\
   (Exists (fun newPrice => newPrice <= 0) newPrices ->
    PriceOracle.updatePrices sender now assets newPrices c = Revert "Invalid price")) /\
  (length assets <> length newPrices ->
   PriceOracle.updatePrices sender now assets newPrices c = Revert "Length mismatch").
Proof.
  intros Hu. unfold PriceOracle.updatePrices, PriceOracle.onlyUpdater. rewrite Hu. simpl.
  split.
  - intros Hlen. rewrite bool_decide_eq_true_2 by exact Hlen. simpl. split.
    + apply updateEach_in_turn; assumption.
    + apply updateEach_bad_price. exact Hlen.
  - intros Hne. rewrite bool_decide_eq_false_2 by exact Hne. reflexivity.
Qed.

(** X20. The owner grants and withdraws the right to update prices.
    After a successful [removeUpdater] of an address (the owner itself
    included) the prices are as before and every [updatePrice] and
    [updatePrices] sent by that address reverts with "Not authorized
    updater"; after a successful [addUpdater] of an address, its
    [updatePrice] with a positive price succeeds. *)
Theorem updater_rights sender updater c :
  (forall c', PriceOracle.removeUpdater sender updater c = Ok c' ->
     sender = PriceOracle.owner c /\
     PriceOracle.prices c' = PriceOracle.prices c /\
     (forall now asset newPrice,
        PriceOracle.updatePrice updater now asset newPrice c' =
          Revert "Not authorized updater") /\
     (forall now assets newPrices,
        PriceOracle.updatePrices updater now assets newPrices c' =
          Revert "Not authorized updater")) /\
  (forall c', PriceOracle.addUpdater sender updater c = Ok c' ->
     sender = PriceOracle.owner c /\ updater <> 0%N /\
     PriceOracle.prices c' = PriceOracle.prices c /\
     (forall now asset newPrice, 0 < newPrice ->
        is_ok (PriceOracle.updatePrice updater now asset newPrice c') = true)).
Proof.
  split; intros c' H.
  - unfold PriceOracle.removeUpdater, PriceOracle.onlyOwner in H. inv_ok H. decide_hyps.
    subst c'. split; [assumption|]. split; [reflexivity|].
    assert (PriceOracle.isUpdaterOf
              (PriceOracle.mkContract (PriceOracle.prices c)
                 (<[updater := false]> (PriceOracle.isUpdater c)) (PriceOracle.owner c))
              updater = false) as Hno.
    { unfold PriceOracle.isUpdaterOf. simpl. rewrite lookup_insert_eq. reflexivity. }
    split; intros.
    + unfold PriceOracle.updatePrice, PriceOracle.onlyUpdater. rewrite Hno. reflexivity.
    + unfold PriceOracle.updatePrices, PriceOracle.onlyUpdater. rewrite Hno. reflexivity.
  - unfold PriceOracle.addUpdater, PriceOracle.onlyOwner in H. inv_ok H. decide_hyps.
    subst c'. split; [assumption|]. split; [assumption|]. split; [reflexivity|].
    intros now asset newPrice Hp.
    unfold PriceOracle.updatePrice, PriceOracle.onlyUpdater, PriceOracle.isUpdaterOf.
    simpl. rewrite lookup_insert_eq. simpl.
    replace (0 <? newPrice) with true by (symmetry; lia). reflexivity.
Qed.

Lemma store_positive prices asset newPrice now sender :
  (forall a, 0 < PriceOracle.price (prices a) /\ 0 < PriceOracle.timestamp (prices a)) ->
  0 < newPrice -> 0 < now ->
  forall a,
    0 < PriceOracle.price
          (PriceOracle.store prices asset (PriceOracle.mkPriceData newPrice now sender) a) /\
    0 < PriceOracle.timestamp
          (PriceOracle.store prices asset (PriceOracle.mkPriceData newPrice now sender) a).
Proof.
  intros Hall Hp Hn a. unfold PriceOracle.store.
  destruct (decide (a = asset)); simpl; [lia | apply Hall].
Qed.

Lemma updateEach_positive sender now assets newPrices c c' :
  0 < now ->
  (forall a, 0 < PriceOracle.price (PriceOracle.prices c a) /\
             0 < PriceOracle.timestamp (PriceOracle.prices c a)) ->
  PriceOracle.updateEach sender now assets newPrices c = Ok c' ->
  forall a, 0 < PriceOracle.price (PriceOracle.prices c' a) /\
            0 < PriceOracle.timestamp (PriceOracle.prices c' a).
Proof.
  intros Hn. revert newPrices c.
  induction assets as [|asset assets IH]; intros newPrices c Hall H.
  - simpl in H. injection H as <-. exact Hall.
  - destruct newPrices as [|newPrice newPrices]; [discriminate H|].
    simpl in H. inv_ok H. refine (IH _ _ _ H).
    simpl. apply store_positive; [exact Hall | lia | exact Hn].
Qed.

Lemma oracle_prices_positive c :
  oracle_reachable c ->
  forall a, 0 < PriceOracle.price (PriceOracle.prices c a) /\
            0 < PriceOracle.timestamp (PriceOracle.prices c a).
Proof.
  induction 1 as [sender now Hn | sender updater c c' _ IH H | sender updater c c' _ IH H
                 | sender now asset newPrice c c' _ IH Hn H
                 | sender now assets newPrices c c' _ IH Hn H].
  - intros []; simpl; lia.
  - unfold PriceOracle.addUpdater in H. inv_ok H. subst c'. exact IH.
  - unfold PriceOracle.removeUpdater in H. inv_ok H. subst c'. exact IH.
  - destruct (updatePrice_Ok _ _ _ _ _ _ H) as (_ & Hp & ->). simpl.
    apply store_positive; assumption.
  - unfold PriceOracle.updatePrices in H. inv_ok H.
    eapply updateEach_positive; eauto.
Qed.

(** X21. The oracle never serves a zero price.  In every state of the
    oracle reached from its deployment by successful calls at positive
    block times, every asset has a positive price and a positive
    timestamp: [getPriceUnsafe] always succeeds, and a price returned by
    [getPrice] is positive and at most 24 hours old. *)
Theorem oracle_price_positive c asset :
  oracle_reachable c ->
  (exists answer time,
     PriceOracle.getPriceUnsafe (PriceOracle.prices c) asset = Ok (answer, time) /\
     0 < answer /\ 0 < time) /\
  (forall now answer time,
     PriceOracle.getPrice (PriceOracle.prices c) now asset = Ok (answer, time) ->
     0 < answer /\ time <= now <= time + PriceOracle.MAX_PRICE_AGE).
Proof.
  intros Hr. destruct (oracle_prices_positive c Hr asset) as [Hp Ht]. split.
  - unfold PriceOracle.getPriceUnsafe.
    replace (0 <? _) with true by (symmetry; lia). simpl. eauto.
  - intros now answer time. rewrite getPrice_result.
    destruct (0 <? _); [|discriminate].
    destruct (_ <=? now) eqn:L; [|discriminate].
    destruct (_ <=? PriceOracle.MAX_PRICE_AGE) eqn:A; [|discriminate].
    intros [= <- <-]. lia.
Qed.

(** X22. Settlement by the oracle follows the last update.  On a price
    market that is ready to be settled (phase Settled, not settled, event
    deadline passed, oracle set, some total positive), with the oracle
    storage left by an [updatePrice] of the target asset at time [t]:
    [settlePriceMarket] called between [t] and [t + 24h] settles the market
    with outcome "updated price at least target price", and called later
    it reverts with "Price too old". *)
Theorem settlement_follows_update sender t newPrice c c' e s :
  PriceOracle.updatePrice sender t (targetAsset s) newPrice c = Ok c' -> 0 < t ->
  oracle e = PriceOracle.prices c' ->
  marketType s = Price -> isSettled s = false -> currentPhase s = Settled ->
  eventDeadline s <= block_timestamp e -> priceOracle s <> 0%N ->
  0 < totalYesAmount s \/ 0 < totalNoAmount s ->
  (t <= block_timestamp e <= t + PriceOracle.MAX_PRICE_AGE ->
   settlePriceMarket e s =
     Ok (set_isSettled (set_finalOutcome s (targetPrice s <=? newPrice)) true)) /\
  (t + PriceOracle.MAX_PRICE_AGE < block_timestamp e ->
   settlePriceMarket e s = Revert "Price too old").
Proof.
  intros H Ht Ho Hk Hns Hph Hdl Hor Htot.
  destruct (updatePrice_Ok _ _ _ _ _ _ H) as (_ & _ & ->). simpl in Ho.
  assert (oracle e (targetAsset s) = PriceOracle.mkPriceData newPrice t sender) as Hread.
  { rewrite Ho. unfold PriceOracle.store. rewrite decide_True by reflexivity. reflexivity. }
  unfold settlePriceMarket. rewrite Hk, Hns, Hph.
  rewrite (bool_decide_eq_true_2 (Price = Price)) by reflexivity.
  rewrite (bool_decide_eq_true_2 (Settled = Settled)) by reflexivity.
  rewrite (bool_decide_eq_false_2 (priceOracle s = 0%N)) by exact Hor.
  replace (eventDeadline s <=? block_timestamp e) with true by (symmetry; lia).
  replace ((0 <? totalYesAmount s) || (0 <? totalNoAmount s)) with true
    by (symmetry; apply orb_true_iff; destruct Htot; [left | right]; lia).
  simpl. rewrite getPrice_result, Hread. simpl.
  replace (0 <? t) with true by (symmetry; lia).
  unfold PriceOracle.MAX_PRICE_AGE. split; intros Hnow.
  - replace (t <=? block_timestamp e) with true by (symmetry; lia).
    replace (block_timestamp e - t <=? 24 * 3600) with true by (symmetry; lia).
    reflexivity.
  - replace (t <=? block_timestamp e) with true by (symmetry; lia).
    replace (block_timestamp e - t <=? 24 * 3600) with false by (symmetry; lia).
    reflexivity.
Qed.

(** ** The Chainlink oracle *)

Lemma chainlink_getPrice_Ok feeds now c asset answer time :
  ChainlinkPriceOracle.getPrice feeds now c asset = Ok (answer, time) ->
  ChainlinkPriceOracle.priceFeeds c asset <> 0%N /\
  exists round,
    feeds (ChainlinkPriceOracle.priceFeeds c asset) = Some round /\
    answer = MockChainlinkAggregator.answer round /\
    time = MockChainlinkAggregator.updatedAt round /\
    0 < answer /\ time <> 0 /\ time <= now /\
    now - time <= ChainlinkPriceOracle.MAX_PRICE_AGE /\
    MockChainlinkAggregator.roundId round <=
      MockChainlinkAggregator.answeredInRound round.
Proof.
  unfold ChainlinkPriceOracle.getPrice. intros H. inv_ok H. decide_hyps.
  destruct (feeds _) as [round|] eqn:F; [|discriminate H].
  inv_ok H. decide_hyps. split; [assumption|].
  exists round. split; [reflexivity|].
  subst. unfold ChainlinkPriceOracle.MAX_PRICE_AGE in *. repeat split; lia.
Qed.

(** X23. A price served by the Chainlink oracle is valid and fresh.  When
    [getPrice] succeeds, a feed is configured for the asset, and the pair
    returned is the answer and the update time of its latest round, with a
    positive answer, a nonzero update time not in the future and at most 24
    hours old, and a round answered in no earlier round than its own. *)
Theorem chainlink_price_valid feeds now c asset answer time :
  ChainlinkPriceOracle.getPrice feeds now c asset = Ok (answer, time) ->
  ChainlinkPriceOracle.isPriceFeedAvailable c asset = true /\
  exists round,
    feeds (ChainlinkPriceOracle.priceFeeds c asset) = Some round /\
    answer = MockChainlinkAggregator.answer round /\
    time = MockChainlinkAggregator.updatedAt round /\
    0 < answer /\ time <> 0 /\ time <= now /\
    now - time <= ChainlinkPriceOracle.MAX_PRICE_AGE /\
    MockChainlinkAggregator.roundId round <=
      MockChainlinkAggregator.answeredInRound round.
Proof.
  intros H. destruct (chainlink_getPrice_Ok _ _ _ _ _ _ H) as [Hfeed Hround].
  split; [|exact Hround].
  unfold ChainlinkPriceOracle.isPriceFeedAvailable.
  rewrite bool_decide_eq_false_2 by exact Hfeed. reflexivity.
Qed.

(** X24. The mock feed behind the Chainlink oracle.  After [setPrice] of
    the mock at a positive block time [t], with the mock configured as the
    feed of an asset: [getPrice] of that asset returns the new price and
    [t] from [t] to [t + 24h] when the price is positive, reverts with
    "StalePrice()" later than that, and reverts with "InvalidPrice()" when
    the price set is zero or negative; the round number went up by one. *)
Theorem mock_feed_round_trip t newPrice st st' feeds c asset :
  MockChainlinkAggregator.setPrice t newPrice st = Ok st' -> 0 < t ->
  ChainlinkPriceOracle.priceFeeds c asset <> 0%N ->
  feeds (ChainlinkPriceOracle.priceFeeds c asset) =
    Some (MockChainlinkAggregator.latestRoundData st') ->
  MockChainlinkAggregator._roundId st' = MockChainlinkAggregator._roundId st + 1 /\
  (newPrice <= 0 ->
   forall now, ChainlinkPriceOracle.getPrice feeds now c asset = Revert "InvalidPrice()") /\
  (0 < newPrice ->
   (forall now, t <= now <= t + ChainlinkPriceOracle.MAX_PRICE_AGE ->
      ChainlinkPriceOracle.getPrice feeds now c asset = Ok (newPrice, t)) /\
   (forall now, t + ChainlinkPriceOracle.MAX_PRICE_AGE < now ->
      ChainlinkPriceOracle.getPrice feeds now c asset = Revert "StalePrice()")).
Proof.
  intros H Ht Hfeed Hround.
  unfold MockChainlinkAggregator.setPrice in H. inv_ok H. subst st'.
  split; [reflexivity|].
  unfold ChainlinkPriceOracle.getPrice, checked_sub, ChainlinkPriceOracle.MAX_PRICE_AGE.
  rewrite Hround. rewrite bool_decide_eq_false_2 by exact Hfeed. simpl.
  split.
  - intros Hbad now. replace (newPrice <=? 0) with true by (symmetry; lia). reflexivity.
  - intros Hgood. replace (newPrice <=? 0) with false by (symmetry; lia). simpl.
    replace (t =? 0) with false by (symmetry; lia). simpl.
    rewrite Z.ltb_irrefl. simpl. split; intros now Hnow.
    + replace (t <=? now) with true by (symmetry; lia). simpl.
      replace (24 * 3600 <? now - t) with false by (symmetry; lia). reflexivity.
    + replace (t <=? now) with true by (symmetry; lia). simpl.
      replace (24 * 3600 <? now - t) with true by (symmetry; lia). reflexivity.
Qed.

Lemma chainlink_feeds_set c :
  chainlink_reachable c ->
  ChainlinkPriceOracle.priceFeeds c ChainlinkPriceOracle.ETH <> 0%N /\
  ChainlinkPriceOracle.priceFeeds c ChainlinkPriceOracle.BTC <> 0%N.
Proof.
  induction 1 as [sender eth btc sol c H | sender asset feed c c' _ IH H
                 | sender newOwner c c' _ IH H].
  - unfold ChainlinkPriceOracle.constructor in H. inv_ok H. decide_hyps.
    subst c. simpl. split; assumption.
  - unfold ChainlinkPriceOracle.updatePriceFeed, ChainlinkPriceOracle.onlyOwner in H.
    inv_ok H. decide_hyps. subst c'. simpl. destruct IH as [He Hb].
    split; case_decide; assumption.
  - unfold ChainlinkPriceOracle.transferOwnership, ChainlinkPriceOracle.onlyOwner in H.
    inv_ok H. subst c'. simpl. exact IH.
Qed.

(** X29. The ETH and BTC feeds of the Chainlink oracle are always
    configured.  In every state reached from the constructor by
    [updatePriceFeed] and [transferOwnership], a feed is available for ETH
    and for BTC; the only asset for which [getPrice] can revert with
    "InvalidPriceFeed()" for want of a feed is SOL, and it does so for
    every state of the feeds and at every time. *)
Theorem chainlink_feeds_configured c :
  chainlink_reachable c ->
  ChainlinkPriceOracle.isPriceFeedAvailable c ChainlinkPriceOracle.ETH = true /\
  ChainlinkPriceOracle.isPriceFeedAvailable c ChainlinkPriceOracle.BTC = true /\
  forall asset,
    ChainlinkPriceOracle.isPriceFeedAvailable c asset = false ->
    asset = ChainlinkPriceOracle.SOL /\
    forall feeds now,
      ChainlinkPriceOracle.getPrice feeds now c asset = Revert "InvalidPriceFeed()".
Proof.
  intros Hr. destruct (chainlink_feeds_set c Hr) as [He Hb].
  unfold ChainlinkPriceOracle.isPriceFeedAvailable.
  rewrite (bool_decide_eq_false_2 _ He), (bool_decide_eq_false_2 _ Hb).
  split; [reflexivity|]. split; [reflexivity|].
  intros asset Hna. apply negb_false_iff, bool_decide_eq_true_1 in Hna. split.
  - destruct asset; [contradiction | contradiction | reflexivity].
  - intros feeds now. unfold ChainlinkPriceOracle.getPrice.
    rewrite (bool_decide_eq_true_2 _ Hna). reflexivity.
Qed.

(** ** The factory *)

Lemma createMarket_Ok self newMarket e mt descr cdur edur po ta tp f f' market addr :
  MarketFactory.createMarket self newMarket e mt descr cdur edur po ta tp f =
    Ok (f', market, addr) ->
  0 < cdur /\ 0 < edur /\ descr <> ""%string /\
  market = deployed self mt descr (block_timestamp e + cdur)
             (block_timestamp e + cdur + edur)
             (if bool_decide (mt = Price) then po else 0%N)
             (if bool_decide (mt = Price) then ta else PriceOracle.ETH)
             (if bool_decide (mt = Price) then tp else 0) /\
  addr = newMarket /\
  f' = MarketFactory.mkFactory (MarketFactory.markets f ++ [newMarket])
         (<[msg_sender e := MarketFactory.creatorMarketsOf f (msg_sender e) ++ [newMarket]]>
            (MarketFactory.creatorMarkets f))
         (<[newMarket :=
              MarketFactory.mkMarketInfo newMarket (msg_sender e) descr
                (block_timestamp e + cdur) (block_timestamp e + edur)
                (block_timestamp e) true mt]>
            (MarketFactory.marketInfo f)).
Proof.
  intros H. unfold MarketFactory.createMarket, constructor in H. simpl in H.
  inv_ok H; simplify_eq.
  all: split; [lia|]; split; [lia|]; split;
    [intros ->; simpl in *; discriminate|]; auto.
Qed.

(** X25. A market created through the factory is owned by the factory.
    When [createMarket] succeeds, the owner of the new market is the
    address of the factory, while the factory records the caller as its
    creator.  So [depositOwnerStake] and [proposeSettlement] revert for
    every sender other than the factory, and an event market created this
    way is never proposed for settlement nor settled by transactions sent
    from any other address. *)
Theorem factory_owns_market self newMarket e mt descr cdur edur po ta tp f f' market addr :
  MarketFactory.createMarket self newMarket e mt descr cdur edur po ta tp f =
    Ok (f', market, addr) ->
  owner market = self /\
  MarketFactory.creator (MarketFactory.marketInfoOf f' addr) = msg_sender e /\
  currentPhase market = BlindCommitment /\ marketType market = mt /\
  (forall e', msg_sender e' <> self ->
     depositOwnerStake e' market = Revert "Only owner can call this" /\
     forall outcome,
       proposeSettlement e' outcome market = Revert "Only owner can call this") /\
  (mt = Event ->
   forall txs, Forall (fun t => msg_sender t.1 <> self) txs ->
     isSettlementProposed (run cp txs market) = false /\
     isSettled (run cp txs market) = false).
Proof.
  intros H. destruct (createMarket_Ok _ _ _ _ _ _ _ _ _ _ _ _ _ _ H)
    as (_ & _ & _ & -> & -> & ->).
  split; [reflexivity|]. split.
  { unfold MarketFactory.marketInfoOf. simpl. rewrite lookup_insert_eq. reflexivity. }
  split; [reflexivity|]. split; [reflexivity|]. split.
  - intros e' Hne. apply owner_only. exact Hne.
  - intros -> txs Htxs. apply run_without_owner; try reflexivity. exact Htxs.
Qed.

(** X26. The deadlines the factory records.  For a market created by
    [createMarket] at block time [now], the commitment deadline recorded
    by the factory is the one of the market, [now + commitmentDuration];
    the event deadline recorded by the factory is [now + eventDuration],
    whereas the market's own event deadline is
    [now + commitmentDuration + eventDuration], later by the (positive)
    commitment duration. *)
Theorem factory_deadlines self newMarket e mt descr cdur edur po ta tp f f' market addr :
  MarketFactory.createMarket self newMarket e mt descr cdur edur po ta tp f =
    Ok (f', market, addr) ->
  MarketFactory.commitmentDeadline (MarketFactory.marketInfoOf f' addr) =
    commitmentDeadline market /\
  commitmentDeadline market = block_timestamp e + cdur /\
  MarketFactory.eventDeadline (MarketFactory.marketInfoOf f' addr) =
    block_timestamp e + edur /\
  eventDeadline market =
    MarketFactory.eventDeadline (MarketFactory.marketInfoOf f' addr) + cdur /\
  MarketFactory.eventDeadline (MarketFactory.marketInfoOf f' addr) < eventDeadline market /\
  commitmentDeadline market < eventDeadline market.
Proof.
  intros H. destruct (createMarket_Ok _ _ _ _ _ _ _ _ _ _ _ _ _ _ H)
    as (Hc & He & _ & -> & -> & ->).
  unfold MarketFactory.marketInfoOf. simpl. rewrite lookup_insert_eq. simpl.
  repeat split; lia.
Qed.

(** X27. The registry of the factory.  After a successful [createMarket]
    at a nonzero address, that address is a valid market, the market count
    went up by one, [getMarket] answers the new address at the last index
    and what it answered before at the earlier ones, the list of markets of
    the caller gained the new address at its end, and the lists of the
    other creators and the records of the other markets are as before. *)
Theorem factory_registry self newMarket e mt descr cdur edur po ta tp f f' market addr :
  MarketFactory.createMarket self newMarket e mt descr cdur edur po ta tp f =
    Ok (f', market, addr) ->
  newMarket <> 0%N ->
  MarketFactory.isValidMarket f' addr = true /\
  MarketFactory.getMarketCount f' = MarketFactory.getMarketCount f + 1 /\
  MarketFactory.getMarket f' (MarketFactory.getMarketCount f) = Ok addr /\
  (forall index, 0 <= index < MarketFactory.getMarketCount f ->
     MarketFactory.getMarket f' index = MarketFactory.getMarket f index) /\
  MarketFactory.getUserMarkets f' (msg_sender e) =
    MarketFactory.getUserMarkets f (msg_sender e) ++ [addr] /\
  (forall other, other <> msg_sender e ->
     MarketFactory.getUserMarkets f' other = MarketFactory.getUserMarkets f other) /\
  (forall other, other <> addr ->
     MarketFactory.marketInfoOf f' other = MarketFactory.marketInfoOf f other).
Proof.
  intros H Hnz. destruct (createMarket_Ok _ _ _ _ _ _ _ _ _ _ _ _ _ _ H)
    as (_ & _ & _ & _ & -> & ->).
  unfold MarketFactory.isValidMarket, MarketFactory.getMarketCount,
    MarketFactory.getMarket, MarketFactory.getUserMarkets,
    MarketFactory.creatorMarketsOf, MarketFactory.marketInfoOf. simpl.
  rewrite !lookup_insert_eq. simpl. rewrite length_app. simpl.
  split. { rewrite bool_decide_eq_false_2 by exact Hnz. reflexivity. }
  split; [lia|]. split.
  { rewrite (proj2 (Z.ltb_lt _ _)) by lia. simpl.
    rewrite Nat2Z.id. rewrite lookup_app_r by lia. rewrite Nat.sub_diag. reflexivity. }
  split.
  { intros index Hi.
    rewrite !(proj2 (Z.ltb_lt index _)) by lia.
    simpl. rewrite lookup_app_l by lia. reflexivity. }
  split; [reflexivity|]. split.
  - intros other Hne. rewrite lookup_insert_ne by congruence. reflexivity.
  - intros other Hne. rewrite lookup_insert_ne by congruence. reflexivity.
Qed.



(** ** Reading the settlement *)

(** X30. [canFinalize] of [getSettlementInfo] predicts
    [finalizeSettlement].  In a reachable state, when the owner accepts
    ether, the flag is true exactly when [finalizeSettlement] would succeed
    at the same block time; and while a settlement is proposed, the
    challenge deadline reported is the proposal time plus 24 hours. *)
Theorem canFinalize_exact e s proposed outcome time deadline stake canFinalize :
  reachable cp s -> wf_env e -> accepts_ether e (owner s) = true ->
  getSettlementInfo e s = Ok (proposed, outcome, time, deadline, stake, canFinalize) ->
  (canFinalize = true <-> is_ok (finalizeSettlement e s) = true) /\
  (proposed = true -> deadline = settlementProposedTime s + CHALLENGE_PERIOD) /\
  (proposed = false -> deadline = 0 /\ canFinalize = false).
Proof.
  intros Hr He Hacc H. pose proof (si_reachable s Hr) as Hsi.
  unfold getSettlementInfo in H.
  destruct (isSettlementProposed s) eqn:Hp.
  - unfold checked_add in H.
    destruct (settlementProposedTime s + CHALLENGE_PERIOD <=? UINT256_MAX) eqn:Hmax;
      [|discriminate H].
    simpl in H. injection H as <- <- <- <- <- <-.
    split; [|split; [reflexivity | intros Hf; discriminate Hf]].
    destruct (isSettled s) eqn:Hs.
    + simpl. split; [intros Hf; discriminate Hf|].
      intros Hok. destruct (finalizeSettlement_needs e s Hok) as [_ Hns]. congruence.
    + rewrite (finalizeSettlement_result e s Hsi He Hp Hs), Hacc, Hmax. simpl.
      destruct (settlementProposedTime s + CHALLENGE_PERIOD <=? block_timestamp e);
        simpl; split; intros Hf; first [reflexivity | discriminate Hf].
  - simpl in H. injection H as <- <- <- <- <- <-.
    split; [|split; [intros Hf; discriminate Hf | split; reflexivity]].
    split; [intros Hf; discriminate Hf|].
    intros Hok. destruct (finalizeSettlement_needs e s Hok) as [Hp' _]. congruence.
Qed.

End Properties.

(** ** The worked market, evaluated *)

Ltac wf_txs := repeat constructor; unfold UINT256_MAX; simpl; lia.

Lemma demo_reachable kind : reachable honest (demo_market kind).
Proof.
  apply (reachable_init honest (tx 1%N 0 0) kind "demo" 100 100 7%N PriceOracle.ETH 5000).
  - wf_txs.
  - destruct kind; reflexivity.
Qed.

Lemma committed_reachable kind : reachable honest (committed_market kind).
Proof. apply reachable_run; [wf_txs | apply demo_reachable]. Qed.

Lemma revealed_reachable kind : reachable honest (revealed_market kind).
Proof. apply reachable_run; [wf_txs | apply committed_reachable]. Qed.

Lemma settled_reachable : reachable honest settled_market.
Proof. apply reachable_run; [wf_txs | apply revealed_reachable]. Qed.

Lemma overflowed_reachable : reachable honest overflowed_market.
Proof.
  apply reachable_run; [wf_txs|]. apply reachable_run; [wf_txs | apply demo_reachable].
Qed.

Lemma honest_sound : kms_sound honest.
Proof. intros handles cleartexts proof H. apply bool_decide_eq_true_1 in H. exact H. Qed.

(** ** Concrete instances *)

(** C5: the second participant commits again, before the deadline. *)
Lemma second_commit_rejected_witness :
  hasCommitted (commitmentOf (committed_market Event) (msg_sender (tx 3%N 5 50))) = true /\
  commitPrediction honest (tx 3%N 5 50) (ExternalEuint8 1) (ExternalEuint64 5) [] []
    (committed_market Event) = Revert "Already committed".
Proof.
  assert (hasCommitted (commitmentOf (committed_market Event) (msg_sender (tx 3%N 5 50)))
          = true) as Hc by (vm_compute; reflexivity).
  split; [exact Hc|].
  destruct (second_commit_rejected honest (tx 3%N 5 50) (ExternalEuint8 1)
              (ExternalEuint64 5) [] [] (committed_market Event) Hc) as [H _].
  rewrite H. vm_compute. reflexivity.
Defined.

(** C5: the same call at the deadline fails with the error of the deadline
    guard, not with "Already committed". *)
Lemma second_commit_after_deadline : ~ second_commit_as_stated.
Proof.
  intros H.
  specialize (H honest (tx 3%N 5 100) (ExternalEuint8 1) (ExternalEuint64 5) [] []
                (committed_market Event) (committed_reachable Event)).
  assert (hasCommitted (commitmentOf (committed_market Event) (msg_sender (tx 3%N 5 100)))
          = true) as Hc by (vm_compute; reflexivity).
  specialize (H Hc). vm_compute in H. discriminate H.
Qed.

(** C10: a bet of [2 ^ 63] backed by one wei. *)
Lemma commit_ignores_attached_value_witness :
  currentPhase (demo_market Event) = BlindCommitment /\
  0 < msg_value (tx 2%N 1 10) /\
  exists s',
    commitPrediction honest (tx 2%N 1 10) (ExternalEuint8 1) (ExternalEuint64 (2 ^ 63))
      [] [] (demo_market Event) = Ok s' /\
    amountOf (commitmentOf s' 2%N) = 2 ^ 63 /\
    balance s' - balance (demo_market Event) = 1.
Proof.
  split; [reflexivity|]. split; [reflexivity|].
  destruct (commit_ignores_attached_value honest (tx 2%N 1 10) (ExternalEuint8 1)
              (ExternalEuint64 (2 ^ 63)) [] [] (demo_market Event))
    as (s' & Hok & Hc & Hb & _).
  - reflexivity.
  - reflexivity.
  - reflexivity.
  - intros _. discriminate.
  - reflexivity.
  - reflexivity.
  - split; [discriminate | reflexivity].
  - reflexivity.
  - split; [discriminate | reflexivity].
  - exists s'. split; [exact Hok|]. simpl in Hc. rewrite Hc.
    split; [reflexivity|]. rewrite Hb. simpl. reflexivity.
Defined.

(** C7: the oracle quotes 5200 against a target of 5000. *)
Lemma settlePriceMarket_sound_witness :
  exists s',
    settlePriceMarket (tx 9%N 0 200) (revealed_market Price) = Ok s' /\
    finalOutcome s' = true /\ isSettled s' = true.
Proof.
  eexists. split; [vm_compute; reflexivity|].
  match goal with
  | |- finalOutcome ?s' = true /\ _ =>
      destruct (settlePriceMarket_sound (tx 9%N 0 200) (revealed_market Price) s')
        as (_ & _ & _ & _ & _ & price & time & Hp & _ & Hout & Hset);
        [vm_compute; reflexivity|]
  end.
  split; [|exact Hset].
  apply Hout. vm_compute in Hp. injection Hp as <- _. vm_compute. discriminate.
Defined.

(** C8: the pool is 45; a stake of 4 is accepted. *)
Lemma stake_threshold_witness :
  msg_sender (tx 1%N 4 150) = owner (revealed_market Event) /\
  marketType (revealed_market Event) = Event /\
  currentPhase (revealed_market Event) = Settled /\
  ownerStake (revealed_market Event) = 0 /\
  isSettlementProposed (revealed_market Event) = false /\
  is_ok (depositOwnerStake (tx 1%N 4 150) (revealed_market Event)) = true.
Proof.
  repeat (split; [vm_compute; reflexivity|]).
  apply (stake_threshold honest (tx 1%N 4 150) (revealed_market Event)
           (revealed_reachable Event)); try (vm_compute; reflexivity).
  vm_compute. discriminate.
Defined.

(** C8: that stake of 4 is below the exact tenth of 45. *)
Lemma stake_below_exact_tenth : ~ stake_threshold_as_stated.
Proof.
  intros H.
  assert (is_ok (depositOwnerStake (tx 1%N 4 150) (revealed_market Event)) = true) as Hok
    by (vm_compute; reflexivity).
  apply (H honest (tx 1%N 4 150) (revealed_market Event) (revealed_reachable Event)) in Hok;
    try (vm_compute; reflexivity).
  vm_compute in Hok. apply Hok. reflexivity.
Qed.


Lemma revealed_binary kind : binaryPredictions (revealed_market kind).
Proof.
  unfold binaryPredictions. destruct kind; vm_compute;
    repeat (apply Forall_cons_2; [first [left; reflexivity | right; reflexivity]|]);
    apply Forall_nil_2.
Qed.

Lemma overflowed_binary : binaryPredictions overflowed_market.
Proof.
  unfold binaryPredictions. vm_compute.
  repeat (apply Forall_cons_2; [first [left; reflexivity | right; reflexivity]|]).
  apply Forall_nil_2.
Qed.

(** C1: bets of 10, 20 and 15 are revealed as 25 + 20. *)
Lemma conservation_witness :
  currentPhase (revealed_market Event) = Settled /\
  binaryPredictions (revealed_market Event) /\
  totalYesAmount (revealed_market Event) + totalNoAmount (revealed_market Event) =
    committedAmounts (revealed_market Event) /\
  committedAmounts (revealed_market Event) = 45.
Proof.
  assert (currentPhase (revealed_market Event) = Settled) as Hph
    by (vm_compute; reflexivity).
  split; [exact Hph|]. split; [apply revealed_binary|].
  destruct (conservation honest honest_sound (revealed_market Event)
              (revealed_reachable Event) Hph (revealed_binary Event))
    as (_ & _ & _ & _ & Hsmall).
  split; [|vm_compute; reflexivity].
  apply Hsmall. vm_compute. reflexivity.
Defined.

(** C1: two bets of [2 ^ 63] on YES wrap the accumulator around to 0. *)
Lemma conservation_overflow : ~ conservation_as_stated.
Proof.
  intros H.
  specialize (H honest overflowed_market honest_sound overflowed_reachable).
  assert (currentPhase overflowed_market = Settled) as Hph by (vm_compute; reflexivity).
  specialize (H Hph overflowed_binary). vm_compute in H. discriminate H.
Qed.

(** C3: the callback is accepted once; replayed with the same id after
    the market went on to settlement, it fails the phase check. *)
Lemma aggregate_callback_binding_witness :
  callbackAggregateDecryption honest (tx 9%N 0 110) 0 [25; 20] [] awaiting_market =
    Ok (revealed_market Event) /\
  steps honest (revealed_market Event) settled_market /\
  callbackAggregateDecryption honest (tx 9%N 0 90000) 0 [25; 20] [] settled_market =
    Revert "Invalid phase" /\
  totalYesAmount settled_market = totalYesAmount (revealed_market Event).
Proof.
  assert (callbackAggregateDecryption honest (tx 9%N 0 110) 0 [25; 20] []
            awaiting_market = Ok (revealed_market Event)) as Hok
    by (vm_compute; reflexivity).
  assert (steps honest (revealed_market Event) settled_market) as Hsteps
    by (apply steps_run; wf_txs).
  split; [exact Hok|]. split; [exact Hsteps|].
  destruct (aggregate_callback_binding honest (tx 9%N 0 110) 0 [25; 20] []
              awaiting_market (revealed_market Event) settled_market Hok Hsteps)
    as (_ & _ & Hreplay & Hyes & _).
  split; [|exact Hyes].
  rewrite Hreplay. reflexivity.
Defined.

(** C3: right after the accepted callback, the same id is rejected by the
    phase check, not by the request-id check. *)
Lemma replay_passes_id_check : ~ replay_fails_id_check_as_stated.
Proof.
  intros H.
  assert (reachable honest awaiting_market) as Hr
    by (apply reachable_run; [wf_txs | apply committed_reachable]).
  assert (callbackAggregateDecryption honest (tx 9%N 0 110) 0 [25; 20] []
            awaiting_market = Ok (revealed_market Event)) as Hok
    by (vm_compute; reflexivity).
  specialize (H honest (tx 9%N 0 110) 0 [25; 20] [] awaiting_market
                (revealed_market Event) (tx 9%N 0 120) [25; 20] [] Hr Hok).
  vm_compute in H. discriminate H.
Qed.


(** C9: two requests in a row by the first participant; the id of the
    first request no longer resolves to anybody. *)
Lemma claim_requests_overwrite_witness :
  currentPhase settled_market = Settled /\
  isSettled settled_market = true /\
  hasCommitted (commitmentOf settled_market 2%N) = true /\
  hasClaimedOf settled_market 2%N = false /\
  exists s',
    claimMany [tx 2%N 0 86700; tx 2%N 0 86700] settled_market = Ok s' /\
    claimRequestIdOf s' 2%N = 2 /\
    callbackClaimRewards honest (tx 9%N 0 86800) 1 [1; 10] [] s' =
      Revert "User not found for request".
Proof.
  assert (currentPhase settled_market = Settled) as Hph by (vm_compute; reflexivity).
  assert (isSettled settled_market = true) as Hset by (vm_compute; reflexivity).
  assert (hasCommitted (commitmentOf settled_market 2%N) = true) as Hcom
    by (vm_compute; reflexivity).
  assert (hasClaimedOf settled_market 2%N = false) as Hnot by (vm_compute; reflexivity).
  split; [exact Hph|]. split; [exact Hset|]. split; [exact Hcom|]. split; [exact Hnot|].
  destruct (claim_requests_overwrite honest 2%N [tx 2%N 0 86700; tx 2%N 0 86700]
              settled_market settled_reachable Hph Hset Hcom Hnot)
    as (s' & Hok & Hlast & Hdead).
  - repeat constructor.
  - vm_compute. discriminate.
  - exists s'. split; [exact Hok|]. split.
    + rewrite Hlast by discriminate. vm_compute. reflexivity.
    + assert (counterRequest settled_market <= 1 <
              counterRequest settled_market +
                Z.of_nat (length [tx 2%N 0 86700; tx 2%N 0 86700]) - 1) as Hearlier
        by (vm_compute; split; [intros H; discriminate H | reflexivity]).
      rewrite (Hdead 1 Hearlier s' (rtc_refl _ _)).
      vm_compute in Hok. injection Hok as <-. vm_compute. reflexivity.
Defined.


(** ** Concrete instances of the further properties *)

Lemma staked_reachable : reachable honest staked_market.
Proof. apply reachable_run; [wf_txs | apply revealed_reachable]. Qed.

Lemma proposed_reachable : reachable honest proposed_market.
Proof. apply reachable_run; [wf_txs | apply staked_reachable]. Qed.

Lemma demo_to_settled : steps honest (demo_market Event) settled_market.
Proof.
  eapply rtc_trans; [apply (steps_run honest bets); wf_txs|].
  eapply rtc_trans; [apply (steps_run honest (reveal 25 20)); wf_txs|].
  apply (steps_run honest settle); wf_txs.
Qed.

(** X1: the worked market keeps its owner and deadlines up to settlement. *)
Lemma immutable_parameters_witness :
  steps honest (demo_market Event) settled_market /\
  owner settled_market = 1%N /\ eventDeadline settled_market = 200.
Proof.
  split; [exact demo_to_settled|].
  destruct (immutable_parameters honest (demo_market Event) settled_market demo_to_settled)
    as (Ho & _ & _ & _ & Hd & _).
  rewrite Ho, Hd. split; reflexivity.
Defined.

(** X2: the settled event market refuses the price path. *)
Lemma settlement_paths_exclusive_witness :
  reachable honest settled_market /\
  settlePriceMarket (tx 9%N 0 90000) settled_market = Revert "Only for price markets".
Proof.
  split; [exact settled_reachable|].
  destruct (settlement_paths_exclusive honest settled_market settled_reachable) as [H _].
  apply H. vm_compute. reflexivity.
Defined.

(** X3: the stake of 5 is inside the balance of the staked market. *)
Lemma stake_is_covered_witness :
  reachable honest staked_market /\
  0 <= ownerStake staked_market <= balance staked_market.
Proof.
  split; [exact staked_reachable|].
  exact (proj1 (stake_is_covered honest staked_market staked_reachable)).
Defined.

Lemma tx_wf sender value now :
  0 <= value <= UINT256_MAX -> 0 <= now <= UINT256_MAX -> wf_env (tx sender value now).
Proof. intros Hv Hn. split; assumption. Qed.

(** X4: the proposal made at time 200 can be finalized at time 86600. *)
Lemma finalizeSettlement_exact_witness :
  reachable honest proposed_market /\ wf_env (tx 9%N 0 86600) /\
  is_ok (finalizeSettlement (tx 9%N 0 86600) proposed_market) = true.
Proof.
  assert (wf_env (tx 9%N 0 86600)) as He
    by (apply tx_wf; unfold UINT256_MAX; simpl; lia).
  split; [exact proposed_reachable|]. split; [exact He|].
  apply (proj1 (finalizeSettlement_exact honest (tx 9%N 0 86600) proposed_market
                  proposed_reachable He)).
  repeat split; try (vm_compute; reflexivity).
  vm_compute. intros H. discriminate H.
Defined.

(** X5: the proposed market holds a stake of at least a tenth of the pool. *)
Lemma proposal_is_backed_witness :
  reachable honest proposed_market /\
  isSettlementProposed proposed_market = true /\ isSettled proposed_market = false /\
  0 < ownerStake proposed_market.
Proof.
  assert (isSettlementProposed proposed_market = true) as Hp by (vm_compute; reflexivity).
  assert (isSettled proposed_market = false) as Hs by (vm_compute; reflexivity).
  split; [exact proposed_reachable|]. split; [exact Hp|]. split; [exact Hs|].
  exact (proj1 (proposal_is_backed honest proposed_market proposed_reachable Hp Hs)).
Defined.

Lemma settled_to_claiming : steps honest settled_market claiming_market.
Proof. apply steps_run. wf_txs. Qed.

(** X6: the outcome of the settled market survives the claims. *)
Lemma outcome_is_final_witness :
  isSettled settled_market = true /\ steps honest settled_market claiming_market /\
  finalOutcome claiming_market = finalOutcome settled_market.
Proof.
  assert (isSettled settled_market = true) as Hs by (vm_compute; reflexivity).
  split; [exact Hs|]. split; [exact settled_to_claiming|].
  exact (proj2 (outcome_is_final honest settled_market claiming_market Hs
                  settled_to_claiming)).
Defined.

Lemma committed_to_settled : steps honest (committed_market Event) settled_market.
Proof.
  eapply rtc_trans; [apply (steps_run honest (reveal 25 20)); wf_txs|].
  apply (steps_run honest settle); wf_txs.
Qed.

(** X7: the commitment of the first participant is the same at settlement. *)
Lemma ledger_append_only_witness :
  steps honest (committed_market Event) settled_market /\
  hasCommitted (commitmentOf (committed_market Event) 2%N) = true /\
  commitmentOf settled_market 2%N = commitmentOf (committed_market Event) 2%N.
Proof.
  assert (hasCommitted (commitmentOf (committed_market Event) 2%N) = true) as Hc
    by (vm_compute; reflexivity).
  split; [exact committed_to_settled|]. split; [exact Hc|].
  destruct (ledger_append_only honest (committed_market Event) settled_market
              committed_to_settled) as (_ & Hkeep & _).
  exact (Hkeep 2%N Hc).
Defined.

(** X8: the three participants of the worked market are distinct. *)
Lemma ledger_consistent_witness :
  reachable honest (committed_market Event) /\
  NoDup (participants (committed_market Event)) /\
  getParticipantCount (committed_market Event) =
    Z.of_nat (size (commitments (committed_market Event))).
Proof.
  split; [exact (committed_reachable Event)|].
  destruct (ledger_consistent honest (committed_market Event) (committed_reachable Event))
    as (Hnd & _ & Hcount & _).
  split; [exact Hnd | exact Hcount].
Defined.

(** X9: the first bet reads back as committed. *)
Lemma commitment_reads_back_witness :
  exists s1,
    commitPrediction honest (tx 2%N 10 10) (ExternalEuint8 1) (ExternalEuint64 10) [] []
      (demo_market Event) = Ok s1 /\
    steps honest s1 s1 /\
    getUserCommitment s1 2%N = (Euint8 1, Euint64 10, true).
Proof.
  eexists. split; [vm_compute; reflexivity|]. split; [apply rtc_refl|].
  match goal with
  | |- getUserCommitment ?s1 _ = _ =>
      destruct (commitment_reads_back honest (tx 2%N 10 10) (ExternalEuint8 1)
                  (ExternalEuint64 10) [] [] (demo_market Event) s1 s1) as [_ H];
        [vm_compute; reflexivity | apply rtc_refl | exact H]
  end.
Defined.

(** X10: the bets of the worked market cannot be aggregated twice. *)
Lemma aggregation_runs_once_witness :
  exists s1,
    aggregateBets (tx 9%N 0 100) (committed_market Event) = Ok s1 /\
    steps honest s1 s1 /\
    aggregateBets (tx 9%N 0 101) s1 = Revert "Invalid phase for this operation".
Proof.
  eexists. split; [vm_compute; reflexivity|]. split; [apply rtc_refl|].
  match goal with
  | |- aggregateBets _ ?s1 = _ =>
      destruct (aggregation_runs_once honest (tx 9%N 0 100) (committed_market Event) s1 s1)
        as (_ & H & _); [vm_compute; reflexivity | apply rtc_refl | apply H]
  end.
Defined.

(** X11: the decryption of the totals cannot be requested twice. *)
Lemma decryption_requested_once_witness :
  exists s0 s1,
    aggregateBets (tx 9%N 0 100) (committed_market Event) = Ok s0 /\
    requestAggregateDecryption (tx 9%N 0 100) s0 = Ok s1 /\
    steps honest s1 s1 /\
    is_ok (requestAggregateDecryption (tx 9%N 0 101) s1) = false.
Proof.
  eexists. eexists. split; [vm_compute; reflexivity|].
  split; [vm_compute; reflexivity|]. split; [apply rtc_refl|].
  match goal with
  | |- is_ok (requestAggregateDecryption _ ?s1) = false =>
      match goal with
      | |- context [requestAggregateDecryption (tx 9%N 0 101) _] =>
          destruct (decryption_requested_once honest (tx 9%N 0 100)
                      (run honest [ (tx 9%N 0 100, AggregateBets) ] (committed_market Event))
                      s1 s1) as (_ & _ & H);
            [vm_compute; reflexivity | apply rtc_refl | apply H]
      end
  end.
Defined.

(** X12: a challenge by the first participant leaves the proposal as it is. *)
Lemma challenge_changes_nothing_witness :
  challengeSettlement (tx 2%N 0 300) proposed_market = Ok proposed_market /\
  is_ok (finalizeSettlement (tx 9%N 0 300) proposed_market) = false.
Proof.
  assert (challengeSettlement (tx 2%N 0 300) proposed_market = Ok proposed_market) as Hok
    by (vm_compute; reflexivity).
  split; [exact Hok|].
  destruct (challenge_changes_nothing (tx 2%N 0 300) proposed_market proposed_market Hok)
    as (_ & _ & _ & _ & _ & H).
  apply H. vm_compute. intros Hgt. discriminate Hgt.
Defined.

(** X13: the owner of the worked market is not among its participants. *)
Lemma owner_never_participates_witness :
  reachable honest (committed_market Event) /\
  marketType (committed_market Event) = Event /\
  hasUserCommitted (committed_market Event) (owner (committed_market Event)) = false.
Proof.
  assert (marketType (committed_market Event) = Event) as Hk by (vm_compute; reflexivity).
  split; [exact (committed_reachable Event)|]. split; [exact Hk|].
  exact (proj1 (owner_never_participates honest (committed_market Event)
                  (committed_reachable Event) Hk)).
Defined.

Lemma others_only :
  Forall (fun t : Env * Call => msg_sender t.1 <> owner (demo_market Event))
    (bets ++ reveal 25 20).
Proof.
  repeat (apply Forall_cons_2; [intros H; discriminate H|]). apply Forall_nil_2.
Qed.

(** X14: bets and reveal, none sent by the owner, settle nothing. *)
Lemma no_settlement_without_owner_witness :
  marketType (demo_market Event) = Event /\
  isSettlementProposed (demo_market Event) = false /\
  isSettled (demo_market Event) = false /\
  Forall (fun t : Env * Call => msg_sender t.1 <> owner (demo_market Event))
    (bets ++ reveal 25 20) /\
  isSettled (run honest (bets ++ reveal 25 20) (demo_market Event)) = false.
Proof.
  split; [reflexivity|]. split; [reflexivity|]. split; [reflexivity|].
  split; [exact others_only|].
  exact (proj2 (proj2 (no_settlement_without_owner honest (bets ++ reveal 25 20)
                         (demo_market Event) eq_refl eq_refl eq_refl others_only))).
Defined.

(** X15: a bet pays nothing out. *)
Lemma no_outflow_before_settlement_witness :
  exists s' out,
    wf_env (tx 2%N 10 10) /\
    dispatch honest (tx 2%N 10 10) (bet 1 10) (demo_market Event) = Ok (s', out) /\
    isSettled s' = false /\ out = [].
Proof.
  assert (wf_env (tx 2%N 10 10)) as He
    by (apply tx_wf; unfold UINT256_MAX; simpl; lia).
  eexists. eexists. split; [exact He|]. split; [vm_compute; reflexivity|].
  split; [reflexivity|].
  match goal with
  | |- ?out = [] =>
      refine (proj1 (no_outflow_before_settlement honest (tx 2%N 10 10) (bet 1 10)
                       (demo_market Event) _ out He _ _));
        [vm_compute; reflexivity | reflexivity]
  end.
Defined.



(** X17: a price stored at time 60 is served at time 100. *)
Lemma updatePrice_getPrice_witness :
  exists c',
    PriceOracle.updatePrice 1%N 60 PriceOracle.ETH 5300 demo_oracle = Ok c' /\
    0 < 60 /\
    PriceOracle.getPrice (PriceOracle.prices c') 100 PriceOracle.ETH = Ok (5300, 60).
Proof.
  eexists. split; [vm_compute; reflexivity|]. split; [reflexivity|].
  match goal with
  | |- PriceOracle.getPrice (PriceOracle.prices ?c') _ _ = _ =>
      destruct (updatePrice_getPrice 1%N 60 PriceOracle.ETH 5300 demo_oracle c')
        as (_ & _ & H & _); [vm_compute; reflexivity | reflexivity |]
  end.
  apply H. unfold PriceOracle.MAX_PRICE_AGE. lia.
Defined.

(** X18: a quote of 5200 is above a target of 5000. *)
Lemma oracle_queries_agree_witness :
  0 <= PriceOracle.timestamp (quote 5200 190 PriceOracle.ETH) /\
  PriceOracle.isPriceAboveTarget (quote 5200 190) 200 PriceOracle.ETH 5000 = Ok true.
Proof.
  assert (0 <= PriceOracle.timestamp (quote 5200 190 PriceOracle.ETH)) as Ht
    by (simpl; lia).
  split; [exact Ht|].
  destruct (oracle_queries_agree (quote 5200 190) 200 PriceOracle.ETH 5000 Ht) as [H _].
  rewrite H. vm_compute. reflexivity.
Defined.

(** X19: one asset against two prices. *)
Lemma updatePrices_is_batch_witness :
  PriceOracle.isUpdaterOf demo_oracle 1%N = true /\
  PriceOracle.updatePrices 1%N 60 [PriceOracle.ETH] [1; 2] demo_oracle =
    Revert "Length mismatch".
Proof.
  assert (PriceOracle.isUpdaterOf demo_oracle 1%N = true) as Hu
    by (vm_compute; reflexivity).
  split; [exact Hu|].
  apply (proj2 (updatePrices_is_batch 1%N 60 [PriceOracle.ETH] [1; 2] demo_oracle Hu)).
  simpl. intros H. discriminate H.
Defined.

(** X20: the deployer removes itself from the updaters. *)
Lemma updater_rights_witness :
  exists c',
    PriceOracle.removeUpdater 1%N 1%N demo_oracle = Ok c' /\
    PriceOracle.updatePrice 1%N 60 PriceOracle.ETH 5300 c' =
      Revert "Not authorized updater".
Proof.
  eexists. split; [vm_compute; reflexivity|].
  match goal with
  | |- PriceOracle.updatePrice _ _ _ _ ?c' = _ =>
      destruct (proj1 (updater_rights 1%N 1%N demo_oracle) c') as (_ & _ & H & _);
        [vm_compute; reflexivity | apply H]
  end.
Defined.

Lemma demo_oracle_reachable : oracle_reachable demo_oracle.
Proof. apply oracle_deployed. lia. Qed.

(** X21: the oracle as deployed quotes a positive price for BTC. *)
Lemma oracle_price_positive_witness :
  oracle_reachable demo_oracle /\
  exists answer time,
    PriceOracle.getPriceUnsafe (PriceOracle.prices demo_oracle) PriceOracle.BTC =
      Ok (answer, time) /\
    0 < answer /\ 0 < time.
Proof.
  split; [exact demo_oracle_reachable|].
  exact (proj1 (oracle_price_positive demo_oracle PriceOracle.BTC demo_oracle_reachable)).
Defined.

(** X22: the price market settles on the price stored at time 190. *)
Lemma settlement_follows_update_witness :
  exists c',
    PriceOracle.updatePrice 1%N 190 (targetAsset (revealed_market Price)) 5200
      demo_oracle = Ok c' /\
    settlePriceMarket (mkEnv 9%N 0 200 (PriceOracle.prices c') (fun _ => true))
      (revealed_market Price) =
      Ok (set_isSettled
            (set_finalOutcome (revealed_market Price)
               (targetPrice (revealed_market Price) <=? 5200)) true).
Proof.
  eexists. split; [vm_compute; reflexivity|].
  match goal with
  | |- settlePriceMarket (mkEnv _ _ _ (PriceOracle.prices ?c') _) _ = _ =>
      destruct (settlement_follows_update 1%N 190 5200 demo_oracle c'
                  (mkEnv 9%N 0 200 (PriceOracle.prices c') (fun _ => true))
                  (revealed_market Price)) as [H _];
        [vm_compute; reflexivity | reflexivity | reflexivity
        | vm_compute; reflexivity | vm_compute; reflexivity | vm_compute; reflexivity
        | vm_compute; intros Hgt; discriminate Hgt
        | vm_compute; intros Heq; discriminate Heq
        | left; vm_compute; reflexivity
        | apply H; vm_compute; split; intros Hgt; discriminate Hgt ]
  end.
Defined.

(** X23: the Chainlink oracle serves the price of the mock feed. *)
Lemma chainlink_price_valid_witness :
  exists c,
    ChainlinkPriceOracle.constructor 1%N 11%N 12%N 0%N = Ok c /\
    ChainlinkPriceOracle.getPrice (feeds_at 11%N demo_feed) 20 c
      ChainlinkPriceOracle.ETH = Ok (3000, 10) /\
    ChainlinkPriceOracle.isPriceFeedAvailable c ChainlinkPriceOracle.ETH = true.
Proof.
  eexists. split; [reflexivity|].
  assert (ChainlinkPriceOracle.getPrice (feeds_at 11%N demo_feed) 20
            (ChainlinkPriceOracle.mkContract
               (fun a => match a with
                         | ChainlinkPriceOracle.ETH => 11%N
                         | ChainlinkPriceOracle.BTC => 12%N
                         | ChainlinkPriceOracle.SOL => 0%N
                         end) 1%N)
            ChainlinkPriceOracle.ETH = Ok (3000, 10)) as Hok by (vm_compute; reflexivity).
  split; [exact Hok|].
  exact (proj1 (chainlink_price_valid _ _ _ _ _ _ Hok)).
Defined.

(** X24: a price set on the mock at time 30 is served at time 40. *)
Lemma mock_feed_round_trip_witness :
  exists st' c,
    MockChainlinkAggregator.setPrice 30 3100 demo_feed = Ok st' /\
    ChainlinkPriceOracle.constructor 1%N 11%N 12%N 0%N = Ok c /\
    ChainlinkPriceOracle.getPrice (feeds_at 11%N st') 40 c ChainlinkPriceOracle.ETH =
      Ok (3100, 30).
Proof.
  eexists. eexists. split; [vm_compute; reflexivity|]. split; [reflexivity|].
  match goal with
  | |- ChainlinkPriceOracle.getPrice (feeds_at _ ?st') _ ?c ?asset = _ =>
      destruct (mock_feed_round_trip 30 3100 demo_feed st' (feeds_at 11%N st') c asset)
        as (_ & _ & H);
        [vm_compute; reflexivity | reflexivity
        | simpl; intros Hz; discriminate Hz | reflexivity |]
  end.
  apply H; [reflexivity|]. unfold ChainlinkPriceOracle.MAX_PRICE_AGE. lia.
Defined.

(** X25: a market created by address 5 through the factory at address 20. *)
Lemma factory_owns_market_witness :
  exists f' market addr,
    MarketFactory.createMarket 20%N 21%N (tx 5%N 0 0) Event "demo" 100 100 0%N
      PriceOracle.ETH 0 MarketFactory.empty = Ok (f', market, addr) /\
    owner market = 20%N /\
    MarketFactory.creator (MarketFactory.marketInfoOf f' addr) = 5%N.
Proof.
  eexists. eexists. eexists. split; [vm_compute; reflexivity|].
  match goal with
  | |- owner ?market = _ /\ MarketFactory.creator (MarketFactory.marketInfoOf ?f' ?addr) = _ =>
      destruct (factory_owns_market honest 20%N 21%N (tx 5%N 0 0) Event "demo" 100 100 0%N
                  PriceOracle.ETH 0 MarketFactory.empty f' market addr)
        as (Ho & Hc & _); [vm_compute; reflexivity|]
  end.
  split; [exact Ho | exact Hc].
Defined.

(** X26: the same market; the factory records the event deadline 100, the
    market has 200. *)
Lemma factory_deadlines_witness :
  exists f' market addr,
    MarketFactory.createMarket 20%N 21%N (tx 5%N 0 0) Event "demo" 100 100 0%N
      PriceOracle.ETH 0 MarketFactory.empty = Ok (f', market, addr) /\
    MarketFactory.eventDeadline (MarketFactory.marketInfoOf f' addr) = 100 /\
    eventDeadline market =
      MarketFactory.eventDeadline (MarketFactory.marketInfoOf f' addr) + 100.
Proof.
  eexists. eexists. eexists. split; [vm_compute; reflexivity|].
  match goal with
  | |- MarketFactory.eventDeadline (MarketFactory.marketInfoOf ?f' ?addr) = _ /\
       eventDeadline ?market = _ =>
      destruct (factory_deadlines 20%N 21%N (tx 5%N 0 0) Event "demo" 100 100 0%N
                  PriceOracle.ETH 0 MarketFactory.empty f' market addr)
        as (_ & _ & He & Hm & _); [vm_compute; reflexivity|]
  end.
  split; [exact He | exact Hm].
Defined.

(** X27: a fourth market on the record of the factory. *)
Lemma factory_registry_witness :
  exists f' market addr,
    MarketFactory.createMarket 20%N 24%N (tx 5%N 0 0) Event "demo" 100 100 0%N
      PriceOracle.ETH 0 demo_factory = Ok (f', market, addr) /\
    24%N <> 0%N /\
    MarketFactory.getMarketCount f' = MarketFactory.getMarketCount demo_factory + 1 /\
    MarketFactory.getMarket f' (MarketFactory.getMarketCount demo_factory) = Ok addr.
Proof.
  assert (24%N <> 0%N) as Hnz by (intros H; discriminate H).
  eexists. eexists. eexists.
  match goal with |- ?A /\ _ => assert A as Hok by (vm_compute; reflexivity) end.
  split; [exact Hok|]. split; [exact Hnz|].
  destruct (factory_registry _ _ _ _ _ _ _ _ _ _ _ _ _ _ Hok Hnz)
    as (_ & Hcount & Hlast & _).
  split; [exact Hcount | exact Hlast].
Defined.


Lemma demo_chainlink_reachable :
  chainlink_reachable
    (ChainlinkPriceOracle.mkContract
       (fun a => match a with
                 | ChainlinkPriceOracle.ETH => 11%N
                 | ChainlinkPriceOracle.BTC => 12%N
                 | ChainlinkPriceOracle.SOL => 0%N
                 end) 1%N).
Proof. apply (chainlink_deployed 1%N 11%N 12%N 0%N). reflexivity. Qed.

(** X29: deployed without a SOL feed, the oracle serves ETH and BTC only. *)
Lemma chainlink_feeds_configured_witness :
  exists c,
    ChainlinkPriceOracle.constructor 1%N 11%N 12%N 0%N = Ok c /\
    chainlink_reachable c /\
    ChainlinkPriceOracle.isPriceFeedAvailable c ChainlinkPriceOracle.BTC = true /\
    ChainlinkPriceOracle.getPrice (feeds_at 11%N demo_feed) 20 c
      ChainlinkPriceOracle.SOL = Revert "InvalidPriceFeed()".
Proof.
  eexists. split; [reflexivity|]. split; [exact demo_chainlink_reachable|].
  destruct (chainlink_feeds_configured _ demo_chainlink_reachable) as (_ & Hb & Hsol).
  split; [exact Hb|].
  apply (Hsol ChainlinkPriceOracle.SOL). reflexivity.
Defined.

(** X30: at time 86600 the proposal of time 200 is reported as ready. *)
Lemma canFinalize_exact_witness :
  reachable honest proposed_market /\ wf_env (tx 9%N 0 86600) /\
  accepts_ether (tx 9%N 0 86600) (owner proposed_market) = true /\
  getSettlementInfo (tx 9%N 0 86600) proposed_market =
    Ok (true, true, 200, 86600, 5, true) /\
  is_ok (finalizeSettlement (tx 9%N 0 86600) proposed_market) = true.
Proof.
  assert (wf_env (tx 9%N 0 86600)) as He
    by (apply tx_wf; unfold UINT256_MAX; simpl; lia).
  assert (getSettlementInfo (tx 9%N 0 86600) proposed_market =
            Ok (true, true, 200, 86600, 5, true)) as Hinfo by (vm_compute; reflexivity).
  split; [exact proposed_reachable|]. split; [exact He|]. split; [reflexivity|].
  split; [exact Hinfo|].
  apply (proj1 (canFinalize_exact honest (tx 9%N 0 86600) proposed_market
                  true true 200 86600 5 true proposed_reachable He eq_refl Hinfo)).
  reflexivity.
Defined.
End BlindOracle.
